(** * The Mastercard statement parser of [backend/pdf_parser.py]

    A shallow embedding of the field parsers ([parse_amount], [parse_date],
    the header extractors), of the transaction line parser
    ([parse_transaction_line]) and of the aggregator
    ([parse_mastercard_pdf]), followed by the properties of the statement
    parsing engine.  With them come [get_category_for_merchant], and of
    [backend/main.py] the keyword categoriser [auto_categorize] and the rows
    that [upload_statement] adds for a parsed statement, over the columns
    of [backend/models.py] that they read or set; the session of the
    database, the mock import of files that are no PDF and the responses are
    left out.

    Modelling choices.
    - Text is a [string] of 8-bit characters, read as the code points below
      256.  On these [\d] is [0-9], [\s] and [str.strip] share the white
      space of [is_space], [str.lower] is [lower], and [str.upper] is [upper]
      but for three characters that no comparison of the parser can see.
    - A Python [float] is an IEEE-754 binary64 number: [spec_float] with
      precision 53 and maximal exponent 1024, and its operations.
      [float(str)] rounds the decimal it reads to the nearest double, ties
      to even.
    - A regular expression is a list of items matched by backtracking, the
      repetitions greedy, as the module [re] does; the patterns of the parser
      repeat character classes only.
    - Under [re.IGNORECASE] a character of a pattern reads the characters of
      the class [chr_ci].  On the code points below 256 these are the
      characters with the same lower case.  [re] and [str.lower] part ways
      on wider text only, where the flag also reads U+017F for s, U+0130 and
      U+0131 for i and U+212A for k: what is stated on the labels of the
      header is therefore stated through [chr_ci] itself ([reads_ci],
      [find_ci], [spelt_ci]), the relation of the pattern, not through
      [lower].
    - An exception is [None]: the [ValueError] of [float] and of [datetime],
      both caught by the parser.
    - The document is the list of the texts of its pages, as
      [page.extract_text()] gives them; the print statements are left out. *)

From Stdlib Require Import ZArith List Bool Ascii String Lia.
From Stdlib Require Import Floats.SpecFloat.
Import ListNotations.

Local Open Scope string_scope.

(* ===================================================================== *)
(** ** Python strings *)
(* ===================================================================== *)

Module PyStr.

Definition code (c : ascii) : nat := nat_of_ascii c.

Definition between (lo hi : nat) (c : ascii) : bool :=
  (lo <=? code c)%nat && (code c <=? hi)%nat.

(** [str.isspace] on the code points below 256: TAB..CR, FS..US, space,
    NEL and the no-break space. *)
Definition is_space (c : ascii) : bool :=
  between 9 13 c || between 28 32 c || (code c =? 133)%nat || (code c =? 160)%nat.

Definition is_digit (c : ascii) : bool := between 48 57 c.

(** The characters of a number written with a period. *)
Definition plain (c : ascii) : bool := is_digit c || Ascii.eqb c ".".

Definition is_upper (c : ascii) : bool := between 65 90 c.
Definition is_lower (c : ascii) : bool := between 97 122 c.
Definition is_alpha (c : ascii) : bool := is_upper c || is_lower c.   (* [A-Za-z] *)

(** The letters with a diacritic of the code points 192 to 254; 215 and
    247 are the signs of multiplication and of division. *)
Definition is_upper_latin (c : ascii) : bool :=
  between 192 222 c && negb (code c =? 215)%nat.
Definition is_lower_latin (c : ascii) : bool :=
  between 224 254 c && negb (code c =? 247)%nat.

(** [str.lower] on one character. *)
Definition lower_char (c : ascii) : ascii :=
  if is_upper c || is_upper_latin c then ascii_of_nat (code c + 32) else c.

(** [str.upper] on one character.  The upper case of the code points 181,
    223 and 255 is not a code point below 256 (223 gives the two letters
    SS): they are left as they are, which no search for an ASCII text that
    has no SS can tell. *)
Definition upper_char (c : ascii) : ascii :=
  if is_lower c || is_lower_latin c then ascii_of_nat (code c - 32) else c.

Fixpoint map (f : ascii -> ascii) (s : string) : string :=
  match s with
  | EmptyString => EmptyString
  | String c s' => String (f c) (map f s')
  end.

Definition lower : string -> string := map lower_char.
Definition upper : string -> string := map upper_char.

Definition is_empty (s : string) : bool :=
  match s with EmptyString => true | String _ _ => false end.

(** Every character of [s] is in the class [p]. *)
Fixpoint all (p : ascii -> bool) (s : string) : bool :=
  match s with
  | EmptyString => true
  | String c s' => p c && all p s'
  end.

(** Trimming the characters of a class at both ends. *)
Fixpoint lstrip_of (p : ascii -> bool) (s : string) : string :=
  match s with
  | EmptyString => EmptyString
  | String c s' => if p c then lstrip_of p s' else s
  end.

Fixpoint rstrip_of (p : ascii -> bool) (s : string) : string :=
  match s with
  | EmptyString => EmptyString
  | String c s' =>
      let r := rstrip_of p s' in
      if p c && is_empty r then EmptyString else String c r
  end.

Definition strip_of (p : ascii -> bool) (s : string) : string :=
  rstrip_of p (lstrip_of p s).

(** [s.strip()] *)
Definition strip (s : string) : string := strip_of is_space s.

(** [s.startswith(p)] *)
Fixpoint startswith (p s : string) : bool :=
  match p, s with
  | EmptyString, _ => true
  | String a p', String b s' => Ascii.eqb a b && startswith p' s'
  | String _ _, EmptyString => false
  end.

(** [needle in hay] *)
Fixpoint contains (needle hay : string) : bool :=
  startswith needle hay
  || match hay with
     | EmptyString => false
     | String _ hay' => contains needle hay'
     end.

Fixpoint mem (c : ascii) (s : string) : bool :=
  match s with
  | EmptyString => false
  | String d s' => Ascii.eqb c d || mem c s'
  end.

(** [s.replace(c, new)] for a one-character [c] *)
Fixpoint replace (c : ascii) (new : string) (s : string) : string :=
  match s with
  | EmptyString => EmptyString
  | String d s' =>
      if Ascii.eqb d c then new ++ replace c new s'
      else String d (replace c new s')
  end.

(** [s[:n]] and [s[n:]] for a natural number [n], [s[i:j]] *)
Fixpoint take (n : nat) (s : string) : string :=
  match n with
  | O => EmptyString
  | S n' =>
      match s with
      | EmptyString => EmptyString
      | String c s' => String c (take n' s')
      end
  end.

Fixpoint drop (n : nat) (s : string) : string :=
  match n with
  | O => s
  | S n' =>
      match s with
      | EmptyString => EmptyString
      | String _ s' => drop n' s'
      end
  end.

Definition slice (i j : nat) (s : string) : string := take (j - i) (drop i s).

(** [s.find(sub)] and [s.rfind(sub)], [-1] when [sub] does not occur. *)
Fixpoint find (sub s : string) : option nat :=
  if startswith sub s then Some O
  else match s with
       | EmptyString => None
       | String _ s' => option_map S (find sub s')
       end.

Fixpoint rfind_opt (sub s : string) : option nat :=
  match s with
  | EmptyString => if startswith sub s then Some O else None
  | String _ s' =>
      match rfind_opt sub s' with
      | Some i => Some (S i)
      | None => if startswith sub s then Some O else None
      end
  end.

Definition rfind (sub s : string) : Z :=
  match rfind_opt sub s with
  | Some i => Z.of_nat i
  | None => (-1)%Z
  end.

(** [s[:i]], a negative [i] counting from the end. *)
Definition slice_to (s : string) (i : Z) : string :=
  if (i <? 0)%Z then take (Z.to_nat (Z.of_nat (length s) + i)) s
  else take (Z.to_nat i) s.

(** [s.split(sep)[0]] for a non-empty [sep] *)
Definition split_head (sep s : string) : string :=
  match find sep s with
  | Some i => take i s
  | None => s
  end.

(** [s.split(c)] for a one-character separator *)
Fixpoint split (c : ascii) (s : string) : list string :=
  match s with
  | EmptyString => [EmptyString]
  | String d s' =>
      if Ascii.eqb d c then EmptyString :: split c s'
      else match split c s' with
           | [] => [String d EmptyString]
           | w :: ws => String d w :: ws
           end
  end.

Definition newline : string := String "010"%char EmptyString.

(** [int(s)] for a string of decimal digits *)
Definition digit_val (c : ascii) : Z := Z.of_nat (code c - 48).

Fixpoint int_acc (acc : Z) (s : string) : Z :=
  match s with
  | EmptyString => acc
  | String c s' => int_acc (10 * acc + digit_val c) s'
  end.

Definition int (s : string) : Z := int_acc 0 s.

End PyStr.

(* ===================================================================== *)
(** ** Regular expressions, as the module [re] matches them *)
(* ===================================================================== *)

Module Re.
Import PyStr.

(** The patterns of the parser only repeat character classes. *)
Inductive item : Type :=
| Chr (p : ascii -> bool)                        (* one character of a class *)
| Rep (p : ascii -> bool) (lo : nat) (hi : option nat)  (* p{lo,hi}, greedy *)
| Open (g : nat)                                 (* ( of group g *)
| Close (g : nat)                                (* ) of group g *)
| Eos.                                           (* $ *)

Definition regex : Type := list item.

(** Character classes *)
Definition chr (c : ascii) : ascii -> bool := fun x => Ascii.eqb x c.
(** [chr_ci c]: what the character [c] of a pattern compiled with
    [re.IGNORECASE] reads; on 8-bit characters, those with the lower case
    of [c]. *)
Definition chr_ci (c : ascii) : ascii -> bool :=
  fun x => Ascii.eqb (lower_char x) (lower_char c).
Definition dot : ascii -> bool := fun x => negb (Ascii.eqb x "010"%char).
Definition d : ascii -> bool := is_digit.
Definition s : ascii -> bool := is_space.
Definition alpha : ascii -> bool := is_alpha.
Definition amount_chr : ascii -> bool :=              (* [\d.,] *)
  fun c => is_digit c || Ascii.eqb c "."%char || Ascii.eqb c ","%char.
Definition sep_chr : ascii -> bool :=                 (* [.,] *)
  fun c => Ascii.eqb c "."%char || Ascii.eqb c ","%char.

Fixpoint lit (w : string) : regex :=
  match w with
  | EmptyString => []
  | String c w' => Chr (chr c) :: lit w'
  end.

Fixpoint lit_ci (w : string) : regex :=
  match w with
  | EmptyString => []
  | String c w' => Chr (chr_ci c) :: lit_ci w'
  end.

Definition star p := Rep p 0 None.
Definition plus p := Rep p 1 None.
Definition opt p := Rep p 0 (Some 1).
Definition times p n := Rep p n (Some n).

(** The state of a match: the position where each open group began, and
    the text of each closed group. *)
Record state : Type := { marks : list (nat * nat); groups : list (nat * string) }.

Definition init : state := {| marks := []; groups := [] |}.

Fixpoint assoc {V : Type} (g : nat) (l : list (nat * V)) : option V :=
  match l with
  | [] => None
  | (h, v) :: l' => if (h =? g)%nat then Some v else assoc g l'
  end.

Definition group (g : nat) (st : state) : string :=
  match assoc g (groups st) with Some v => v | None => EmptyString end.

Definition more (hi : option nat) : bool :=
  match hi with Some O => false | _ => true end.

(** Greedy repetition: take a character while the class and the bound
    allow, and give one back each time what follows fails.  [t] is the
    text still to read and [i] the number of characters read so far. *)
Fixpoint rep {A : Type} (p : ascii -> bool) (lo : nat) (hi : option nat)
    (k : string -> nat -> option A) (t : string) (i : nat) : option A :=
  let stop := match lo with O => k t i | S _ => None end in
  match t with
  | String c t' =>
      if p c && more hi then
        match rep p (pred lo) (option_map pred hi) k t' (S i) with
        | Some r => Some r
        | None => stop
        end
      else stop
  | EmptyString => stop
  end.

(** What a repetition does when it reads no further character: go on with
    what follows, if it has read enough. *)
Definition stop {A : Type} (k : string -> nat -> option A)
    (lo : nat) (t : string) (i : nat) : option A :=
  match lo with O => k t i | S _ => None end.

(** A length within the upper bound of a repetition. *)
Definition within (hi : option nat) (n : nat) : Prop :=
  match hi with Some h => n <= h | None => True end.

(** The class of the first character of a text, [false] at its end. *)
Definition head_in (p : ascii -> bool) (t : string) : bool :=
  match t with EmptyString => false | String c _ => p c end.

(** [run src r t i st]: match [r] on [t], the text of [src] from position
    [i] on; the result is the text left after the match, its position, and
    the groups. *)
Fixpoint run (src : string) (r : regex) (t : string) (i : nat) (st : state)
    : option (string * nat * state) :=
  match r with
  | [] => Some (t, i, st)
  | Chr p :: r' =>
      match t with
      | String c t' => if p c then run src r' t' (S i) st else None
      | EmptyString => None
      end
  | Rep p lo hi :: r' => rep p lo hi (fun t' i' => run src r' t' i' st) t i
  | Open g :: r' =>
      run src r' t i {| marks := (g, i) :: marks st; groups := groups st |}
  | Close g :: r' =>
      match assoc g (marks st) with
      | Some i0 =>
          run src r' t i {| marks := marks st;
                            groups := (g, slice i0 i src) :: groups st |}
      | None => None
      end
  | Eos :: r' =>
      match t with
      | EmptyString => run src r' t i st
      | String c EmptyString =>
          if Ascii.eqb c "010"%char then run src r' t i st else None
      | _ => None
      end
  end.

(** Every group of the state is a piece of the text. *)
Definition slices_of (src : string) (st : state) : Prop :=
  forall g v, assoc g (groups st) = Some v -> exists i j, v = slice i j src.

(** A match object: the matched text, the text after it, the groups. *)
Record mobj : Type := { whole : string; after : string; caps : state }.

Definition match_at (r : regex) (t : string) : option mobj :=
  match run t r t 0 init with
  | Some (t', n, st) => Some {| whole := take n t; after := t'; caps := st |}
  | None => None
  end.

(** [re.match(r, t)] *)
Definition re_match (r : regex) (t : string) : option mobj := match_at r t.

(** [re.search(r, t)]: the leftmost match; the text before it is returned too. *)
Fixpoint re_search (r : regex) (t : string) : option (string * mobj) :=
  match match_at r t with
  | Some m => Some (EmptyString, m)
  | None =>
      match t with
      | EmptyString => None
      | String c t' =>
          match re_search r t' with
          | Some (pre, m) => Some (String c pre, m)
          | None => None
          end
      end
  end.

(** [re.findall(r, t)] for a pattern without groups: the matches from
    left to right, none overlapping.  [skip] counts the characters of the
    last match still to pass. *)
Fixpoint findall_from (r : regex) (t : string) (skip : nat) : list string :=
  match skip with
  | S n =>
      match t with
      | String _ t' => findall_from r t' n
      | EmptyString => []
      end
  | O =>
      match match_at r t with
      | Some m =>
          whole m ::
          match t with
          | String _ t' => findall_from r t' (pred (length (whole m)))
          | EmptyString => []
          end
      | None =>
          match t with
          | String _ t' => findall_from r t' O
          | EmptyString => []
          end
      end
  end.

Definition re_findall (r : regex) (t : string) : list string := findall_from r t O.

(** [re.sub(r, repl, t)] for a replacement without group references *)
Fixpoint sub_from (r : regex) (repl : string) (t : string) (skip : nat) : string :=
  match skip with
  | S n =>
      match t with
      | String _ t' => sub_from r repl t' n
      | EmptyString => EmptyString
      end
  | O =>
      match match_at r t with
      | Some m =>
          repl ++
          match t with
          | String c t' =>
              match length (whole m) with
              | O => String c (sub_from r repl t' O)
              | S n => sub_from r repl t' n
              end
          | EmptyString => EmptyString
          end
      | None =>
          match t with
          | String c t' => String c (sub_from r repl t' O)
          | EmptyString => EmptyString
          end
      end
  end.

Definition re_sub (r : regex) (repl t : string) : string := sub_from r repl t O.

End Re.

(* ===================================================================== *)
(** ** Python floats *)
(* ===================================================================== *)

Module PyFloat.
Import PyStr.

Definition float : Type := spec_float.

Definition prec : Z := 53.
Definition emax : Z := 1024.

Definition zero : float := S754_zero false.
Definition nan : float := S754_nan.
Definition inf (neg : bool) : float := S754_infinity neg.

Definition fadd : float -> float -> float := SFadd prec emax.
Definition fsub : float -> float -> float := SFsub prec emax.
Definition fneg : float -> float := SFopp.

(** [abs(x)] and [x < y] *)
Definition fabs : float -> float := SFabs.
Definition fltb : float -> float -> bool := SFltb.

(** [x == y] *)
Definition feqb : float -> float -> bool := SFeqb.

(** The truth value of a float, [x != 0]: a NaN is true. *)
Definition nonzero (x : float) : bool :=
  match x with S754_zero _ => false | _ => true end.

Definition is_finite (x : float) : bool :=
  match x with S754_zero _ | S754_finite _ _ _ => true | _ => false end.

(** The double nearest to [(-1)^neg * n * 10^e10], ties to even. *)
Definition of_decimal (neg : bool) (n : Z) (e10 : Z) : float :=
  match n with
  | Zpos p =>
      if (0 <=? e10)%Z then
        binary_normalize prec emax (cond_Zopp neg (Zpos p * 10 ^ e10)) 0 false
      else
        SFdiv prec emax (S754_finite neg p 0)
                        (S754_finite false (Z.to_pos (10 ^ (- e10))) 0)
  | _ => S754_zero neg
  end.

(** [float(z)] for an integer [z] *)
Definition of_Z (z : Z) : float := binary_normalize prec emax z 0 false.

(** [x] is a double, of the sign of [num], no farther from the fraction
    [num / den] than half a unit of its last place. *)
Definition within_half_ulp (x : float) (num den : Z) : bool :=
  match x with
  | S754_finite sx m e =>
      bounded prec emax m e
      && Bool.eqb sx (num <? 0)%Z
      && (Z.abs (2 * Zpos m * 2 ^ Z.max e 0 * den - 2 * Z.abs num * 2 ^ Z.max (- e) 0)
          <=? 2 ^ Z.max e 0 * den)%Z
  | S754_zero _ => (num =? 0)%Z
  | _ => false
  end.

(** [sum(xs)] as CPython computes it up to version 3.11: the additions done
    from the left, starting from 0.  (Later versions compensate the rounding
    errors of the additions; on a list of one number the two agree.) *)
Definition sum_left (xs : list float) : float := fold_left fadd xs zero.

(** *** [float(str)] *)

Fixpoint span (p : ascii -> bool) (t : string) : string * string :=
  match t with
  | String c t' =>
      if p c then let (a, b) := span p t' in (String c a, b)
      else (EmptyString, t)
  | EmptyString => (EmptyString, EmptyString)
  end.

(** An underscore is accepted between two digits only, and is dropped. *)
Fixpoint underscores (prev : ascii) (t : string) : option string :=
  match t with
  | EmptyString => if Ascii.eqb prev "_"%char then None else Some EmptyString
  | String c t' =>
      if Ascii.eqb c "_"%char then
        if is_digit prev then underscores c t' else None
      else if Ascii.eqb prev "_"%char && negb (is_digit c) then None
      else option_map (String c) (underscores c t')
  end.

Definition sign (t : string) : bool * string :=
  match t with
  | String c t' =>
      if Ascii.eqb c "-"%char then (true, t')
      else if Ascii.eqb c "+"%char then (false, t')
      else (false, t)
  | EmptyString => (false, t)
  end.

Definition is_e (c : ascii) : bool := Ascii.eqb c "e"%char || Ascii.eqb c "E"%char.

(** digits [. digits] [e [sign] digits], with a digit in the mantissa *)
Definition number (neg : bool) (t : string) : option float :=
  let (ip, t1) := span is_digit t in
  let (fp, t2) :=
    match t1 with
    | String c t1' =>
        if Ascii.eqb c "."%char then span is_digit t1' else (EmptyString, t1)
    | EmptyString => (EmptyString, t1)
    end in
  let mant := int (ip ++ fp) in
  let scale := Z.of_nat (length fp) in
  if is_empty (ip ++ fp) then None
  else
    match t2 with
    | EmptyString => Some (of_decimal neg mant (- scale))
    | String c t3 =>
        if is_e c then
          let (eneg, t4) := sign t3 in
          let (ed, t5) := span is_digit t4 in
          if is_empty ed || negb (is_empty t5) then None
          else Some (of_decimal neg mant (cond_Zopp eneg (int ed) - scale))
        else None
    end.

Definition inf_or_nan (neg : bool) (t : string) : option float :=
  let w := lower t in
  if String.eqb w "inf" || String.eqb w "infinity" then Some (inf neg)
  else if String.eqb w "nan" then Some nan
  else None.

(** The white space that [float] trims: TAB..CR, the space, NEL and the
    no-break space; not FS..US, which [str.strip] trims. *)
Definition is_float_space (c : ascii) : bool :=
  between 9 13 c || (code c =? 32)%nat || (code c =? 133)%nat || (code c =? 160)%nat.

(** [float(t)]; [None] is the [ValueError]. *)
Definition float_of_str (t : string) : option float :=
  match underscores "000"%char t with
  | None => None
  | Some t1 =>
      let (neg, t2) := sign (strip_of is_float_space t1) in
      match number neg t2 with
      | Some x => Some x
      | None => inf_or_nan neg t2
      end
  end.

End PyFloat.

(* ===================================================================== *)
(** ** [backend/pdf_parser.py] *)
(* ===================================================================== *)

Import PyStr Re PyFloat.

(** A [datetime] built from a year, a month and a day; its time of day is
    midnight and is left out. *)
Record datetime : Type := { year : Z; month : Z; day : Z }.

Definition is_leap (y : Z) : bool :=
  ((y mod 4 =? 0) && negb (y mod 100 =? 0) || (y mod 400 =? 0))%Z.

Definition days_in_month (y m : Z) : Z :=
  if (m =? 2)%Z then (if is_leap y then 29 else 28)
  else if ((m =? 4) || (m =? 6) || (m =? 9) || (m =? 11))%Z then 30
  else 31.

(** [datetime(y, m, d)]; [None] is the [ValueError] of a date that does
    not exist. *)
Definition datetime_new (y m d : Z) : option datetime :=
  if ((1 <=? y) && (y <=? 9999) && (1 <=? m) && (m <=? 12)
      && (1 <=? d) && (d <=? days_in_month y m))%Z
  then Some {| year := y; month := m; day := d |}
  else None.

Record Transaction : Type := {
  date : datetime;
  merchant : string;
  coupon_number : string;
  amount_pesos : float;
  amount_dollars : float;
  is_dollar : bool
}.

(** The fields [month] and [year] of the source are [st_month] and
    [st_year] here, the names being taken by the fields of [datetime]. *)
Record StatementData : Type := {
  saldo_actual_pesos : float;
  saldo_actual_dolares : float;
  transactions : list Transaction;
  impuestos_pesos : float;
  impuestos_dolares : float;
  total_transactions_pesos : float;
  total_transactions_dolares : float;
  saldo_pendiente_pesos : float;
  saldo_pendiente_dolares : float;
  st_month : Z;
  st_year : Z;
  statement_date : option datetime;
  proximo_cierre : option datetime;
  proximo_vencimiento : option datetime
}.

(** *** parse_amount *)

(** The Argentine format: 1.234,56 becomes 1234.56. *)
Definition decimal_text (text : string) : string :=
  if mem "," text && mem "." text then replace "," "." (replace "." EmptyString text)
  else if mem "," text then replace "," "." text
  else text.

(** [text.replace('(', '').replace(')', '').replace('-', '').strip()] *)
Definition unsigned_text (text : string) : string :=
  strip (replace "-" EmptyString (replace ")" EmptyString (replace "(" EmptyString text))).

Definition parse_amount (text : string) : float :=
  if is_empty text || is_empty (strip text) then zero
  else
    let text := strip text in
    let is_negative := startswith "-" text || startswith "(" text in
    let text := unsigned_text text in
    let text := decimal_text text in
    match float_of_str text with
    | Some value => if is_negative then fneg value else value
    | None => zero
    end.

(** *** parse_date *)

Definition months : list (string * Z) :=
  [("ene", 1); ("feb", 2); ("mar", 3); ("abr", 4); ("may", 5); ("jun", 6);
   ("jul", 7); ("ago", 8); ("sep", 9); ("oct", 10); ("nov", 11); ("dic", 12)]%Z.

(** [months.get(key, default)] *)
Fixpoint dict_get (key : string) (dict : list (string * Z)) (default : Z) : Z :=
  match dict with
  | [] => default
  | (k, v) :: dict' => if String.eqb k key then v else dict_get key dict' default
  end.

(** [(\d{1,2})-([A-Za-z]{3})-(\d{2})] *)
Definition date_re : regex :=
  [Open 1; Rep d 1 (Some 2); Close 1; Chr (chr "-");
   Open 2; times alpha 3; Close 2; Chr (chr "-");
   Open 3; times d 2; Close 3].

(** The [try] covers the whole body, so the [ValueError] of [datetime]
    also ends in [None]. *)
Definition parse_date (text : string) : option datetime :=
  match re_match date_re (strip text) with
  | Some m =>
      let day := int (group 1 (caps m)) in
      let month_str := lower (group 2 (caps m)) in
      let year := (int (group 3 (caps m)) + 2000)%Z in
      let month := dict_get month_str months 1 in
      datetime_new year month day
  | None => None
  end.

(** *** is_subtotal_row *)

Definition skip_patterns : list string :=
  ["total titular"; "total adicional"; "saldo actual"; "pago minimo";
   "detalle del mes"; "su pago"; "transfer financ"].

Definition is_subtotal_row (text : string) : bool :=
  let text_lower := lower text in
  existsb (fun pattern => contains pattern text_lower) skip_patterns.

(** *** The header extractors *)

(** [SALDO ACTUAL\s*\$?\s*([\d.,]+)\s*U\$S\s*([\d.,]+)], ignoring case *)
Definition saldo_actual_re : regex :=
  (lit_ci "SALDO ACTUAL"
   ++ [star s; opt (chr_ci "$"); star s; Open 1; plus amount_chr; Close 1; star s]
   ++ lit_ci "U$S"
   ++ [star s; Open 2; plus amount_chr; Close 2])%list.

Definition extract_saldo_actual (text : string) : float * float :=
  match re_search saldo_actual_re text with
  | Some (_, m) =>
      (parse_amount (group 1 (caps m)), parse_amount (group 2 (caps m)))
  | None => (zero, zero)
  end.

(** [SALDO PENDIENTE\s+([\d.,]+)\s+([\d.,]+)], ignoring case *)
Definition saldo_pendiente_re : regex :=
  (lit_ci "SALDO PENDIENTE"
   ++ [plus s; Open 1; plus amount_chr; Close 1; plus s;
       Open 2; plus amount_chr; Close 2])%list.

Definition extract_saldo_pendiente (text : string) : float * float :=
  match re_search saldo_pendiente_re text with
  | Some (_, m) =>
      (parse_amount (group 1 (caps m)), parse_amount (group 2 (caps m)))
  | None => (zero, zero)
  end.

(** [(\d{1,2})-([A-Za-z]{3})-(\d{2})] after a label *)
Definition labelled_date_re (label : regex) : regex :=
  (label
   ++ [star s; Open 1; Rep d 1 (Some 2); Close 1; Chr (chr_ci "-");
       Open 2; times alpha 3; Close 2; Chr (chr_ci "-");
       Open 3; times d 2; Close 3])%list.

Definition date_of_groups (m : mobj) : option datetime :=
  parse_date (group 1 (caps m) ++ "-" ++ group 2 (caps m) ++ "-" ++ group 3 (caps m)).

Definition extract_statement_date (text : string) : option datetime * Z * Z :=
  match re_search (labelled_date_re (lit_ci "ESTADO DE CUENTA AL:")) text with
  | Some (_, m) =>
      match date_of_groups m with
      | Some date_obj => (Some date_obj, month date_obj, year date_obj)
      | None => (None, 0, 0)%Z
      end
  | None => (None, 0, 0)%Z
  end.

Definition extract_proximo_cierre (text : string) : option datetime :=
  match re_search
          (labelled_date_re (lit_ci "PROXIMO" ++ [star s] ++ lit_ci "CIERRE:")%list) text with
  | Some (_, m) => date_of_groups m
  | None => None
  end.

Definition extract_proximo_vencimiento (text : string) : option datetime :=
  match re_search
          (labelled_date_re (lit_ci "PROXIMO" ++ [star s] ++ lit_ci "VENCIMIENTO:")%list) text with
  | Some (_, m) => date_of_groups m
  | None => None
  end.

(** *** parse_transaction_line *)

(** [^(\d{1,2}-[A-Za-z]{3}-\d{2})\s+(.+)], matched at the start of the line *)
Definition line_re : regex :=
  [Open 1; Rep d 1 (Some 2); Chr (chr "-"); times alpha 3; Chr (chr "-");
   times d 2; Close 1; plus s; Open 2; plus dot; Close 2].

(** [-?[\d]+[.,][\d]+] *)
Definition number_re : regex :=
  [opt (chr "-"); plus d; Chr sep_chr; plus d].

(** [re.escape(w)]: the pattern that matches the text [w] itself. *)
Definition escape (w : string) : regex := lit w.

(** [\s(\d{5})\s+] followed by the escaped amount; the amount is escaped by
    hand first, a backslash put before each period and comma. *)
Definition coupon_re (amount_str : string) : regex :=
  ([Chr s; Open 1; times d 5; Close 1; plus s]
   ++ escape (replace "," "\," (replace "." "\." amount_str)))%list.

(** [\s+] and [\s+\d{5}$] *)
Definition spaces_re : regex := [plus s].
Definition trailing_coupon_re : regex := [plus s; times d 5; Eos].

(** The text after the date, [date_match.group(2).strip()]. *)
Definition line_parts (line : string) : option (string * string) :=
  match re_match line_re (strip line) with
  | Some m => Some (group 1 (caps m), strip (group 2 (caps m)))
  | None => None
  end.

(** [numbers[-1]] *)
Definition last_number (rest : string) : option string :=
  match rev (re_findall number_re rest) with
  | [] => None
  | amount_str :: _ => Some amount_str
  end.

(** The coupon number, five digits before the amount: group 1 of the
    search, or the empty text. *)
Definition find_coupon (rest amount_str : string) : string :=
  match re_search (coupon_re amount_str) rest with
  | Some (_, m) => group 1 (caps m)
  | None => EmptyString
  end.

(** The merchant: what stands before the coupon, or before the last
    occurrence of the amount text; the white space is then normalised and
    five digits left at the end are removed. *)
Definition find_merchant (rest amount_str coupon : string) : string :=
  let merchant :=
    if negb (is_empty coupon) then strip (split_head coupon rest)
    else
      let last_num_pos := rfind amount_str rest in
      strip (slice_to rest last_num_pos) in
  let merchant := strip (re_sub spaces_re " " merchant) in
  re_sub trailing_coupon_re EmptyString merchant.

Definition parse_transaction_line (line : string) : option Transaction :=
  if is_subtotal_row line then None
  else
    match line_parts line with
    | None => None
    | Some (date_text, rest) =>
        match parse_date date_text with
        | None => None
        | Some date =>
            let is_dollar := contains "USA," (upper rest) in
            match last_number rest with
            | None => None
            | Some amount_str =>
                let amount := parse_amount amount_str in
                let coupon := find_coupon rest amount_str in
                let merchant := find_merchant rest amount_str coupon in
                if is_dollar then
                  Some {| date := date; merchant := merchant;
                          coupon_number := coupon;
                          amount_pesos := zero; amount_dollars := amount;
                          is_dollar := true |}
                else
                  Some {| date := date; merchant := merchant;
                          coupon_number := coupon;
                          amount_pesos := amount; amount_dollars := zero;
                          is_dollar := false |}
            end
        end
    end.

(** *** parse_mastercard_pdf *)

(** [^\d{1,2}-[A-Za-z]{3}-\d{2}\s] *)
Definition line_start_re : regex :=
  [Rep d 1 (Some 2); Chr (chr "-"); times alpha 3; Chr (chr "-"); times d 2; Chr s].

(** A page is what [page.extract_text()] returns: a text, or [None]. *)
Definition page_text (page : option string) : string :=
  match page with
  | Some text => text
  | None => EmptyString
  end.

Definition full_text (pages : list (option string)) : string :=
  fold_left (fun acc page => acc ++ page_text page ++ newline) pages EmptyString.

Definition scan_line (line : string) : list Transaction :=
  let line := strip line in
  if is_empty line then []
  else
    match re_match line_start_re line with
    | Some _ =>
        match parse_transaction_line line with
        | Some transaction => [transaction]
        | None => []
        end
    | None => []
    end.

Definition scan_lines (text : string) : list Transaction :=
  flat_map scan_line (split "010"%char text).

Section Aggregator.

(** The builtin [sum] on a list of floats.  How it adds depends on the
    version of Python ([sum_left] up to 3.11); the aggregator is modelled
    for any. *)
Variable sum : list float -> float.

(** The document is the list of its pages.  The header is read on the
    first page only. *)
Definition parse_mastercard_pdf (pages : list (option string)) : StatementData :=
  let first := match pages with
               | page :: _ => Some (page_text page)
               | [] => None
               end in
  let '(saldo_pesos, saldo_dolares) :=
    match first with Some t => extract_saldo_actual t | None => (zero, zero) end in
  let '(saldo_pendiente_pesos, saldo_pendiente_dolares) :=
    match first with Some t => extract_saldo_pendiente t | None => (zero, zero) end in
  let '(statement_date, month, year) :=
    match first with Some t => extract_statement_date t | None => (None, 0, 0)%Z end in
  let proximo_cierre :=
    match first with Some t => extract_proximo_cierre t | None => None end in
  let proximo_vencimiento :=
    match first with Some t => extract_proximo_vencimiento t | None => None end in
  let transactions := scan_lines (full_text pages) in
  let total_pesos := sum (List.map amount_pesos transactions) in
  let total_dolares := sum (List.map amount_dollars transactions) in
  let impuestos_pesos := fsub (fsub saldo_pesos total_pesos) saldo_pendiente_pesos in
  let impuestos_dolares := fsub (fsub saldo_dolares total_dolares) saldo_pendiente_dolares in
  {| saldo_actual_pesos := saldo_pesos;
     saldo_actual_dolares := saldo_dolares;
     transactions := transactions;
     impuestos_pesos := impuestos_pesos;
     impuestos_dolares := impuestos_dolares;
     total_transactions_pesos := total_pesos;
     total_transactions_dolares := total_dolares;
     saldo_pendiente_pesos := saldo_pendiente_pesos;
     saldo_pendiente_dolares := saldo_pendiente_dolares;
     st_month := month;
     st_year := year;
     statement_date := statement_date;
     proximo_cierre := proximo_cierre;
     proximo_vencimiento := proximo_vencimiento |}.

End Aggregator.

(* ===================================================================== *)
(** ** Notions used in the statements *)
(* ===================================================================== *)

(** The field of the currency the line was classified in. *)
Definition amount (t : Transaction) : float :=
  if is_dollar t then amount_dollars t else amount_pesos t.

(** The invariant of the specification: exactly one of the two amounts is
    not zero, and [is_dollar] tells that it is the dollar amount. *)
Definition currency_split (t : Transaction) : Prop :=
  nonzero (amount_pesos t) = negb (nonzero (amount_dollars t))
  /\ (is_dollar t = true <-> nonzero (amount_dollars t) = true).

(** The synthetic statement of the specification: the declared current
    balance is the sum of the parsed amounts and of the declared prior
    balance, the sum taken as Python takes it, in doubles. *)
Definition reconciles (r : StatementData) : Prop :=
  feqb (saldo_actual_pesos r)
       (fadd (total_transactions_pesos r) (saldo_pendiente_pesos r)) = true
  /\ feqb (saldo_actual_dolares r)
          (fadd (total_transactions_dolares r) (saldo_pendiente_dolares r)) = true.

(** The shape of an amount: an optional hyphen, digits, a period or a
    comma, digits. *)
Definition number_shaped (w : string) : Prop :=
  exists sgn a c b,
    w = sgn ++ a ++ String c b
    /\ (sgn = EmptyString \/ sgn = "-")
    /\ all is_digit a = true /\ a <> EmptyString
    /\ sep_chr c = true
    /\ all is_digit b = true /\ b <> EmptyString.

(** The abbreviation is one of the twelve of [months], case ignored. *)
Definition known_month (abbr : string) : bool :=
  existsb (fun kv => String.eqb (fst kv) (lower abbr)) months.

(** A date of the calendar in the years that two digits after 2000 give. *)
Definition calendar_date (dt : datetime) : Prop :=
  (2000 <= year dt <= 2099)%Z /\ (1 <= month dt <= 12)%Z
  /\ (1 <= day dt <= days_in_month (year dt) (month dt))%Z.

(** Sample lines and statements *)
Definition puppis : Transaction :=
  {| date := {| year := 2025; month := 11; day := 30 |};
     merchant := "PUPPIS";
     coupon_number := EmptyString;
     amount_pesos := of_decimal false 4650000 (-2);
     amount_dollars := zero;
     is_dollar := false |}.

Definition youtube_line : string :=
  "26-Nov-25 GOOGLE *YouTube (USA,ARS, 600,00) 00761 0,41".

Definition statement_1500_30 : list (option string) :=
  [Some ("SALDO ACTUAL $ 1500,30 U$S 0,00" ++ newline ++
         "SALDO PENDIENTE 1000,10 0,00" ++ newline ++
         "01-Ene-25 KIOSCO 00123 500,20")].

Definition statement_netflix : list (option string) :=
  [Some ("26-Nov-25 NETFLIX.COM 00779 1500,00" ++ newline ++
         "SALDO ACTUAL $ 1500,00 U$S 0,00")].

(** Split a conjunction into its parts, and no further. *)
Ltac splits := repeat match goal with |- _ /\ _ => split end.

(* ===================================================================== *)
(** ** [backend/pdf_parser.py]: the category of a merchant *)
(* ===================================================================== *)

(** The two labels with a letter beyond ASCII, by their code points. *)
Definition educacion : string := "Educaci" ++ String (ascii_of_nat 243) "n".
Definition tecnologia : string := "Tecnolog" ++ String (ascii_of_nat 237) "a".

(** The dictionary [categories], in the order of its entries, which is the
    order a [for] loop visits them in. *)
Definition categories : list (string * list string) :=
  [("Entretenimiento",
    ["google"; "youtube"; "netflix"; "spotify"; "steam"; "playstation"; "xbox";
     "hoyts"; "cinema"; "cine"]);
   (educacion,
    ["udemy"; "coursera"; "skillshare"; "domestika"; "platzi"; "healingmind";
     "skills to"; "timsykes"; "traders agency"]);
   ("Compras",
    ["mercadolibre"; "amazon"; "alibaba"; "zara"; "nike"; "adidas"; "jumbo";
     "carrefour"; "coto"; "dia tienda"; "gift card"]);
   ("Comida y Restaurantes",
    ["rappi"; "pedidosya"; "uber eats"; "mcdonalds"; "starbucks"; "cafe";
     "restaurant"; "panera"; "cayena"]);
   (tecnologia,
    ["openai"; "chatgpt"; "github"; "microsoft"; "adobe"; "dropbox"]);
   ("Transporte",
    ["uber"; "cabify"; "ypf"; "shell"; "axion"; "deheza"; "autop"]);
   ("Servicios",
    ["edenor"; "edesur"; "metrogas"; "aysa"; "telecom"; "personal"; "movistar";
     "claro"; "naturgy"; "arba"; "zurich"; "global z"; "municipalidad"]);
   ("Salud", ["farmacia"; "farmacity"; "osde"; "swiss medical"; "galeno"]);
   ("Mascotas", ["puppis"; "pet"]);
   ("Pagos Digitales", ["merpago"; "mercadopago"; "paypal"; "dlo*"])].

(** [any(kw in text for kw in keywords)] *)
Definition any_in (keywords : list string) (text : string) : bool :=
  existsb (fun kw => contains kw text) keywords.

(** The loop over the entries: the first category one of whose keywords
    occurs in the text, "Otros" when the loop ends. *)
Fixpoint first_category (merchant_lower : string)
    (items : list (string * list string)) : string :=
  match items with
  | [] => "Otros"
  | (category, keywords) :: items' =>
      if any_in keywords merchant_lower then category
      else first_category merchant_lower items'
  end.

Definition get_category_for_merchant (merchant : string) : string :=
  let merchant_lower := lower merchant in
  first_category merchant_lower categories.

(* ===================================================================== *)
(** ** [backend/main.py]: categories and the rows of an uploaded statement *)
(* ===================================================================== *)

(** The date of a stored row: a date of the statement, or the time of the
    upload, [datetime.utcnow()], which is not modelled further. *)
Inductive moment : Type :=
| At (d : datetime)
| UtcNow.

(** The rows of [backend/models.py], with the columns that [main.py] reads
    or sets in the code modelled here. *)
Module models.

Record Category : Type := { id : Z; name : string }.

Record Transaction : Type := {
  user_id : Z;
  statement_id : Z;
  category_id : option Z;
  merchant : string;
  amount : float;
  is_dollar : bool;
  date : moment;
  description : option string
}.

End models.

(** [next((c for c in cs if p(c)), default)] *)
Definition next_or (p : models.Category -> bool) (cs : list models.Category)
    (default : option models.Category) : option models.Category :=
  match List.find p cs with
  | Some c => Some c
  | None => default
  end.

(** [c.id if c else None] *)
Definition id_of (c : option models.Category) : option Z :=
  option_map models.id c.

Definition CATEGORY_KEYWORDS : list (string * list string) :=
  [("Comida y Restaurantes",
    ["restaurant"; "cafe"; "coffee"; "food"; "pizza"; "burger"; "sushi";
     "starbucks"; "mcdonalds"; "uber eats"; "pedidosya"; "rappi"; "supermercado";
     "carrefour"; "coto"; "dia"]);
   ("Compras",
    ["amazon"; "mercadolibre"; "store"; "shop"; "mall"; "clothing"; "fashion";
     "nike"; "adidas"; "zara"; "tienda"]);
   ("Transporte",
    ["uber"; "cabify"; "taxi"; "subte"; "sube"; "ypf"; "shell"; "axion";
     "estacionamiento"; "peaje"]);
   ("Entretenimiento",
    ["netflix"; "spotify"; "hulu"; "disney"; "cine"; "cinema"; "concert";
     "ticket"; "steam"; "playstation"; "xbox"]);
   ("Servicios",
    ["edenor"; "edesur"; "metrogas"; "aysa"; "telecom"; "personal"; "movistar";
     "claro"; "fibertel"]);
   ("Salud",
    ["farmacia"; "farmacity"; "doctor"; "hospital"; "clinica"; "gym"; "gimnasio";
     "megatlon"]);
   ("Suscripciones",
    ["subscription"; "mensual"; "apple"; "google"; "microsoft"; "adobe";
     "amazon prime"])].

(** [CATEGORY_KEYWORDS[key]] when [key in CATEGORY_KEYWORDS] *)
Fixpoint keywords_of (key : string) (dict : list (string * list string))
    : option (list string) :=
  match dict with
  | [] => None
  | (k, v) :: dict' => if String.eqb k key then Some v else keywords_of key dict'
  end.

(** The loop of [auto_categorize] over the categories of the user. *)
Fixpoint keyword_category (merchant_lower : string) (cs : list models.Category)
    : option models.Category :=
  match cs with
  | [] => None
  | cat :: cs' =>
      match keywords_of (models.name cat) CATEGORY_KEYWORDS with
      | Some keywords =>
          if any_in keywords merchant_lower then Some cat
          else keyword_category merchant_lower cs'
      | None => keyword_category merchant_lower cs'
      end
  end.

Definition is_otros (c : models.Category) : bool :=
  contains "otro" (lower (models.name c)).

Definition auto_categorize (merchant : string) (cs : list models.Category)
    : option Z :=
  let merchant_lower := lower merchant in
  match keyword_category merchant_lower cs with
  | Some cat => Some (models.id cat)
  | None =>
      let otros := next_or is_otros cs None in
      id_of otros
  end.

(** *** upload_statement, the rows it adds for a parsed statement *)

(** [category_lookup.get(key)] for the dictionary
    [{c.name.lower(): c for c in categories}]: of two categories with the
    same key the later one is kept. *)
Definition category_lookup_get (key : string) (cs : list models.Category)
    : option models.Category :=
  List.find (fun c => String.eqb (lower (models.name c)) key) (rev cs).

(** The category of a parsed transaction: by the lower-cased label of its
    merchant, then by a category whose name contains that label, then by a
    category "otro". *)
Definition category_of (cs : list models.Category) (t : Transaction)
    : option models.Category :=
  let cat_name := get_category_for_merchant (merchant t) in
  match category_lookup_get (lower cat_name) cs with
  | Some category => Some category
  | None =>
      next_or (fun c => contains (lower cat_name) (lower (models.name c))) cs
              (next_or is_otros cs None)
  end.

(** The text "Cupon: " (its o with an acute accent, code point 243) and
    the coupon number, or [None] without a coupon number *)
Definition description_of (coupon_number : string) : option string :=
  if is_empty coupon_number then None
  else Some ("Cup" ++ String (ascii_of_nat 243) "n: " ++ coupon_number).

Section Upload.

(** [current_user.id], the categories of the user, and [statement.id]. *)
Variable user_id : Z.
Variable cs : list models.Category.
Variable statement_id : Z.

(** The body of the loop over [statement_data.transactions]: the rows
    added for one parsed transaction. *)
Definition rows_of (t : Transaction) : list models.Transaction :=
  let category := category_of cs t in
  (if nonzero (amount_pesos t) then
     [{| models.user_id := user_id;
         models.statement_id := statement_id;
         models.category_id := id_of category;
         models.merchant := merchant t;
         models.amount := fabs (amount_pesos t);
         models.is_dollar := false;
         models.date := At (date t);
         models.description := description_of (coupon_number t) |}]
   else [])
  ++
  (if nonzero (amount_dollars t) then
     let usd_category :=
       next_or (fun c => contains "suscripcion" (lower (models.name c))) cs category in
     [{| models.user_id := user_id;
         models.statement_id := statement_id;
         models.category_id := id_of usd_category;
         models.merchant := merchant t;
         models.amount := fabs (amount_dollars t);
         models.is_dollar := true;
         models.date := At (date t);
         models.description := description_of (coupon_number t) |}]
   else [])%list.

(** The row of the taxes, added when the residual is above 100 in absolute
    value. *)
Definition impuestos_rows (statement_data : StatementData) : list models.Transaction :=
  if fltb (of_Z 100) (fabs (impuestos_pesos statement_data)) then
    let impuestos_category :=
      next_or (fun c => contains "impuesto" (lower (models.name c))
                        || contains "servicio" (lower (models.name c)))
              cs (next_or is_otros cs None) in
    [{| models.user_id := user_id;
        models.statement_id := statement_id;
        models.category_id := id_of impuestos_category;
        models.merchant := "Impuestos y Cargos del Resumen";
        models.amount := fabs (impuestos_pesos statement_data);
        models.is_dollar := false;
        models.date := match statement_date statement_data with
                       | Some d => At d
                       | None => UtcNow
                       end;
        models.description :=
          Some ("Calculado autom" ++ String (ascii_of_nat 225)
                  "ticamente (diferencia entre saldo y transacciones)") |}]
  else [].

(** [transactions_created] at the end of [upload_statement], for a PDF:
    the rows added to the session, in their order. *)
Definition transactions_created (statement_data : StatementData)
    : list models.Transaction :=
  (flat_map rows_of (transactions statement_data) ++ impuestos_rows statement_data)%list.

End Upload.

(** [x or y] on integers: [y] when [x] is 0. *)
Definition int_or (x y : Z) : Z := if (x =? 0)%Z then y else x.

(** The month and the year of the [Statement] that [upload_statement]
    creates: [statement_data.month or datetime.utcnow().month], and the
    same for the year. *)
Definition statement_period (statement_data : StatementData) (utcnow : datetime)
    : Z * Z :=
  (int_or (st_month statement_data) (month utcnow),
   int_or (st_year statement_data) (year utcnow)).

(* ===================================================================== *)
(** ** [backend/models.py]: the default categories *)
(* ===================================================================== *)

(** The names of [DEFAULT_CATEGORIES], in the order of the list; the icons
    and the colours are left out.  [register] of [backend/auth.py] creates
    one category of the user for each. *)
Definition DEFAULT_CATEGORIES : list string :=
  ["Comida y Restaurantes"; "Compras"; "Transporte"; "Entretenimiento";
   "Servicios"; "Salud"; "Suscripciones"; "Otros"].

(* ===================================================================== *)
(** ** Notions used in the statements on amounts and categories *)
(* ===================================================================== *)

(** A parenthesis or a hyphen, the characters that [parse_amount] deletes. *)
Definition is_mark (c : ascii) : bool := mem c "()-".

(** [text.replace('(', '').replace(')', '').replace('-', '')] *)
Definition unmarked (text : string) : string :=
  replace "-" EmptyString (replace ")" EmptyString (replace "(" EmptyString text)).

(** The categories bear exactly these names. *)
Definition has_names (names : list string) (cs : list models.Category) : Prop :=
  forall n, In n (List.map models.name cs) <-> In n names.

(** With the default categories, where the label of a merchant leads. *)
Definition default_of (label : string) : string :=
  if existsb (String.eqb label) DEFAULT_CATEGORIES then label else "Otros".

(** Words set apart by single spaces: no other white space, no space at
    either end, no two spaces in a row, and at least one character.
    [after_space] tells that a space, or the start, comes just before. *)
Fixpoint spaced (after_space : bool) (t : string) : bool :=
  match t with
  | EmptyString => negb after_space
  | String c t' =>
      if Ascii.eqb c " " then negb after_space && spaced true t'
      else negb (is_space c) && spaced false t'
  end.

Definition well_spaced (t : string) : bool := spaced true t.

(** The text does not end with a space and five digits. *)
Definition no_trailing_token (t : string) : Prop :=
  forall t1 k, t = t1 ++ " " ++ k -> all is_digit k = true -> length k <> 5.

(** A label is matched by the text [lbl], and what follows goes on after it. *)
Definition matches_label (label : regex) (lbl : string) : Prop :=
  forall src r t i st x,
    run src r t (i + length lbl) st = Some x ->
    run src (label ++ r)%list (lbl ++ t) i st = Some x.

(** Labels, as a pattern compiled with [re.IGNORECASE] reads them.
    [reads_ci w t]: the literal [w] of the pattern is read at the start of
    [t], character by character in the relation [chr_ci] of the flag. *)
Fixpoint reads_ci (w t : string) : bool :=
  match w, t with
  | EmptyString, _ => true
  | String c w', String x t' => chr_ci c x && reads_ci w' t'
  | String _ _, EmptyString => false
  end.

(** The first place of [t] where the literal [w] is read, [None] when it is
    read nowhere. *)
Fixpoint find_ci (w t : string) : option nat :=
  if reads_ci w t then Some O
  else match t with
       | EmptyString => None
       | String _ t' => option_map S (find_ci w t')
       end.

(** [u] is the literal [w] as the flag reads it: [w] is read on [u], and
    nothing of [u] is left. *)
Fixpoint spelt_ci (w u : string) : bool :=
  match w, u with
  | EmptyString, EmptyString => true
  | String c w', String x u' => chr_ci c x && spelt_ci w' u'
  | _, _ => false
  end.

(** The test of the loop of [auto_categorize] on one category: its name is
    a key of [CATEGORY_KEYWORDS] and one of its keywords occurs in the
    lower-cased merchant. *)
Definition has_keyword (merchant : string) (c : models.Category) : bool :=
  match keywords_of (models.name c) CATEGORY_KEYWORDS with
  | Some keywords => any_in keywords (lower merchant)
  | None => false
  end.

(** Sample lines, categories and rows *)
Definition puppis_grouped : Transaction :=
  {| date := {| year := 2025; month := 11; day := 30 |};
     merchant := "PUPPIS";
     coupon_number := EmptyString;
     amount_pesos := of_decimal false 1234 (-3);
     amount_dollars := zero;
     is_dollar := false |}.

Definition default_categories : list models.Category :=
  [{| models.id := 1; models.name := "Comida y Restaurantes" |};
   {| models.id := 2; models.name := "Compras" |};
   {| models.id := 3; models.name := "Transporte" |};
   {| models.id := 4; models.name := "Entretenimiento" |};
   {| models.id := 5; models.name := "Servicios" |};
   {| models.id := 6; models.name := "Salud" |};
   {| models.id := 7; models.name := "Suscripciones" |};
   {| models.id := 8; models.name := "Otros" |}].

Definition puppis_row : models.Transaction :=
  {| models.user_id := 1;
     models.statement_id := 7;
     models.category_id := Some 8%Z;
     models.merchant := "PUPPIS";
     models.amount := of_decimal false 4650000 (-2);
     models.is_dollar := false;
     models.date := At {| year := 2025; month := 11; day := 30 |};
     models.description := None |}.

Definition devolucion_row : models.Transaction :=
  {| models.user_id := 1;
     models.statement_id := 7;
     models.category_id := None;
     models.merchant := "DEVOLUCION";
     models.amount := of_decimal false 15000 (-2);
     models.is_dollar := false;
     models.date := At {| year := 2025; month := 12; day := 5 |};
     models.description := None |}.

(* ===================================================================== *)
(** ** Strings: lemmas *)
(* ===================================================================== *)

Module PyStrFacts.
Import PyStr.

Lemma map_app (f : ascii -> ascii) (a b : string) :
  map f (a ++ b) = map f a ++ map f b.
Proof.
  induction a as [|c a IH]; simpl; [reflexivity | now rewrite IH].
Qed.

Lemma lower_app (a b : string) : lower (a ++ b) = lower a ++ lower b.
Proof. apply map_app. Qed.

Lemma startswith_app (w t : string) : startswith w (w ++ t) = true.
Proof.
  induction w as [|c w IH]; simpl; [reflexivity|].
  now rewrite Ascii.eqb_refl, IH.
Qed.

Lemma contains_here (w t : string) : startswith w t = true -> contains w t = true.
Proof. intros H. destruct t; simpl in *; now rewrite H. Qed.

Lemma contains_app (w pre post : string) : contains w (pre ++ w ++ post) = true.
Proof.
  induction pre as [|c pre IH]; simpl.
  - apply contains_here, startswith_app.
  - rewrite IH. apply orb_true_r.
Qed.

Lemma mem_app (c : ascii) (a b : string) : mem c (a ++ b) = mem c a || mem c b.
Proof.
  induction a as [|x a IH]; simpl; [reflexivity|].
  now rewrite IH, orb_assoc.
Qed.

Lemma length_app (a b : string) : length (a ++ b) = length a + length b.
Proof. induction a as [|c a IH]; simpl; [reflexivity | now rewrite IH]. Qed.

End PyStrFacts.

(* ===================================================================== *)
(** ** Floats: lemmas *)
(* ===================================================================== *)

Module PyFloatFacts.
Import PyFloat.

(** A finite float minus a float equal to it is zero. *)
Lemma fsub_eq_zero (x y : float) :
  is_finite y = true -> feqb x y = true -> nonzero (fsub x y) = false.
Proof.
  unfold feqb, SFeqb, fsub.
  destruct x as [sx|sx| |sx mx ex], y as [sy|sy| |sy my ey]; simpl;
    try discriminate; intros _ H.
  all: try (destruct sx, sy; (reflexivity || discriminate)).
  assert (E : sx = sy /\ ex = ey /\ mx = my).
    { destruct sx, sy; try discriminate;
        destruct (Z.compare_spec ex ey) as [He|He|He]; try discriminate;
        destruct (Pos.compare_cont Eq mx my) eqn:Hm; try discriminate;
        apply Pcompare_Eq_eq in Hm; auto. }
  destruct E as (-> & -> & ->).
  rewrite Z.min_id. unfold shl_align. rewrite Z.sub_diag. simpl.
  reflexivity.
Qed.

End PyFloatFacts.

(* ===================================================================== *)
(** ** Regular expressions: lemmas *)
(* ===================================================================== *)

Module ReFacts.
Import PyStr PyStrFacts Re.

(** A match of a pattern that begins with a literal, case ignored, reads
    that literal where it begins. *)
Lemma run_lit_ci_reads src (w : string) (r : regex) :
  forall t i st x,
    run src (lit_ci w ++ r)%list t i st = Some x -> reads_ci w t = true.
Proof.
  induction w as [|c w IH]; intros t i st x H; [reflexivity|].
  cbn [lit_ci List.app run] in H. destruct t as [|a t]; [discriminate|].
  destruct (chr_ci c a) eqn:E; [|discriminate].
  cbn [reads_ci]. rewrite E. exact (IH _ _ _ _ H).
Qed.

Lemma match_at_lit_ci_none (w : string) (r : regex) (t : string) :
  reads_ci w t = false -> match_at (lit_ci w ++ r)%list t = None.
Proof.
  intros H. unfold match_at.
  destruct (run t (lit_ci w ++ r)%list t 0 init) as [[[t' n] st]|] eqn:E; [|reflexivity].
  apply run_lit_ci_reads in E. congruence.
Qed.

(** The literal read nowhere, no match of the pattern. *)
Lemma re_search_lit_ci_none (w : string) (r : regex) (t : string) :
  find_ci w t = None -> re_search (lit_ci w ++ r)%list t = None.
Proof.
  induction t as [|c t IH]; intros H; cbn [find_ci] in H.
  - destruct (reads_ci w EmptyString) eqn:E; [discriminate H|].
    cbn [re_search]. now rewrite match_at_lit_ci_none.
  - destruct (reads_ci w (String c t)) eqn:E; [discriminate H|].
    destruct (find_ci w t) eqn:F; [discriminate H|].
    cbn [re_search]. rewrite match_at_lit_ci_none by exact E.
    now rewrite IH.
Qed.

Lemma reads_find_ci (w t : string) : reads_ci w t = true -> find_ci w t <> None.
Proof. intros H. destruct t; cbn [find_ci]; rewrite H; discriminate. Qed.

Lemma find_ci_behind (w a t : string) :
  find_ci w t <> None -> find_ci w (a ++ t) <> None.
Proof.
  intros H. induction a as [|c a IH]; [exact H|].
  cbn [append find_ci]. destruct (reads_ci w (String c (a ++ t))); [discriminate|].
  destruct (find_ci w (a ++ t)); [discriminate | contradiction].
Qed.

End ReFacts.

(* ===================================================================== *)
(** ** Greedy repetition: how it steps, what a match of it is *)
(* ===================================================================== *)

Module RepFacts.
Import PyStr PyStrFacts Re.

Section Rep.
Context {A : Type}.
Variable p : ascii -> bool.
Variable k : string -> nat -> option A.

Lemma rep_take lo hi c t i :
  p c = true -> more hi = true ->
  rep p lo hi k (String c t) i
  = match rep p (pred lo) (option_map pred hi) k t (S i) with
    | Some r => Some r
    | None => stop k lo (String c t) i
    end.
Proof. intros H1 H2. simpl. now rewrite H1, H2. Qed.

Lemma rep_stop lo hi c t i :
  p c && more hi = false -> rep p lo hi k (String c t) i = stop k lo (String c t) i.
Proof. intros H. simpl. now rewrite H. Qed.

Lemma rep_bound lo t i : rep p lo (Some 0) k t i = stop k lo t i.
Proof. destruct t; simpl; [reflexivity|]. now rewrite andb_false_r. Qed.

Lemma rep_end lo hi i : rep p lo hi k EmptyString i = stop k lo EmptyString i.
Proof. reflexivity. Qed.

(** A successful repetition has read a run of the class, of a length
    within the bounds, and what follows the repetition has matched after
    that run. *)
Lemma rep_inv :
  forall t lo hi i r,
    rep p lo hi k t i = Some r ->
    exists w t', t = w ++ t' /\ all p w = true /\ lo <= length w
                 /\ within hi (length w) /\ k t' (i + length w) = Some r.
Proof.
  assert (S0 : forall lo hi t i r,
             stop k lo t i = Some r ->
             exists w t', t = w ++ t' /\ all p w = true /\ lo <= length w
                          /\ within hi (length w) /\ k t' (i + length w) = Some r).
  { unfold stop. intros [|lo] hi t i r E; [|discriminate].
    exists EmptyString, t. rewrite Nat.add_0_r. repeat split; auto.
    destruct hi; simpl; [lia | exact I]. }
  induction t as [|c t IH]; intros lo hi i r H.
  - apply S0. exact H.
  - simpl in H.
    destruct (p c && more hi) eqn:E; [|exact (S0 _ _ _ _ _ H)].
    destruct (rep p (pred lo) (option_map pred hi) k t (S i)) as [r'|] eqn:R;
      [|exact (S0 _ _ _ _ _ H)].
    injection H as ->. apply andb_prop in E. destruct E as [Ec Em].
    apply IH in R. destruct R as (w & t' & -> & Hw & Hlo & Hhi & Hk).
    exists (String c w), t'. simpl. rewrite Ec, Hw.
    repeat split; auto; [lia | | now rewrite <- Nat.add_succ_comm].
    destruct hi as [[|h]|]; simpl in *; [discriminate Em | lia | exact I].
Qed.

(** An unbounded repetition reads the whole run of the class; when what
    follows matches after the run, that is the match. *)
Lemma rep_greedy :
  forall w t lo i r,
    all p w = true -> head_in p t = false -> lo <= length w ->
    k t (i + length w) = Some r ->
    rep p lo None k (w ++ t) i = Some r.
Proof.
  induction w as [|c w IH]; intros t lo i r Hw Ht Hlo Hk.
  - simpl in *. rewrite Nat.add_0_r in Hk.
    assert (lo = 0) by lia. subst lo.
    destruct t as [|c t]; simpl; [exact Hk|].
    simpl in Ht. rewrite Ht. exact Hk.
  - simpl in Hw. apply andb_prop in Hw. destruct Hw as [Hc Hw].
    simpl append. rewrite rep_take by (assumption || reflexivity).
    simpl option_map. rewrite (IH t (pred lo) (S i) r); auto.
    + simpl in Hlo. lia.
    + simpl in Hk. now rewrite Nat.add_succ_comm.
Qed.

End Rep.

End RepFacts.

(* ===================================================================== *)
(** ** Proofs by steps of the matcher *)
(* ===================================================================== *)

(** In the proofs that follow the text is known by the classes of its
    characters only: the classes and the repetition are not unfolded, the
    repetition is stepped with its lemmas. *)
#[local] Arguments rep : simpl never.
#[local] Arguments is_digit : simpl never.
#[local] Arguments is_alpha : simpl never.
#[local] Arguments is_space : simpl never.
#[local] Arguments lower : simpl never.
#[local] Arguments int : simpl never.
#[local] Arguments dict_get : simpl never.
#[local] Arguments datetime_new : simpl never.

Import RepFacts.

(** One step of a match on a text whose characters are known by their
    classes only. *)
Ltac rep_step :=
  first [ rewrite rep_take by (assumption || reflexivity)
        | rewrite rep_bound
        | rewrite rep_stop by (reflexivity || apply andb_false_r) ];
  cbn.

(* ===================================================================== *)
(** ** Strings: trimming, replacing, cutting *)
(* ===================================================================== *)

Module CutFacts.
Import PyStr PyStrFacts.

Lemma app_assoc (a b c : string) : (a ++ b) ++ c = a ++ b ++ c.
Proof. induction a as [|x a IH]; simpl; [reflexivity | now rewrite IH]. Qed.

Lemma app_nil_r (a : string) : a ++ EmptyString = a.
Proof. induction a as [|x a IH]; simpl; [reflexivity | now rewrite IH]. Qed.

Lemma all_app (p : ascii -> bool) (a b : string) :
  all p (a ++ b) = all p a && all p b.
Proof.
  induction a as [|x a IH]; simpl; [reflexivity|].
  now rewrite IH, andb_assoc.
Qed.

Lemma all_impl (p q : ascii -> bool) (s : string) :
  (forall c, p c = true -> q c = true) -> all p s = true -> all q s = true.
Proof.
  intros Hpq. induction s as [|x s IH]; simpl; [reflexivity|].
  intros H. apply andb_prop in H. destruct H as [H1 H2].
  now rewrite (Hpq _ H1), (IH H2).
Qed.

Lemma all_mem_false (p : ascii -> bool) (x : ascii) (s : string) :
  all p s = true -> p x = false -> mem x s = false.
Proof.
  intros Hs Hx. induction s as [|c s IH]; simpl; [reflexivity|].
  simpl in Hs. apply andb_prop in Hs. destruct Hs as [Hc Hs].
  rewrite (IH Hs), orb_false_r.
  destruct (Ascii.eqb_spec x c) as [->|]; [congruence | reflexivity].
Qed.

Lemma rstrip_of_none (p : ascii -> bool) (s : string) :
  all (fun c => negb (p c)) s = true -> rstrip_of p s = s.
Proof.
  induction s as [|c s IH]; simpl; [reflexivity|].
  intros H. apply andb_prop in H. destruct H as [Hc Hs].
  apply negb_true_iff in Hc. now rewrite Hc, (IH Hs).
Qed.

(** A text with no character of the class is trimmed to itself. *)
Lemma strip_of_none (p : ascii -> bool) (s : string) :
  all (fun c => negb (p c)) s = true -> strip_of p s = s.
Proof.
  intros H. unfold strip_of.
  assert (E : lstrip_of p s = s).
  { destruct s as [|c s]; simpl; [reflexivity|].
    simpl in H. apply andb_prop in H. destruct H as [Hc _].
    apply negb_true_iff in Hc. now rewrite Hc. }
  rewrite E. now apply rstrip_of_none.
Qed.

Lemma strip_no_space (s : string) :
  all (fun c => negb (is_space c)) s = true -> strip s = s.
Proof. apply strip_of_none. Qed.

(** Trimming keeps the characters that are not of the class. *)
Lemma mem_lstrip_of (p : ascii -> bool) (c : ascii) (s : string) :
  p c = false -> mem c (lstrip_of p s) = mem c s.
Proof.
  intros Hc. induction s as [|x s IH]; simpl; [reflexivity|].
  destruct (p x) eqn:Hx; [|reflexivity].
  rewrite IH. destruct (Ascii.eqb_spec c x) as [->|]; [congruence | reflexivity].
Qed.

Lemma mem_rstrip_of (p : ascii -> bool) (c : ascii) (s : string) :
  p c = false -> mem c (rstrip_of p s) = mem c s.
Proof.
  intros Hc. induction s as [|x s IH]; simpl; [reflexivity|].
  destruct (p x && is_empty (rstrip_of p s)) eqn:E.
  - apply andb_prop in E. destruct E as [Hx He].
    rewrite <- IH. destruct (rstrip_of p s); [|discriminate He]. simpl.
    destruct (Ascii.eqb_spec c x) as [->|]; [congruence | reflexivity].
  - simpl. now rewrite IH.
Qed.

Lemma mem_strip (c : ascii) (s : string) :
  is_space c = false -> mem c (strip s) = mem c s.
Proof.
  intros Hc. unfold strip, strip_of. now rewrite mem_rstrip_of, mem_lstrip_of.
Qed.

Lemma replace_absent (c : ascii) (new s : string) :
  mem c s = false -> replace c new s = s.
Proof.
  induction s as [|x s IH]; simpl; [reflexivity|].
  intros H. apply orb_false_elim in H. destruct H as [H1 H2].
  rewrite Ascii.eqb_sym, H1. now rewrite (IH H2).
Qed.

(** Deleting a character brings no other character in. *)
Lemma mem_delete (c x : ascii) (s : string) :
  mem c s = false -> mem c (replace x EmptyString s) = false.
Proof.
  induction s as [|y s IH]; simpl; [reflexivity|].
  intros H. apply orb_false_elim in H. destruct H as [H1 H2].
  destruct (Ascii.eqb y x); simpl; [exact (IH H2)|].
  now rewrite H1, (IH H2).
Qed.

(** A replaced character leaves its replacement; the others stay. *)
Lemma mem_replace_hit (c x : ascii) (new s : string) :
  mem x s = true -> mem c new = true -> mem c (replace x new s) = true.
Proof.
  intros Hx Hc. induction s as [|y s IH]; simpl in *; [discriminate|].
  rewrite (Ascii.eqb_sym y x).
  destruct (Ascii.eqb x y); simpl in Hx.
  - rewrite mem_app, Hc. reflexivity.
  - simpl. rewrite (IH Hx). apply orb_true_r.
Qed.

Lemma mem_replace_keep (c x : ascii) (new s : string) :
  mem c s = true -> Ascii.eqb c x = false -> mem c (replace x new s) = true.
Proof.
  intros Hc Hx. induction s as [|y s IH]; simpl in *; [discriminate|].
  destruct (Ascii.eqb_spec y x) as [->|].
  - rewrite Hx in Hc. simpl in Hc. rewrite mem_app, (IH Hc). apply orb_true_r.
  - simpl. destruct (Ascii.eqb c y); [reflexivity|]. exact (IH Hc).
Qed.

Lemma take_app_length (a b : string) : take (length a) (a ++ b) = a.
Proof. induction a as [|x a IH]; simpl; [reflexivity | now rewrite IH]. Qed.

Lemma drop_app_length (a b : string) : drop (length a) (a ++ b) = b.
Proof. induction a as [|x a IH]; simpl; [reflexivity | exact IH]. Qed.

Lemma take_drop (n : nat) (s : string) : take n s ++ drop n s = s.
Proof.
  revert s. induction n as [|n IH]; intros s; [reflexivity|].
  destruct s as [|x s]; simpl; [reflexivity | now rewrite IH].
Qed.

Lemma length_take (n : nat) (s : string) : length (take n s) = Nat.min n (length s).
Proof.
  revert s. induction n as [|n IH]; intros s; [reflexivity|].
  destruct s as [|x s]; simpl; [reflexivity | now rewrite IH].
Qed.

Lemma mem_take (c : ascii) (n : nat) (s : string) :
  mem c (take n s) = true -> mem c s = true.
Proof.
  intros H. rewrite <- (take_drop n s), mem_app, H. reflexivity.
Qed.

Lemma mem_drop (c : ascii) (n : nat) (s : string) :
  mem c (drop n s) = true -> mem c s = true.
Proof.
  intros H. rewrite <- (take_drop n s), mem_app, H. apply orb_true_r.
Qed.

Lemma mem_slice (c : ascii) (i j : nat) (s : string) :
  mem c (slice i j s) = true -> mem c s = true.
Proof. unfold slice. intros H. eapply mem_drop, mem_take, H. Qed.

Lemma startswith_mem (c : ascii) (w t : string) :
  startswith w t = true -> mem c w = true -> mem c t = true.
Proof.
  revert t. induction w as [|x w IH]; intros t Hs Hc; [discriminate Hc|].
  destruct t as [|y t]; [discriminate Hs|].
  simpl in *. apply andb_prop in Hs. destruct Hs as [Hxy Hs].
  apply Ascii.eqb_eq in Hxy. subst y.
  destruct (Ascii.eqb c x); [reflexivity|]. exact (IH _ Hs Hc).
Qed.

End CutFacts.

(* ===================================================================== *)
(** ** [float] on digits and a period *)
(* ===================================================================== *)

Module FloatOfStrFacts.
Import PyStr PyStrFacts CutFacts PyFloat.

Lemma digit_not_space (c : ascii) : is_digit c = true -> is_space c = false.
Proof.
  unfold is_digit, is_space, between. intros H.
  apply andb_prop in H. destruct H as [H1 H2]. apply Nat.leb_le in H1, H2.
  rewrite (proj2 (Nat.leb_gt (code c) 13)) by lia.
  rewrite (proj2 (Nat.leb_gt (code c) 32)) by lia.
  rewrite (proj2 (Nat.eqb_neq (code c) 133)) by lia.
  rewrite (proj2 (Nat.eqb_neq (code c) 160)) by lia.
  now rewrite !andb_false_r.
Qed.

Lemma plain_not_space (c : ascii) : plain c = true -> negb (is_space c) = true.
Proof.
  unfold plain. intros H. apply orb_prop in H. destruct H as [H|H].
  - now rewrite digit_not_space.
  - apply Ascii.eqb_eq in H. subst c. reflexivity.
Qed.

Lemma digit_not_float_space (c : ascii) : is_digit c = true -> is_float_space c = false.
Proof.
  unfold is_digit, is_float_space, between. intros H.
  apply andb_prop in H. destruct H as [H1 H2]. apply Nat.leb_le in H1, H2.
  rewrite (proj2 (Nat.leb_gt (code c) 13)) by lia.
  rewrite (proj2 (Nat.eqb_neq (code c) 32)) by lia.
  rewrite (proj2 (Nat.eqb_neq (code c) 133)) by lia.
  rewrite (proj2 (Nat.eqb_neq (code c) 160)) by lia.
  now rewrite !andb_false_r.
Qed.

Lemma plain_not_float_space (c : ascii) :
  plain c = true -> negb (is_float_space c) = true.
Proof.
  unfold plain. intros H. apply orb_prop in H. destruct H as [H|H].
  - now rewrite digit_not_float_space.
  - apply Ascii.eqb_eq in H. subst c. reflexivity.
Qed.

(** A digit is none of the characters that are not digits. *)
Lemma digit_neq (c x : ascii) :
  is_digit c = true -> is_digit x = false -> Ascii.eqb c x = false.
Proof.
  intros Hc Hx. destruct (Ascii.eqb_spec c x) as [->|]; [congruence | reflexivity].
Qed.

Lemma span_app (p : ascii -> bool) (a t : string) :
  all p a = true ->
  match t with EmptyString => true | String c _ => negb (p c) end = true ->
  span p (a ++ t) = (a, t).
Proof.
  intros Ha Ht. induction a as [|x a IH]; simpl.
  - destruct t as [|c t]; [reflexivity|]. simpl.
    apply negb_true_iff in Ht. now rewrite Ht.
  - simpl in Ha. apply andb_prop in Ha. destruct Ha as [Hx Ha].
    now rewrite Hx, (IH Ha).
Qed.

Lemma span_all (p : ascii -> bool) (a : string) :
  all p a = true -> span p a = (a, EmptyString).
Proof.
  intros Ha. rewrite <- (app_nil_r a) at 1. now apply span_app.
Qed.

Lemma underscores_none (t : string) :
  forall prev,
    Ascii.eqb prev "_" = false -> mem "_" t = false ->
    underscores prev t = Some t.
Proof.
  induction t as [|c t IH]; intros prev Hp Ht; cbn [underscores].
  - now rewrite Hp.
  - cbn [mem] in Ht. apply orb_false_elim in Ht. destruct Ht as [Hc Ht].
    rewrite Ascii.eqb_sym in Hc. rewrite Hc, Hp. cbn [andb].
    now rewrite (IH c Hc Ht).
Qed.

(** [float] reads digits, a period and digits as the decimal number whose
    integer part is the first digits and whose fraction is the second. *)
Lemma float_of_str_decimal (a b : string) :
  all is_digit a = true -> a <> EmptyString ->
  all is_digit b = true ->
  float_of_str (a ++ "." ++ b)
  = Some (of_decimal false (int (a ++ b)) (- Z.of_nat (length b))).
Proof.
  intros Ha Na Hb.
  assert (Hplain : all plain (a ++ "." ++ b) = true).
  { rewrite !all_app, (all_impl is_digit plain a), (all_impl is_digit plain b); auto;
      intros c Hc; unfold plain; now rewrite Hc. }
  unfold float_of_str.
  rewrite underscores_none;
    [ | reflexivity | apply (all_mem_false plain); [exact Hplain | reflexivity] ].
  rewrite strip_of_none
    by (apply (all_impl plain); [apply plain_not_float_space | exact Hplain]).
  destruct a as [|a0 a]; [congruence|].
  simpl in Ha. apply andb_prop in Ha. destruct Ha as [Ha0 Ha].
  change (String a0 a ++ "." ++ b) with (String a0 (a ++ String "." b)).
  cbn [sign].
  rewrite (digit_neq a0 "-"), (digit_neq a0 "+") by (assumption || reflexivity).
  unfold number.
  change (String a0 (a ++ String "." b)) with (String a0 a ++ String "." b).
  rewrite span_app; [ | simpl; now rewrite Ha0, Ha | reflexivity ].
  rewrite Ascii.eqb_refl, span_all by exact Hb.
  reflexivity.
Qed.

End FloatOfStrFacts.

(* ===================================================================== *)
(** ** The pattern of an amount: what it matches *)
(* ===================================================================== *)

Module NumberFacts.
Import PyStr PyStrFacts CutFacts Re RepFacts PyFloat FloatOfStrFacts.

Lemma length_nonempty (a : string) : a <> EmptyString -> 1 <= length a.
Proof. destruct a; [congruence | simpl; lia]. Qed.

Lemma nonempty_length (a : string) : 1 <= length a -> a <> EmptyString.
Proof. destruct a; simpl; [lia | discriminate]. Qed.

Lemma sep_not_digit (c : ascii) : sep_chr c = true -> is_digit c = false.
Proof.
  unfold sep_chr. intros H. apply orb_prop in H.
  destruct H as [H|H]; apply Ascii.eqb_eq in H; subst c; reflexivity.
Qed.

Lemma span_spec (p : ascii -> bool) (t : string) :
  exists u v, t = u ++ v /\ all p u = true /\ head_in p v = false.
Proof.
  induction t as [|c t (u & v & -> & Hu & Hv)].
  - exists EmptyString, EmptyString. auto.
  - destruct (p c) eqn:Hc.
    + exists (String c u), v. simpl. rewrite Hc, Hu. auto.
    + exists EmptyString, (String c (u ++ v)). simpl. auto.
Qed.

(** What the pattern matches has the shape of an amount. *)
Lemma number_re_sound (t : string) (m : mobj) :
  match_at number_re t = Some m ->
  number_shaped (whole m) /\ t = whole m ++ after m.
Proof.
  unfold match_at, number_re, opt, plus.
  destruct (run t _ t 0 init) as [[[t' n] st]|] eqn:R; [|discriminate].
  intros E. injection E as <-. cbn [whole after].
  cbn [run] in R.
  apply rep_inv in R. destruct R as (sgn & t1 & -> & Hsgn & _ & Bsgn & R).
  apply rep_inv in R. destruct R as (a & t2 & -> & Ha & La & _ & R).
  destruct t2 as [|c t3]; [discriminate R|].
  destruct (sep_chr c) eqn:Hc; [|discriminate R].
  apply rep_inv in R. destruct R as (b & t4 & -> & Hb & Lb & _ & R).
  injection R as <- <- _.
  assert (W : forall n, n = length (sgn ++ a ++ String c b) ->
              take n (sgn ++ a ++ String c (b ++ t4)) = sgn ++ a ++ String c b).
  { intros n ->.
    replace (sgn ++ a ++ String c (b ++ t4)) with ((sgn ++ a ++ String c b) ++ t4)
      by (rewrite !app_assoc; reflexivity).
    apply take_app_length. }
  rewrite W by (rewrite !length_app; simpl; lia). split.
  - exists sgn, a, c, b. repeat split; auto using nonempty_length.
    simpl in Bsgn. destruct sgn as [|x [|? ?]]; simpl in *; [now left | | lia].
    right. rewrite andb_true_r in Hsgn. apply Ascii.eqb_eq in Hsgn. now subst x.
  - rewrite !app_assoc. reflexivity.
Qed.

(** Where a text begins with the shape of an amount, the pattern matches. *)
Lemma number_re_complete (w y : string) :
  number_shaped w -> match_at number_re (w ++ y) <> None.
Proof.
  intros (sgn & a & c & b & -> & Hsgn & Ha & Na & Hc & Hb & Nb).
  destruct (span_spec is_digit y) as (u & v & -> & Hu & Hv).
  unfold match_at, number_re, opt, plus.
  set (src := (sgn ++ a ++ String c b) ++ u ++ v).
  assert (T : src = sgn ++ a ++ String c ((b ++ u) ++ v))
    by (unfold src; rewrite !app_assoc; reflexivity).
  rewrite T at 2. clearbody src.
  assert (K : forall i, exists r,
    run src [Rep d 1 None; Chr sep_chr; Rep d 1 None]
        (a ++ String c ((b ++ u) ++ v)) i init = Some r).
  { intros i. cbn [run]. eexists.
    apply rep_greedy;
      [ exact Ha | simpl; now apply sep_not_digit | now apply length_nonempty | ].
    cbn [run]. rewrite Hc.
    apply rep_greedy;
      [ rewrite all_app; unfold d; now rewrite Hb, Hu | exact Hv
      | rewrite length_app; apply length_nonempty in Nb; lia | reflexivity ]. }
  cbn [run].
  destruct Hsgn as [-> | ->].
  - destruct a as [|a0 a]; [congruence|].
    simpl in Ha. apply andb_prop in Ha. destruct Ha as [Ha0 Ha].
    cbn [append]. rewrite rep_stop.
    + unfold stop. destruct (K 0) as (r & E).
      cbn [append run] in E. rewrite E. now destruct r as [[? ?] ?].
    + unfold chr. now rewrite (digit_neq a0 "-") by (assumption || reflexivity).
  - cbn [append]. rewrite rep_take by reflexivity. cbn [pred option_map].
    rewrite rep_bound. unfold stop.
    destruct (K 1) as (r & E). cbn [run] in E. rewrite E.
    now destruct r as [[? ?] ?].
Qed.

Lemma number_shaped_nonempty (w : string) : number_shaped w -> w <> EmptyString.
Proof.
  intros (sgn & a & c & b & -> & _ & _ & Na & _). intros E.
  destruct sgn; [|discriminate E]. destruct a; [congruence | discriminate E].
Qed.

Lemma number_shaped_sep (w : string) :
  number_shaped w -> mem "." w || mem "," w = true.
Proof.
  intros (sgn & a & c & b & -> & _ & _ & _ & Hc & _).
  rewrite !mem_app. cbn [mem].
  unfold sep_chr in Hc. apply orb_prop in Hc.
  destruct Hc as [Hc|Hc]; apply Ascii.eqb_eq in Hc; subst c;
    rewrite Ascii.eqb_refl, ?orb_true_r; reflexivity.
Qed.

End NumberFacts.

(* ===================================================================== *)
(** ** [re.findall]: the last match *)
(* ===================================================================== *)

Module FindallFacts.
Import PyStr PyStrFacts CutFacts Re.

Section Findall.
Variable r : regex.

(** The pattern matches a prefix of the text, never the empty one. *)
Hypothesis sound :
  forall t m, match_at r t = Some m -> whole m <> EmptyString /\ t = whole m ++ after m.

(** A scan that finds nothing passed no place where the pattern matches. *)
Lemma findall_nil :
  forall t skip x y,
    findall_from r t skip = [] -> t = x ++ y -> skip <= length x ->
    match_at r y = None.
Proof.
  induction t as [|c t IH]; intros skip x y H E L.
  - destruct x; [|discriminate E]. simpl in E, L. subst y.
    assert (skip = 0) by lia. subst skip. simpl in H.
    destruct (match_at r EmptyString); [discriminate H | reflexivity].
  - destruct skip as [|n]; simpl in H.
    + destruct (match_at r (String c t)) eqn:M; [discriminate H|].
      destruct x as [|c' x]; simpl in E.
      * now subst y.
      * injection E as _ E. apply (IH 0 x y H E). lia.
    + destruct x as [|c' x]; simpl in E, L; [lia|].
      injection E as _ E. apply (IH n x y H E). lia.
Qed.

(** The last match of a scan: it is a match where it stands, and no place
    after it matches. *)
Lemma findall_last :
  forall t skip l a,
    findall_from r t skip = (l ++ [a])%list ->
    exists pre post,
      t = pre ++ a ++ post
      /\ (exists m, match_at r (a ++ post) = Some m /\ whole m = a)
      /\ (forall x y, post = x ++ y -> match_at r y = None).
Proof.
  induction t as [|c t IH]; intros skip l a H.
  - destruct skip as [|n]; simpl in H.
    + destruct (match_at r EmptyString) as [m|] eqn:M.
      * apply sound in M. destruct M as [M1 M2].
        destruct (whole m); [congruence | discriminate M2].
      * destruct l; discriminate H.
    + destruct l; discriminate H.
  - assert (Step : forall n l',
              findall_from r t n = (l' ++ [a])%list ->
              exists pre post,
                String c t = pre ++ a ++ post
                /\ (exists m, match_at r (a ++ post) = Some m /\ whole m = a)
                /\ (forall x y, post = x ++ y -> match_at r y = None)).
    { intros n l' H'. destruct (IH n l' a H') as (pre & post & -> & Hm & Hs).
      exists (String c pre), post. auto. }
    destruct skip as [|n]; simpl in H; [|exact (Step _ _ H)].
    destruct (match_at r (String c t)) as [m|] eqn:M; [|exact (Step _ _ H)].
    destruct l as [|h l]; simpl in H; injection H as Hw H; [|exact (Step _ _ H)].
    subst a. destruct (sound _ _ M) as [M1 M2].
    exists EmptyString, (after m). simpl. rewrite <- M2. repeat split; eauto.
    intros x y E.
    destruct (whole m) as [|c' w] eqn:W; [congruence|].
    simpl in M2. injection M2 as _ M2. simpl in H.
    apply (findall_nil t (length w) (w ++ x) y H).
    + rewrite M2, E, app_assoc. reflexivity.
    + rewrite length_app. lia.
Qed.

End Findall.

End FindallFacts.

(* ===================================================================== *)
(** ** Groups, searches and literals *)
(* ===================================================================== *)

Module CouponFacts.
Import PyStr PyStrFacts CutFacts Re RepFacts.

Lemma run_slices (src : string) (r : regex) :
  forall t i st t' i' st',
    slices_of src st -> run src r t i st = Some (t', i', st') -> slices_of src st'.
Proof.
  induction r as [|[p|p lo hi|g|g|] r IH]; intros t i st t' i' st' Hst H; cbn [run] in H.
  - injection H as _ _ <-. exact Hst.
  - destruct t as [|c t]; [discriminate H|].
    destruct (p c); [|discriminate H]. exact (IH _ _ _ _ _ _ Hst H).
  - apply rep_inv in H. destruct H as (w & t1 & _ & _ & _ & _ & H).
    exact (IH _ _ _ _ _ _ Hst H).
  - apply IH in H; [exact H|]. exact Hst.
  - destruct (assoc g (marks st)) as [i0|]; [|discriminate H].
    apply IH in H; [exact H|].
    intros g' v. cbn [groups assoc].
    destruct (g =? g')%nat; [|apply Hst].
    intros E. injection E as <-. eauto.
  - destruct t as [|c [|? ?]]; try discriminate H.
    + exact (IH _ _ _ _ _ _ Hst H).
    + destruct (Ascii.eqb c "010"); [|discriminate H]. exact (IH _ _ _ _ _ _ Hst H).
Qed.

Lemma slices_of_init (src : string) : slices_of src init.
Proof. intros g v E. discriminate E. Qed.

(** A character of a group of a match is a character of the text. *)
Lemma mem_group (c : ascii) (r : regex) (t : string) (m : mobj) (g : nat) :
  match_at r t = Some m -> mem c (group g (caps m)) = true -> mem c t = true.
Proof.
  unfold match_at. destruct (run t r t 0 init) as [[[t' n] st]|] eqn:R; [|discriminate].
  intros E. injection E as <-. cbn [caps]. unfold group.
  destruct (assoc g (groups st)) as [v|] eqn:G; [|discriminate].
  destruct (run_slices _ _ _ _ _ _ _ _ (slices_of_init t) R g v G) as (i & j & ->).
  apply mem_slice.
Qed.

Lemma re_search_inv (r : regex) :
  forall t pre m,
    re_search r t = Some (pre, m) ->
    exists y, t = pre ++ y /\ match_at r y = Some m.
Proof.
  induction t as [|c t IH]; intros pre m H; simpl in H.
  - destruct (match_at r EmptyString) eqn:M; [|discriminate H].
    injection H as <- <-. exists EmptyString. auto.
  - destruct (match_at r (String c t)) eqn:M.
    + injection H as <- <-. exists (String c t). auto.
    + destruct (re_search r t) as [[pre' m']|]; [|discriminate H].
      injection H as <- <-. destruct (IH _ _ eq_refl) as (y & -> & My).
      exists y. auto.
Qed.

(** A match of a pattern that ends with a literal has read that literal. *)
Lemma run_lit_startswith (src w : string) :
  forall t i st x, run src (lit w) t i st = Some x -> startswith w t = true.
Proof.
  induction w as [|c w IH]; intros t i st x H; [reflexivity|].
  cbn [lit run] in H. destruct t as [|a t]; [discriminate H|].
  destruct (chr c a) eqn:E; [|discriminate H].
  unfold chr in E. simpl. rewrite Ascii.eqb_sym, E. exact (IH _ _ _ _ H).
Qed.

End CouponFacts.

Import PyStrFacts PyFloatFacts ReFacts CutFacts FloatOfStrFacts.
Import NumberFacts FindallFacts CouponFacts.

(* ===================================================================== *)
(** ** The amount parser *)
(* ===================================================================== *)

(** The doubles the literals 1234.56, 123.45, 1.234 and 0.41 stand for. *)
Lemma literal_doubles :
  of_decimal false 123456 (-2) = S754_finite false 5429652300748554 (-42)
  /\ within_half_ulp (of_decimal false 123456 (-2)) 123456 100 = true
  /\ of_decimal false 12345 (-2) = S754_finite false 8687021468732621 (-46)
  /\ within_half_ulp (of_decimal false 12345 (-2)) 12345 100 = true
  /\ of_decimal false 1234 (-3) = S754_finite false 5557441940175192 (-52)
  /\ within_half_ulp (of_decimal false 1234 (-3)) 1234 1000 = true
  /\ of_decimal false 41 (-2) = S754_finite false 7385903388887613 (-54)
  /\ within_half_ulp (of_decimal false 41 (-2)) 41 100 = true
  /\ of_Z (-500) = S754_finite true 8796093022208000 (-44)
  /\ within_half_ulp (of_Z (-500)) (-500) 1 = true.
Proof. splits; vm_compute; reflexivity. Qed.

(** What [parse_amount] does once the text is not blank: the sign is read
    off the first character, the text without parentheses and hyphens goes
    to [float], and a [ValueError] is turned into 0.0. *)
Lemma parse_amount_unfold (text : string) :
  is_empty (strip text) = false ->
  parse_amount text
  = match float_of_str (decimal_text (unsigned_text (strip text))) with
    | Some value =>
        if startswith "-" (strip text) || startswith "(" (strip text)
        then fneg value else value
    | None => zero
    end.
Proof.
  intros H. unfold parse_amount. rewrite H.
  destruct text; [discriminate H | reflexivity].
Qed.



(* ===================================================================== *)
(** ** The period in an amount *)
(* ===================================================================== *)

Lemma unsigned_text_no_comma (text : string) :
  mem "," text = false -> mem "," (unsigned_text text) = false.
Proof.
  intros H. unfold unsigned_text.
  rewrite mem_strip by reflexivity.
  now apply mem_delete, mem_delete, mem_delete.
Qed.

Lemma decimal_text_no_comma (text : string) :
  mem "," text = false -> decimal_text text = text.
Proof. intros H. unfold decimal_text. now rewrite H. Qed.

(** Without a comma the text goes to [float] as it is, periods included. *)
Lemma parse_amount_no_comma (text : string) :
  mem "." text = true -> mem "," text = false ->
  parse_amount text
  = match float_of_str (unsigned_text (strip text)) with
    | Some value =>
        if startswith "-" (strip text) || startswith "(" (strip text)
        then fneg value else value
    | None => zero
    end.
Proof.
  intros Hp Hc.
  assert (Hs : is_empty (strip text) = false).
  { rewrite <- (mem_strip "." text) in Hp by reflexivity.
    destruct (strip text); [discriminate Hp | reflexivity]. }
  rewrite (parse_amount_unfold text Hs).
  rewrite decimal_text_no_comma; [reflexivity|].
  apply unsigned_text_no_comma. now rewrite mem_strip by reflexivity.
Qed.

Lemma parse_amount_decimal (a b : string) :
  all is_digit a = true -> a <> EmptyString -> all is_digit b = true ->
  parse_amount (a ++ "." ++ b)
  = of_decimal false (int (a ++ b)) (- Z.of_nat (length b)).
Proof.
  intros Ha Na Hb.
  assert (Hplain : all plain (a ++ "." ++ b) = true).
  { rewrite !all_app, (all_impl is_digit plain a), (all_impl is_digit plain b); auto;
      intros c Hc; unfold plain; now rewrite Hc. }
  assert (Hstrip : strip (a ++ "." ++ b) = a ++ "." ++ b)
    by (apply strip_no_space, (all_impl plain); [apply plain_not_space | exact Hplain]).
  rewrite parse_amount_no_comma.
  - rewrite Hstrip. unfold unsigned_text.
    rewrite (replace_absent "(")
      by (apply (all_mem_false plain); [exact Hplain | reflexivity]).
    rewrite (replace_absent ")")
      by (apply (all_mem_false plain); [exact Hplain | reflexivity]).
    rewrite (replace_absent "-")
      by (apply (all_mem_false plain); [exact Hplain | reflexivity]).
    rewrite Hstrip, float_of_str_decimal by assumption.
    destruct a as [|a0 a]; [congruence|].
    simpl in Ha. apply andb_prop in Ha. destruct Ha as [Ha0 _].
    cbn [append startswith].
    rewrite (Ascii.eqb_sym "-" a0), (Ascii.eqb_sym "(" a0).
    now rewrite (digit_neq a0 "-"), (digit_neq a0 "(") by (assumption || reflexivity).
  - rewrite !mem_app. cbn [mem]. rewrite Ascii.eqb_refl. apply orb_true_r.
  - apply (all_mem_false plain); [exact Hplain | reflexivity].
Qed.

(** C9. A text with a period and no comma reaches [float] with its periods
    in place, so the period is the decimal separator: digits, a period and
    digits are read as the decimal number with that integer part and that
    fraction; "1.234" is 1.234 and not 1234.0. *)
Theorem period_is_decimal_separator :
  (forall text,
     mem "." text = true -> mem "," text = false ->
     parse_amount text
     = match float_of_str (unsigned_text (strip text)) with
       | Some value =>
           if startswith "-" (strip text) || startswith "(" (strip text)
           then fneg value else value
       | None => zero
       end)
  /\ (forall a b,
        all is_digit a = true -> a <> EmptyString -> all is_digit b = true ->
        parse_amount (a ++ "." ++ b)
        = of_decimal false (int (a ++ b)) (- Z.of_nat (length b)))
  /\ parse_amount "1.234" = of_decimal false 1234 (-3)
  /\ within_half_ulp (parse_amount "1.234") 1234 1000 = true
  /\ parse_amount "1.234" <> of_Z 1234.
Proof.
  split; [exact parse_amount_no_comma|].
  split; [exact parse_amount_decimal|].
  split; [vm_compute; reflexivity|].
  split; [vm_compute; reflexivity|].
  vm_compute. discriminate.
Qed.

Lemma period_is_decimal_separator_witness :
  parse_amount ("1" ++ "." ++ "234") = of_decimal false (int ("1" ++ "234")) (- Z.of_nat (length "234"))
  /\ parse_amount "-1.5" = fneg (of_decimal false 15 (-1)).
Proof.
  destruct period_is_decimal_separator as (H1 & H2 & _).
  split.
  - apply H2; [reflexivity | discriminate | reflexivity].
  - rewrite H1 by reflexivity. vm_compute. reflexivity.
Defined.

(* ===================================================================== *)
(** ** The date parser *)
(* ===================================================================== *)

Lemma digit_val_range (c : ascii) :
  is_digit c = true -> (0 <= digit_val c <= 9)%Z.
Proof.
  unfold is_digit, between, digit_val. intros H.
  apply andb_prop in H. destruct H as [H1 H2].
  apply Nat.leb_le in H1, H2. lia.
Qed.

Lemma dict_get_unknown (key : string) (default : Z) (dict : list (string * Z)) :
  existsb (fun kv => String.eqb (fst kv) key) dict = false ->
  dict_get key dict default = default.
Proof.
  induction dict as [|[k0 v] dict IH]; [reflexivity|].
  cbn [existsb fst]. intros H. apply orb_false_elim in H. destruct H as [H1 H2].
  change (dict_get key ((k0, v) :: dict) default)
    with (if String.eqb k0 key then v else dict_get key dict default).
  rewrite H1. exact (IH H2).
Qed.

(** C3, as stated, fails: the month that is not in the table is read as
    January, and the date is returned. *)
Lemma unknown_month_is_not_absent :
  known_month "Xyz" = false
  /\ parse_date "26-Xyz-25" = Some {| year := 2025; month := 1; day := 26 |}.
Proof. split; vm_compute; reflexivity. Qed.

(** C3, amended. On a text that, trimmed, begins with one or two digits, a
    hyphen, three letters that are none of the twelve abbreviations, a
    hyphen and two digits, [parse_date] raises nothing and takes the month
    for January: it returns the date of year 2000 + YY, month 1 and day DD
    when DD is between 1 and 31, and [None] otherwise. *)
Theorem parse_date_unknown_month (text dd mon yy rest : string) :
  strip text = dd ++ "-" ++ mon ++ "-" ++ yy ++ rest ->
  all is_digit dd = true -> length dd = 1 \/ length dd = 2 ->
  all is_alpha mon = true -> length mon = 3 ->
  all is_digit yy = true -> length yy = 2 ->
  known_month mon = false ->
  parse_date text
  = if ((1 <=? int dd) && (int dd <=? 31))%Z
    then Some {| year := int yy + 2000; month := 1; day := int dd |}
    else None.
Proof.
  intros Htext Hdd Ldd Hmon Lmon Hyy Lyy Hknown.
  destruct mon as [|m1 [|m2 [|m3 [|? ?]]]]; try discriminate Lmon.
  destruct yy as [|y1 [|y2 [|? ?]]]; try discriminate Lyy.
  simpl in Hmon, Hyy.
  apply andb_prop in Hmon; destruct Hmon as [Hm1 Hmon].
  apply andb_prop in Hmon; destruct Hmon as [Hm2 Hmon].
  apply andb_prop in Hmon; destruct Hmon as [Hm3 _].
  apply andb_prop in Hyy; destruct Hyy as [Hy1 Hyy].
  apply andb_prop in Hyy; destruct Hyy as [Hy2 _].
  assert (Hmonth : dict_get (lower (String m1 (String m2 (String m3 EmptyString)))) months 1 = 1%Z)
    by (apply dict_get_unknown; exact Hknown).
  pose proof (digit_val_range y1 Hy1) as Ry1.
  pose proof (digit_val_range y2 Hy2) as Ry2.
  assert (Hyear : forall dv : Z,
    datetime_new (int (String y1 (String y2 EmptyString)) + 2000) 1 dv
    = if ((1 <=? dv) && (dv <=? 31))%Z
      then Some {| year := int (String y1 (String y2 EmptyString)) + 2000; month := 1; day := dv |}
      else None).
  { intros dv. unfold datetime_new, int. cbn [int_acc].
    replace (1 <=? 10 * (10 * 0 + digit_val y1) + digit_val y2 + 2000)%Z with true
      by (symmetry; apply Z.leb_le; lia).
    replace (10 * (10 * 0 + digit_val y1) + digit_val y2 + 2000 <=? 9999)%Z with true
      by (symmetry; apply Z.leb_le; lia).
    reflexivity. }
  unfold parse_date. rewrite Htext.
  unfold re_match, match_at, date_re, times. clear Htext.
  destruct dd as [|d1 [|d2 [|? ?]]]; simpl in Ldd;
    try (exfalso; destruct Ldd; discriminate).
  - simpl in Hdd. apply andb_prop in Hdd. destruct Hdd as [Hd1 _].
    cbn. repeat rep_step.
    cbn [group caps groups assoc Nat.eqb].
    rewrite Hmonth. apply Hyear.
  - simpl in Hdd. apply andb_prop in Hdd. destruct Hdd as [Hd1 Hdd].
    apply andb_prop in Hdd. destruct Hdd as [Hd2 _].
    cbn. repeat rep_step.
    cbn [group caps groups assoc Nat.eqb].
    rewrite Hmonth. apply Hyear.
Qed.

Lemma parse_date_unknown_month_witness :
  parse_date "26-Xyz-25" = Some {| year := 2025; month := 1; day := 26 |}.
Proof.
  apply (parse_date_unknown_month "26-Xyz-25" "26" "Xyz" "25" EmptyString);
    first [reflexivity | left; reflexivity | right; reflexivity].
Defined.

(* ===================================================================== *)
(** ** The header extractors *)
(* ===================================================================== *)

(** C8. On a first page where the label "SALDO ACTUAL" does not occur,
    [extract_saldo_actual] returns 0.0 for both balances; the function is
    total, nothing is raised.  The label does not occur when the pattern
    reads it at no place of the page, in the relation of [re.IGNORECASE]
    between the characters of a pattern and those of a text. *)
Theorem extract_saldo_actual_missing_label (text : string) :
  find_ci "SALDO ACTUAL" text = None ->
  extract_saldo_actual text = (zero, zero).
Proof.
  intros H. unfold extract_saldo_actual, saldo_actual_re.
  rewrite re_search_lit_ci_none; [reflexivity | exact H].
Qed.

Lemma extract_saldo_actual_missing_label_witness :
  find_ci "SALDO ACTUAL" "RESUMEN DE CUENTA U$S 12,00" = None
  /\ extract_saldo_actual "RESUMEN DE CUENTA U$S 12,00" = (zero, zero).
Proof.
  split; [reflexivity|].
  apply (extract_saldo_actual_missing_label "RESUMEN DE CUENTA U$S 12,00").
  reflexivity.
Defined.

(* ===================================================================== *)
(** ** The transaction line parser: what a parsed line is made of *)
(* ===================================================================== *)

Lemma parse_transaction_line_inv (line : string) (t : Transaction) :
  parse_transaction_line line = Some t ->
  exists date_text rest amount_str,
    is_subtotal_row line = false
    /\ line_parts line = Some (date_text, rest)
    /\ parse_date date_text = Some (date t)
    /\ last_number rest = Some amount_str
    /\ is_dollar t = contains "USA," (upper rest)
    /\ amount t = parse_amount amount_str
    /\ coupon_number t = find_coupon rest amount_str
    /\ merchant t = find_merchant rest amount_str (coupon_number t)
    /\ (if is_dollar t then amount_pesos t else amount_dollars t) = zero.
Proof.
  unfold parse_transaction_line, amount.
  destruct (is_subtotal_row line) eqn:Hsub; [discriminate|].
  destruct (line_parts line) as [[date_text rest]|] eqn:Hparts; [|discriminate].
  destruct (parse_date date_text) as [dt|] eqn:Hdate; [|discriminate].
  destruct (last_number rest) as [amount_str|] eqn:Hnum; [|discriminate].
  intros H. exists date_text, rest, amount_str.
  destruct (contains "USA," (upper rest)); injection H as <-; simpl;
    repeat split; try reflexivity; assumption.
Qed.

Lemma last_number_findall (rest amount_str : string) :
  last_number rest = Some amount_str ->
  exists earlier, re_findall number_re rest = (earlier ++ [amount_str])%list.
Proof.
  unfold last_number. intros H.
  destruct (rev (re_findall number_re rest)) as [|a l] eqn:E; [discriminate|].
  injection H as ->. exists (rev l).
  rewrite <- (rev_involutive (re_findall number_re rest)), E. reflexivity.
Qed.

(* ===================================================================== *)
(** ** The noise filter *)
(* ===================================================================== *)

(** C7. A line that contains "SALDO ACTUAL", in any mix of upper and lower
    case, is never parsed into a transaction, whatever stands before and
    after the phrase. *)
Theorem saldo_actual_line_is_noise (before phrase behind : string) :
  lower phrase = "saldo actual" ->
  parse_transaction_line (before ++ phrase ++ behind) = None.
Proof.
  intros H. unfold parse_transaction_line.
  assert (E : is_subtotal_row (before ++ phrase ++ behind) = true).
  { unfold is_subtotal_row, skip_patterns.
    rewrite !lower_app, H. cbn [existsb].
    rewrite (contains_app "saldo actual"), !orb_true_r. reflexivity. }
  now rewrite E.
Qed.

Lemma saldo_actual_line_is_noise_witness :
  lower "Saldo Actual" = "saldo actual"
  /\ parse_transaction_line ("26-Nov-25 " ++ "Saldo Actual" ++ " 00779 1500,00") = None.
Proof.
  split; [reflexivity|].
  apply (saldo_actual_line_is_noise "26-Nov-25 " "Saldo Actual" " 00779 1500,00").
  reflexivity.
Defined.

(* ===================================================================== *)
(** ** The currency split *)
(* ===================================================================== *)

(** C10. In every transaction that [parse_transaction_line] returns, the
    field of the other currency is exactly 0.0: [amount_pesos] when the
    line is a dollar line, [amount_dollars] when it is not. *)
Theorem other_currency_is_zero (line : string) (t : Transaction) :
  parse_transaction_line line = Some t ->
  (is_dollar t = true -> amount_pesos t = zero)
  /\ (is_dollar t = false -> amount_dollars t = zero).
Proof.
  intros H. apply parse_transaction_line_inv in H.
  destruct H as (_ & _ & _ & _ & _ & _ & _ & _ & _ & _ & _ & H).
  destruct (is_dollar t); split; intros E; (exact H || discriminate E).
Qed.

Lemma other_currency_is_zero_witness :
  parse_transaction_line "30-Nov-25 PUPPIS 02842 46500,00" = Some puppis
  /\ (is_dollar puppis = true -> amount_pesos puppis = zero)
  /\ (is_dollar puppis = false -> amount_dollars puppis = zero).
Proof.
  split; [vm_compute; reflexivity|].
  apply (other_currency_is_zero "30-Nov-25 PUPPIS 02842 46500,00" puppis).
  vm_compute; reflexivity.
Defined.

(** C2, as stated, fails on a line whose amount is zero: both fields are
    zero; and on a dollar line of amount zero [is_dollar] is true while
    [amount_dollars] is zero. *)
Lemma currency_split_fails_on_zero_amount :
  (exists t, parse_transaction_line "01-Ene-25 AJUSTE 0,00" = Some t
             /\ ~ currency_split t)
  /\ (exists t, parse_transaction_line "01-Ene-25 AJUSTE (USA,ARS, 10,00) 0,00" = Some t
                /\ ~ (is_dollar t = true <-> nonzero (amount_dollars t) = true)).
Proof.
  split.
  - eexists. split; [vm_compute; reflexivity|].
    intros [H _]. vm_compute in H. discriminate H.
  - eexists. split; [vm_compute; reflexivity|].
    intros [H _]. vm_compute in H. specialize (H eq_refl). discriminate H.
Qed.

(** C2, amended. At most one of the two amounts is not zero; a dollar
    amount that is not zero comes with [is_dollar] true, a peso amount that
    is not zero with [is_dollar] false; and when the amount read on the line
    is not zero, exactly one field is not zero and [is_dollar] tells that it
    is the dollar one. *)
Theorem currency_split_amended (line : string) (t : Transaction) :
  parse_transaction_line line = Some t ->
  (nonzero (amount_pesos t) = false \/ nonzero (amount_dollars t) = false)
  /\ (nonzero (amount_dollars t) = true -> is_dollar t = true)
  /\ (nonzero (amount_pesos t) = true -> is_dollar t = false)
  /\ (nonzero (amount t) = true -> currency_split t).
Proof.
  intros H. apply parse_transaction_line_inv in H.
  destruct H as (_ & _ & _ & _ & _ & _ & _ & _ & _ & _ & _ & H).
  unfold currency_split, amount.
  destruct (is_dollar t); rewrite H; simpl.
  all: repeat split; auto; try discriminate.
  match goal with E : nonzero _ = true |- _ => now rewrite E end.
Qed.

Lemma currency_split_amended_witness :
  parse_transaction_line "30-Nov-25 PUPPIS 02842 46500,00" = Some puppis
  /\ currency_split puppis.
Proof.
  split; [vm_compute; reflexivity|].
  apply (currency_split_amended "30-Nov-25 PUPPIS 02842 46500,00" puppis);
    vm_compute; reflexivity.
Defined.

(* ===================================================================== *)
(** ** The amount of a line *)
(* ===================================================================== *)

Lemma number_re_matches_nonempty (t : string) (m : mobj) :
  match_at number_re t = Some m -> whole m <> EmptyString /\ t = whole m ++ after m.
Proof.
  intros M. apply number_re_sound in M. destruct M as [M1 M2].
  split; [now apply number_shaped_nonempty | exact M2].
Qed.

(** The amount text of a line is the last match of the scan: it has the
    shape of an amount, and nothing after it has. *)
Lemma last_number_spec (rest amount_str : string) :
  last_number rest = Some amount_str ->
  exists before behind,
    rest = before ++ amount_str ++ behind
    /\ number_shaped amount_str
    /\ (forall x w y, behind = x ++ w ++ y -> ~ number_shaped w).
Proof.
  intros H. apply last_number_findall in H. destruct H as [earlier H].
  apply (findall_last number_re number_re_matches_nonempty) in H.
  destruct H as (pre & post & -> & (m & M & W) & Hs).
  exists pre, post. split; [reflexivity|]. split.
  - apply number_re_sound in M. rewrite W in M. exact (proj1 M).
  - intros x w y E Hw. apply (number_re_complete w y Hw). exact (Hs x _ E).
Qed.

(** C6. The amount of a parsed line is read from the last match of the
    amount pattern in the text after the date: the last element of
    [re.findall], a text of the shape of an amount after which nothing of
    that shape stands.  On the remainder
    "GOOGLE *YouTube (USA,ARS, 600,00) 00761 0,41" it is 0.41, not 600.00. *)
Theorem amount_is_the_last_number :
  (forall line t,
     parse_transaction_line line = Some t ->
     exists date_text rest before amount_str behind,
       line_parts line = Some (date_text, rest)
       /\ rest = before ++ amount_str ++ behind
       /\ number_shaped amount_str
       /\ (exists earlier, re_findall number_re rest = (earlier ++ [amount_str])%list)
       /\ (forall x w y, behind = x ++ w ++ y -> ~ number_shaped w)
       /\ amount t = parse_amount amount_str)
  /\ line_parts youtube_line
     = Some ("26-Nov-25", "GOOGLE *YouTube (USA,ARS, 600,00) 00761 0,41")
  /\ re_findall number_re "GOOGLE *YouTube (USA,ARS, 600,00) 00761 0,41"
     = ["600,00"; "0,41"]
  /\ exists t, parse_transaction_line youtube_line = Some t
               /\ amount t = of_decimal false 41 (-2)
               /\ within_half_ulp (amount t) 41 100 = true
               /\ amount t <> of_Z 600.
Proof.
  split.
  - intros line t H. apply parse_transaction_line_inv in H.
    destruct H as (date_text & rest & amount_str & _ & Hp & _ & Hn & _ & Ha & _).
    destruct (last_number_spec _ _ Hn) as (before & behind & E & Hshape & Hlast).
    exists date_text, rest, before, amount_str, behind.
    repeat split; auto using last_number_findall.
  - split; [vm_compute; reflexivity|].
    split; [vm_compute; reflexivity|].
    eexists. split; [vm_compute; reflexivity|].
    split; [vm_compute; reflexivity|].
    split; [vm_compute; reflexivity|].
    vm_compute. discriminate.
Qed.

Lemma amount_is_the_last_number_witness :
  exists date_text rest before amount_str behind,
    line_parts youtube_line = Some (date_text, rest)
    /\ rest = before ++ amount_str ++ behind
    /\ number_shaped amount_str
    /\ (exists earlier, re_findall number_re rest = (earlier ++ [amount_str])%list)
    /\ (forall x w y, behind = x ++ w ++ y -> ~ number_shaped w)
    /\ of_decimal false 41 (-2) = parse_amount amount_str.
Proof.
  destruct amount_is_the_last_number as [H _].
  apply (H youtube_line
           {| date := {| year := 2025; month := 11; day := 26 |};
              merchant := "GOOGLE *YouTube (USA,ARS, 600,00)";
              coupon_number := EmptyString;
              amount_pesos := zero;
              amount_dollars := of_decimal false 41 (-2);
              is_dollar := true |}).
  vm_compute. reflexivity.
Defined.

(* ===================================================================== *)
(** ** The coupon number *)
(* ===================================================================== *)

(** The pattern of the coupon asks for a backslash before the separator of
    the amount: it matches in no text without a backslash. *)
Lemma find_coupon_needs_backslash (rest amount_str : string) :
  mem "." amount_str || mem "," amount_str = true ->
  mem "\" rest = false ->
  find_coupon rest amount_str = EmptyString.
Proof.
  intros Hsep Hrest. unfold find_coupon.
  destruct (re_search (coupon_re amount_str) rest) as [[pre m]|] eqn:S; [|reflexivity].
  exfalso. apply re_search_inv in S. destruct S as (y & -> & M).
  rewrite mem_app in Hrest. apply orb_false_elim in Hrest. destruct Hrest as [_ Hy].
  unfold match_at in M.
  destruct (run y (coupon_re amount_str) y 0 init) as [[[t' n] st]|] eqn:R;
    [clear M | discriminate M].
  set (src := y) in R at 1. clearbody src.
  unfold coupon_re, escape, times, plus in R. cbn [app run] in R.
  destruct y as [|c0 y]; [discriminate R|].
  destruct (s c0); [|discriminate R].
  apply rep_inv in R. destruct R as (w1 & t1 & -> & _ & _ & _ & R).
  cbn [run assoc marks Nat.eqb] in R.
  apply rep_inv in R. destruct R as (w2 & t2 & -> & _ & _ & _ & R).
  apply run_lit_startswith in R.
  assert (B : mem "\" t2 = true).
  { apply (startswith_mem _ _ _ R).
    apply orb_prop in Hsep. destruct Hsep as [H|H].
    - apply mem_replace_keep; [|reflexivity].
      apply mem_replace_hit; [exact H | reflexivity].
    - apply mem_replace_hit; [|reflexivity].
      apply mem_replace_keep; [exact H | reflexivity]. }
  cbn [mem] in Hy. rewrite !mem_app, B, !orb_true_r in Hy. discriminate Hy.
Qed.

(** The text after the date of a line without a backslash has none. *)
Lemma line_parts_no_backslash (line date_text rest : string) :
  mem "\" line = false -> line_parts line = Some (date_text, rest) ->
  mem "\" rest = false.
Proof.
  intros Hline. unfold line_parts, re_match.
  destruct (match_at line_re (strip line)) as [m|] eqn:M; [|discriminate].
  intros E. injection E as _ <-.
  rewrite mem_strip by reflexivity.
  destruct (mem "\" (group 2 (caps m))) eqn:G; [|reflexivity].
  apply (mem_group _ _ _ _ _ M) in G.
  rewrite mem_strip in G by reflexivity. congruence.
Qed.

(** C1, on the code. The line of the docstring,
    "30-Nov-25 PUPPIS 02842 46500,00", has the five digits 02842 before its
    amount, and yet its coupon number comes out empty; so does the coupon
    number of every line that has no backslash: the pattern is built from
    the amount escaped twice, by hand and by [re.escape], and looks for a
    backslash before the comma. *)
Theorem coupon_number_is_lost :
  parse_transaction_line "30-Nov-25 PUPPIS 02842 46500,00" = Some puppis
  /\ coupon_number puppis = EmptyString
  /\ forall line t,
       mem "\" line = false ->
       parse_transaction_line line = Some t ->
       coupon_number t = EmptyString.
Proof.
  split; [vm_compute; reflexivity|].
  split; [reflexivity|].
  intros line t Hline H. apply parse_transaction_line_inv in H.
  destruct H as (date_text & rest & amount_str & _ & Hp & _ & Hn & _ & _ & Hc & _).
  rewrite Hc. apply find_coupon_needs_backslash.
  - destruct (last_number_spec _ _ Hn) as (_ & _ & _ & Hshape & _).
    now apply number_shaped_sep.
  - exact (line_parts_no_backslash _ _ _ Hline Hp).
Qed.

Lemma coupon_number_is_lost_witness :
  coupon_number
    {| date := {| year := 2025; month := 12; day := 13 |};
       merchant := "NETFLIX.COM (USA,ARS, 25398,00)";
       coupon_number := EmptyString;
       amount_pesos := zero;
       amount_dollars := of_decimal false 1763 (-2);
       is_dollar := true |} = EmptyString
  /\ mem "\" "13-Dic-25 NETFLIX.COM (USA,ARS, 25398,00) 00779 17,63" = false.
Proof.
  destruct coupon_number_is_lost as (_ & _ & H).
  split; [|reflexivity].
  apply (H "13-Dic-25 NETFLIX.COM (USA,ARS, 25398,00) 00779 17,63");
    vm_compute; reflexivity.
Defined.

(** The merchant is cut where the text of the amount occurs last, which
    can be after the place where the pattern matched it: in "AB 5,5,5" the
    pattern matches the first "5,5" only, and "5,5" occurs again two
    characters on. *)
Lemma merchant_cut_at_last_occurrence :
  re_findall number_re "AB 5,5,5" = ["5,5"]
  /\ rfind "5,5" "AB 5,5,5" = 5%Z
  /\ exists t, parse_transaction_line "01-Ene-25 AB 5,5,5" = Some t
               /\ merchant t = "AB 5,".
Proof.
  split; [vm_compute; reflexivity|].
  split; [vm_compute; reflexivity|].
  eexists. split; vm_compute; reflexivity.
Qed.

(* ===================================================================== *)
(** ** The reconciliation of the statement *)
(* ===================================================================== *)

(** C4, as stated, fails in its second part: 1500,30 is 500,20 + 1000,10,
    in decimals and in doubles alike, and yet the residual
    1500.30 - 500.20 - 1000.10 is -2^-43 and not 0.0.  The statement has one
    transaction, whose total every version of [sum] computes alike. *)
Lemma residual_not_zero_on_reconciled_statement :
  ~ (forall pages,
       reconciles (parse_mastercard_pdf sum_left pages) ->
       nonzero (impuestos_pesos (parse_mastercard_pdf sum_left pages)) = false
       /\ nonzero (impuestos_dolares (parse_mastercard_pdf sum_left pages)) = false).
Proof.
  intros H. specialize (H statement_1500_30).
  assert (R : reconciles (parse_mastercard_pdf sum_left statement_1500_30))
    by (split; vm_compute; reflexivity).
  destruct (H R) as [H1 _]. vm_compute in H1. discriminate H1.
Qed.

(** The same residual under any [sum] that returns 0 + x on the list of
    the one number x, as every version of the builtin does. *)
Lemma residual_not_zero_for_any_sum (sum : list float -> float) :
  (forall x, sum [x] = fadd zero x) ->
  parse_mastercard_pdf sum statement_1500_30
  = parse_mastercard_pdf sum_left statement_1500_30.
Proof.
  intros H. unfold parse_mastercard_pdf.
  assert (E : exists t, scan_lines (full_text statement_1500_30) = [t])
    by (eexists; vm_compute; reflexivity).
  destruct E as [t E]. rewrite E. cbn [List.map]. rewrite !H. reflexivity.
Qed.

(** C4, amended. The residuals are computed as
    (saldo_actual - total) - saldo_pendiente, in doubles and from the left,
    the totals being the sums of the amounts of the collected transactions;
    a residual is exactly zero when the rounded difference
    saldo_actual - total is the declared prior balance, a finite number. *)
Theorem impuestos_are_the_residuals
    (sum : list float -> float) (pages : list (option string)) :
  let r := parse_mastercard_pdf sum pages in
  impuestos_pesos r
  = fsub (fsub (saldo_actual_pesos r) (sum (List.map amount_pesos (transactions r))))
         (saldo_pendiente_pesos r)
  /\ impuestos_dolares r
     = fsub (fsub (saldo_actual_dolares r) (sum (List.map amount_dollars (transactions r))))
            (saldo_pendiente_dolares r)
  /\ total_transactions_pesos r = sum (List.map amount_pesos (transactions r))
  /\ total_transactions_dolares r = sum (List.map amount_dollars (transactions r))
  /\ (is_finite (saldo_pendiente_pesos r) = true ->
      feqb (fsub (saldo_actual_pesos r) (total_transactions_pesos r))
           (saldo_pendiente_pesos r) = true ->
      nonzero (impuestos_pesos r) = false)
  /\ (is_finite (saldo_pendiente_dolares r) = true ->
      feqb (fsub (saldo_actual_dolares r) (total_transactions_dolares r))
           (saldo_pendiente_dolares r) = true ->
      nonzero (impuestos_dolares r) = false).
Proof.
  intros r. subst r. unfold parse_mastercard_pdf.
  destruct (match pages with
            | page :: _ => Some (page_text page)
            | [] => None
            end) as [first|].
  - destruct (extract_saldo_actual first) as [sp sd].
    destruct (extract_saldo_pendiente first) as [pp pd].
    destruct (extract_statement_date first) as [[sdate m] y].
    cbn [impuestos_pesos impuestos_dolares saldo_actual_pesos saldo_actual_dolares
         transactions total_transactions_pesos total_transactions_dolares
         saldo_pendiente_pesos saldo_pendiente_dolares].
    repeat split; auto using fsub_eq_zero.
  - cbn [impuestos_pesos impuestos_dolares saldo_actual_pesos saldo_actual_dolares
         transactions total_transactions_pesos total_transactions_dolares
         saldo_pendiente_pesos saldo_pendiente_dolares].
    repeat split; auto using fsub_eq_zero.
Qed.

Lemma impuestos_are_the_residuals_witness :
  nonzero (impuestos_pesos (parse_mastercard_pdf sum_left statement_netflix)) = false
  /\ nonzero (impuestos_dolares (parse_mastercard_pdf sum_left statement_netflix)) = false.
Proof.
  split.
  - apply (impuestos_are_the_residuals sum_left statement_netflix);
      vm_compute; reflexivity.
  - apply (impuestos_are_the_residuals sum_left statement_netflix);
      vm_compute; reflexivity.
Defined.

(* ===================================================================== *)
(** ** Occurrences of a text in another *)
(* ===================================================================== *)

Module OccurFacts.
Import PyStr PyStrFacts CutFacts.

Lemma startswith_inv (w t : string) :
  startswith w t = true -> exists y, t = w ++ y.
Proof.
  revert t. induction w as [|c w IH]; intros t H.
  - exists t. reflexivity.
  - destruct t as [|x t]; [discriminate H|].
    simpl in H. apply andb_prop in H. destruct H as [Hc H].
    apply Ascii.eqb_eq in Hc. subst x.
    destruct (IH _ H) as [y ->]. exists y. reflexivity.
Qed.

(** [w in t] is: [t] is some text, [w], some text. *)
Lemma contains_inv (w t : string) :
  contains w t = true -> exists x y, t = x ++ w ++ y.
Proof.
  induction t as [|c t IH]; simpl; intros H.
  - rewrite orb_false_r in H. apply startswith_inv in H.
    destruct H as [y ->]. exists EmptyString, y. reflexivity.
  - apply orb_prop in H. destruct H as [H|H].
    + apply startswith_inv in H. destruct H as [y ->].
      exists EmptyString, y. reflexivity.
    + destruct (IH H) as (x & y & ->). exists (String c x), y. reflexivity.
Qed.

Lemma contains_iff (w t : string) :
  contains w t = true <-> exists x y, t = x ++ w ++ y.
Proof.
  split; [apply contains_inv|]. intros (x & y & ->). apply contains_app.
Qed.

(** What occurs in a text occurs in every text around it. *)
Lemma contains_around (w a t b : string) :
  contains w t = true -> contains w (a ++ t ++ b) = true.
Proof.
  intros H. apply contains_inv in H. destruct H as (x & y & ->).
  replace (a ++ (x ++ w ++ y) ++ b) with ((a ++ x) ++ w ++ (y ++ b))
    by (rewrite !app_assoc; reflexivity).
  apply contains_app.
Qed.

Lemma map_app_inv (f : ascii -> ascii) (t x y : string) :
  map f t = x ++ y -> exists t1 t2, t = t1 ++ t2 /\ map f t1 = x /\ map f t2 = y.
Proof.
  revert t. induction x as [|c x IH]; intros t H.
  - exists EmptyString, t. auto.
  - destruct t as [|a t]; [discriminate H|].
    simpl in H. injection H as Hc H.
    destruct (IH _ H) as (t1 & t2 & -> & H1 & H2).
    exists (String a t1), t2. simpl. rewrite Hc, H1. auto.
Qed.

(** An occurrence in the lower-cased text is an occurrence, in some case,
    in the text. *)
Lemma contains_lower_inv (w t : string) :
  contains w (lower t) = true ->
  exists before phrase behind, t = before ++ phrase ++ behind /\ lower phrase = w.
Proof.
  intros H. apply contains_inv in H. destruct H as (x & y & H).
  apply map_app_inv in H. destruct H as (t1 & t2 & -> & _ & H).
  apply map_app_inv in H. destruct H as (t3 & t4 & -> & H & _).
  exists t1, t3, t4. auto.
Qed.

Lemma any_in_around (keywords : list string) (a t b : string) :
  any_in keywords t = true -> any_in keywords (a ++ t ++ b) = true.
Proof.
  unfold any_in. rewrite !existsb_exists. intros (kw & Hin & H).
  exists kw. split; [exact Hin | now apply contains_around].
Qed.

End OccurFacts.

Import OccurFacts.

(* ===================================================================== *)
(** ** The category of a merchant *)
(* ===================================================================== *)

Lemma first_category_label (text : string) (items : list (string * list string)) :
  In (first_category text items) (List.map fst items ++ ["Otros"]).
Proof.
  induction items as [|[category keywords] items IH]; simpl; [now left|].
  destruct (any_in keywords text); [now left | now right].
Qed.

Lemma first_category_otros (text : string) (items : list (string * list string)) :
  ~ In "Otros" (List.map fst items) ->
  (first_category text items = "Otros"
   <-> forall category keywords, In (category, keywords) items ->
                                 any_in keywords text = false).
Proof.
  induction items as [|[category keywords] items IH]; simpl; intros Hno.
  - split; [intros _ ? ? [] | reflexivity].
  - destruct (any_in keywords text) eqn:E.
    + split.
      * intros ->. exfalso. apply Hno. now left.
      * intros H. rewrite (H category keywords) in E by now left. discriminate E.
    + rewrite IH by tauto. split.
      * intros H c k [Heq|Hin]; [now injection Heq as <- <- | eauto].
      * intros H c k Hin. apply (H c k). now right.
Qed.

(** The text around a merchant can bring it to an entry that comes before
    in the loop, never to "Otros". *)
Lemma first_category_around (a t b : string) (items : list (string * list string)) :
  ~ In "Otros" (List.map fst items) ->
  first_category t items <> "Otros" ->
  first_category (a ++ t ++ b) items <> "Otros".
Proof.
  intros Hno H E. apply H. rewrite first_category_otros in * by exact Hno.
  intros category keywords Hin.
  destruct (any_in keywords t) eqn:K; [|reflexivity].
  apply (any_in_around _ a t b) in K. rewrite (E _ _ Hin) in K. discriminate K.
Qed.

Lemma otros_is_no_entry : ~ In "Otros" (List.map fst categories).
Proof.
  intros H. vm_compute in H.
  repeat (destruct H as [H|H]; [discriminate H|]). exact H.
Qed.

(** X1. [get_category_for_merchant] returns one of the ten labels of its
    dictionary or "Otros"; it returns "Otros" exactly when no keyword of any
    category occurs in the lower-cased merchant; and text put before and
    after a merchant that has a category never makes it fall to "Otros". *)
Theorem category_of_merchant (merchant : string) :
  In (get_category_for_merchant merchant) (List.map fst categories ++ ["Otros"])
  /\ (get_category_for_merchant merchant = "Otros"
      <-> forall category keywords, In (category, keywords) categories ->
                                    any_in keywords (lower merchant) = false)
  /\ forall before behind,
       get_category_for_merchant merchant <> "Otros" ->
       get_category_for_merchant (before ++ merchant ++ behind) <> "Otros".
Proof.
  unfold get_category_for_merchant. split; [apply first_category_label|].
  split; [apply first_category_otros, otros_is_no_entry|].
  intros before behind H. rewrite !lower_app.
  now apply first_category_around; [apply otros_is_no_entry|].
Qed.

Lemma category_of_merchant_witness :
  get_category_for_merchant ("DLO*" ++ "Rappi" ++ " 4421") <> "Otros".
Proof.
  destruct (category_of_merchant "Rappi") as (_ & _ & H).
  apply H. vm_compute. discriminate.
Defined.

(* ===================================================================== *)
(** ** The noise filter, phrase by phrase *)
(* ===================================================================== *)

(** X2. A line is a subtotal row exactly when it contains, in any mix of
    upper and lower case, one of the seven phrases of [skip_patterns]; and
    such a line is never parsed into a transaction, whatever else it
    holds: a payment line ("su pago"), a transfer ("transfer financ"), a
    total. *)
Theorem subtotal_rows (line : string) :
  (is_subtotal_row line = true
   <-> exists pattern before phrase behind,
         In pattern skip_patterns
         /\ line = before ++ phrase ++ behind /\ lower phrase = pattern)
  /\ (is_subtotal_row line = true -> parse_transaction_line line = None).
Proof.
  split.
  - unfold is_subtotal_row. rewrite existsb_exists. split.
    + intros (pattern & Hin & H). apply contains_lower_inv in H.
      destruct H as (before & phrase & behind & -> & H).
      exists pattern, before, phrase, behind. auto.
    + intros (pattern & before & phrase & behind & Hin & -> & H).
      exists pattern. split; [exact Hin|].
      rewrite !lower_app, H. apply contains_app.
  - intros H. unfold parse_transaction_line. now rewrite H.
Qed.

Lemma subtotal_rows_witness :
  parse_transaction_line ("05-Dic-25 " ++ "SU PAGO" ++ " EN PESOS 150000,00") = None.
Proof.
  destruct (subtotal_rows ("05-Dic-25 " ++ "SU PAGO" ++ " EN PESOS 150000,00"))
    as [[_ H1] H2].
  apply H2, H1.
  exists "su pago", "05-Dic-25 ", "SU PAGO", " EN PESOS 150000,00".
  split; [|split; reflexivity].
  unfold skip_patterns. simpl. tauto.
Defined.

(* ===================================================================== *)
(** ** Where a match stands in its text *)
(* ===================================================================== *)

Module MatchFacts.
Import PyStr PyStrFacts CutFacts Re RepFacts.

Lemma drop_add (i n : nat) (t : string) : drop (i + n) t = drop n (drop i t).
Proof.
  revert t. induction i as [|i IH]; intros t; [reflexivity|].
  destruct t as [|c t]; simpl; [now destruct n | apply IH].
Qed.

Lemma drop_next (src : string) (i : nat) (w t : string) :
  drop i src = w ++ t -> drop (i + length w) src = t.
Proof. intros D. rewrite drop_add, D. apply drop_app_length. Qed.

Lemma slice_at (src : string) (i : nat) (w t : string) :
  drop i src = w ++ t -> slice i (i + length w) src = w.
Proof.
  intros D. unfold slice. rewrite D.
  replace (i + length w - i) with (length w) by lia. apply take_app_length.
Qed.

Lemma drop_S (src : string) (i : nat) (c : ascii) (t : string) :
  drop i src = String c t -> drop (S i) src = t.
Proof.
  revert src. induction i as [|i IH]; intros src D.
  - simpl in D. subst src. reflexivity.
  - destruct src as [|c0 src]; [discriminate|]. simpl in D. simpl.
    apply IH in D. exact D.
Qed.

(** [rep_inv], with the place of the repetition in the source. *)
Lemma rep_inv_at {A : Type} (src : string) (p : ascii -> bool)
    (k : string -> nat -> option A) :
  forall t lo hi i r,
    rep p lo hi k t i = Some r -> drop i src = t ->
    exists w t', t = w ++ t' /\ all p w = true /\ lo <= length w
                 /\ within hi (length w) /\ k t' (i + length w) = Some r
                 /\ drop (i + length w) src = t'
                 /\ slice i (i + length w) src = w.
Proof.
  intros t lo hi i r H D. apply rep_inv in H.
  destruct H as (w & t' & -> & Hw & Hlo & Hhi & Hk).
  exists w, t'. split; [reflexivity|]. do 4 (split; [assumption|]).
  split; [eapply drop_next | eapply slice_at]; eassumption.
Qed.

Lemma chr_inv (x c : ascii) : chr x c = true -> c = x.
Proof. unfold chr. intros H. apply Ascii.eqb_eq in H. now subst. Qed.

Lemma run_lit_ci_inv (src w : string) (r : regex) :
  forall t i st x,
    run src (lit_ci w ++ r)%list t i st = Some x ->
    exists u t' j, t = u ++ t' /\ spelt_ci w u = true /\ run src r t' j st = Some x.
Proof.
  induction w as [|c w IH]; intros t i st x H.
  - exists EmptyString, t, i. auto.
  - cbn [lit_ci List.app run] in H.
    destruct t as [|a t]; [discriminate H|].
    destruct (chr_ci c a) eqn:E; [|discriminate H].
    apply IH in H. destruct H as (u & t' & j & -> & Hu & H).
    exists (String a u), t', j. splits; [reflexivity | | exact H].
    cbn [spelt_ci]. now rewrite E, Hu.
Qed.

(** A match of a label made of two words reads the second word behind the
    first. *)
Lemma two_words_second (a b : string) (r : regex) (y : string) (m : mobj) :
  match_at (lit_ci a ++ [star s] ++ lit_ci b ++ r)%list y = Some m ->
  find_ci b y <> None.
Proof.
  unfold match_at.
  destruct (run y _ y 0 init) as [[[t' n] st]|] eqn:R; [|discriminate].
  intros _. apply run_lit_ci_inv in R.
  destruct R as (u & t1 & j & -> & _ & R).
  cbn [List.app run star] in R. apply rep_inv in R.
  destruct R as (w & t2 & -> & _ & _ & _ & R).
  apply run_lit_ci_reads in R.
  apply find_ci_behind, find_ci_behind, reads_find_ci. exact R.
Qed.

Lemma re_search_two_words_none (a b : string) (r : regex) (t : string) :
  find_ci a t = None \/ find_ci b t = None ->
  re_search (lit_ci a ++ [star s] ++ lit_ci b ++ r)%list t = None.
Proof.
  intros [H|H]; [now apply re_search_lit_ci_none|].
  destruct (re_search _ t) as [[pre m]|] eqn:E; [|reflexivity].
  apply re_search_inv in E. destruct E as (y & -> & M).
  apply two_words_second in M.
  exfalso. exact (find_ci_behind b pre y M H).
Qed.

End MatchFacts.

Import MatchFacts.

(* ===================================================================== *)
(** ** The date parser, in general *)
(* ===================================================================== *)

Module DateFacts.

(** A match of the date pattern: the three fields and what follows. *)
Lemma date_re_run (src : string) (t : string) (i : nat) r :
  run src date_re t i init = Some r -> drop i src = t ->
  exists dd mon yy rest,
    t = dd ++ "-" ++ mon ++ "-" ++ yy ++ rest
    /\ all is_digit dd = true /\ (length dd = 1 \/ length dd = 2)
    /\ all is_alpha mon = true /\ length mon = 3
    /\ all is_digit yy = true /\ length yy = 2
    /\ group 1 (snd r) = dd /\ group 2 (snd r) = mon /\ group 3 (snd r) = yy.
Proof.
  unfold date_re, times. intros R D.
  cbn [run assoc marks groups init Nat.eqb] in R.
  apply (rep_inv_at src) in R; [|exact D].
  destruct R as (dd & t1 & -> & Hdd & Ldd1 & Ldd2 & R & D1 & G1).
  destruct t1 as [|c1 t1]; [discriminate|].
  destruct (chr "-" c1) eqn:C1; [|discriminate]. apply chr_inv in C1. subst c1.
  pose proof (drop_S _ _ _ _ D1) as D1'.
  apply (rep_inv_at src) in R; [|exact D1'].
  destruct R as (mon & t2 & -> & Hmon & Lmon1 & Lmon2 & R & D2 & G2).
  destruct t2 as [|c2 t2]; [discriminate|].
  destruct (chr "-" c2) eqn:C2; [|discriminate]. apply chr_inv in C2. subst c2.
  pose proof (drop_S _ _ _ _ D2) as D2'.
  apply (rep_inv_at src) in R; [|exact D2'].
  destruct R as (yy & t3 & -> & Hyy & Lyy1 & Lyy2 & R & D3 & G3).
  injection R as <-. cbn [snd].
  exists dd, mon, yy, t3.
  unfold group. cbn [assoc groups Nat.eqb].
  cbn [Nat.add] in G1, G2, G3. rewrite G1, G2, G3. cbn [within] in *.
  splits; try reflexivity; try assumption; try lia.
Qed.

(** The other way round: a text of that shape is matched, and the groups
    are its three fields. *)
Lemma date_re_match (dd mon yy rest : string) :
  all is_digit dd = true -> length dd = 1 \/ length dd = 2 ->
  all is_alpha mon = true -> length mon = 3 ->
  all is_digit yy = true -> length yy = 2 ->
  exists m,
    re_match date_re (dd ++ "-" ++ mon ++ "-" ++ yy ++ rest) = Some m
    /\ group 1 (caps m) = dd /\ group 2 (caps m) = mon /\ group 3 (caps m) = yy.
Proof.
  intros Hdd Ldd Hmon Lmon Hyy Lyy.
  destruct mon as [|m1 [|m2 [|m3 [|? ?]]]]; try discriminate Lmon.
  destruct yy as [|y1 [|y2 [|? ?]]]; try discriminate Lyy.
  simpl in Hmon, Hyy.
  apply andb_prop in Hmon; destruct Hmon as [Hm1 Hmon].
  apply andb_prop in Hmon; destruct Hmon as [Hm2 Hmon].
  apply andb_prop in Hmon; destruct Hmon as [Hm3 _].
  apply andb_prop in Hyy; destruct Hyy as [Hy1 Hyy].
  apply andb_prop in Hyy; destruct Hyy as [Hy2 _].
  unfold re_match, match_at, date_re, times.
  destruct dd as [|d1 [|d2 [|? ?]]]; simpl in Ldd;
    try (exfalso; destruct Ldd; discriminate).
  - simpl in Hdd. apply andb_prop in Hdd. destruct Hdd as [Hd1 _].
    cbn. repeat rep_step. eexists. split; [reflexivity|].
    cbn [group caps groups assoc Nat.eqb]. splits; reflexivity.
  - simpl in Hdd. apply andb_prop in Hdd. destruct Hdd as [Hd1 Hdd].
    apply andb_prop in Hdd. destruct Hdd as [Hd2 _].
    cbn. repeat rep_step. eexists. split; [reflexivity|].
    cbn [group caps groups assoc Nat.eqb]. splits; reflexivity.
Qed.

Lemma datetime_new_inv (y m d : Z) (dt : datetime) :
  datetime_new y m d = Some dt ->
  year dt = y /\ month dt = m /\ day dt = d
  /\ (1 <= y <= 9999)%Z /\ (1 <= m <= 12)%Z /\ (1 <= d <= days_in_month y m)%Z.
Proof.
  unfold datetime_new. intros H.
  destruct (_ && _)%bool eqn:E in H; [|discriminate].
  injection H as <-. cbn [year month day].
  repeat (apply andb_prop in E; destruct E as [E ?]).
  repeat match goal with H : (_ <=? _)%Z = true |- _ => apply Z.leb_le in H end.
  lia.
Qed.

Lemma int_two_digits (w : string) :
  all is_digit w = true -> length w = 2 -> (0 <= int w <= 99)%Z.
Proof.
  intros H L. destruct w as [|a [|b [|? ?]]]; try discriminate L.
  simpl in H. apply andb_prop in H. destruct H as [Ha H].
  apply andb_prop in H. destruct H as [Hb _].
  apply digit_val_range in Ha, Hb. unfold int. cbn [int_acc]. lia.
Qed.

Lemma dict_get_between (lo hi : Z) (key : string) (default : Z)
    (dict : list (string * Z)) :
  Forall (fun kv => (lo <= snd kv <= hi)%Z) dict -> (lo <= default <= hi)%Z ->
  (lo <= dict_get key dict default <= hi)%Z.
Proof.
  intros F Hd. induction F as [|[k0 v] dict Hv F IH]; [exact Hd|].
  change (dict_get key ((k0, v) :: dict) default)
    with (if String.eqb k0 key then v else dict_get key dict default).
  destruct (String.eqb k0 key); [exact Hv | exact IH].
Qed.

Lemma month_between (key : string) : (1 <= dict_get key months 1 <= 12)%Z.
Proof.
  apply dict_get_between; [|lia].
  unfold months. repeat constructor; cbn [snd]; lia.
Qed.

Lemma dict_get_in (key : string) (v default : Z) (dict : list (string * Z)) :
  NoDup (List.map fst dict) -> In (key, v) dict -> dict_get key dict default = v.
Proof.
  induction dict as [|[k0 v0] dict IH]; intros N H; [destruct H|].
  change (dict_get key ((k0, v0) :: dict) default)
    with (if String.eqb k0 key then v0 else dict_get key dict default).
  cbn [List.map fst] in N. inversion N as [|? ? Hnot N']; subst.
  destruct H as [H|H].
  - injection H as -> ->. now rewrite String.eqb_refl.
  - destruct (String.eqb k0 key) eqn:E; [|exact (IH N' H)].
    apply String.eqb_eq in E. subst k0. exfalso. apply Hnot.
    apply (in_map fst) in H. exact H.
Qed.

Lemma months_nodup : NoDup (List.map fst months).
Proof.
  unfold months. cbn [List.map fst].
  repeat (constructor; [cbn [In]; intros H;
    repeat (destruct H as [H|H]; [discriminate H|]); exact H|]).
  constructor.
Qed.

(** What [parse_date] does on a text of that shape. *)
Lemma parse_date_shape (text dd mon yy rest : string) :
  strip text = dd ++ "-" ++ mon ++ "-" ++ yy ++ rest ->
  all is_digit dd = true -> length dd = 1 \/ length dd = 2 ->
  all is_alpha mon = true -> length mon = 3 ->
  all is_digit yy = true -> length yy = 2 ->
  parse_date text
  = datetime_new (int yy + 2000) (dict_get (lower mon) months 1) (int dd).
Proof.
  intros Htext Hdd Ldd Hmon Lmon Hyy Lyy.
  destruct (date_re_match dd mon yy rest Hdd Ldd Hmon Lmon Hyy Lyy)
    as (m & Hm & G1 & G2 & G3).
  unfold parse_date. rewrite Htext, Hm, G1, G2, G3. reflexivity.
Qed.

(** And the shape of a text on which it returns a date. *)
Lemma parse_date_inv (text : string) (dt : datetime) :
  parse_date text = Some dt ->
  exists dd mon yy rest,
    strip text = dd ++ "-" ++ mon ++ "-" ++ yy ++ rest
    /\ all is_digit dd = true /\ (length dd = 1 \/ length dd = 2)
    /\ all is_alpha mon = true /\ length mon = 3
    /\ all is_digit yy = true /\ length yy = 2
    /\ datetime_new (int yy + 2000) (dict_get (lower mon) months 1) (int dd)
       = Some dt.
Proof.
  unfold parse_date, re_match, match_at. intros H.
  destruct (run (strip text) date_re (strip text) 0 init) as [[[t' n] st]|] eqn:R;
    [|discriminate].
  cbn [caps] in H.
  apply date_re_run in R; [|reflexivity].
  destruct R as (dd & mon & yy & rest & E & Hdd & Ldd & Hmon & Lmon & Hyy & Lyy
                 & G1 & G2 & G3).
  cbn [snd] in G1, G2, G3. rewrite G1, G2, G3 in H.
  exists dd, mon, yy, rest. splits; assumption.
Qed.

Lemma parse_date_calendar (text : string) (dt : datetime) :
  parse_date text = Some dt ->
  (2000 <= year dt <= 2099)%Z /\ (1 <= month dt <= 12)%Z
  /\ (1 <= day dt <= days_in_month (year dt) (month dt))%Z.
Proof.
  intros H. apply parse_date_inv in H.
  destruct H as (dd & mon & yy & rest & _ & _ & _ & _ & _ & Hyy & Lyy & H).
  apply datetime_new_inv in H. destruct H as (Y & M & D & _ & Hm & Hd).
  pose proof (int_two_digits yy Hyy Lyy). rewrite Y, M, D. lia.
Qed.

End DateFacts.

Import DateFacts.

(** X3. [parse_date] returns a date exactly on a text that, trimmed, begins
    with one or two digits, a hyphen, three letters of the ASCII alphabet, a
    hyphen and two digits, and whose day exists: the date of year 2000 + YY,
    of the month of the table for the lower-cased letters (January for
    letters that are not in it) and of day DD.  What follows the two digits
    of the year is not looked at. *)
Theorem parse_date_reads (text : string) (dt : datetime) :
  parse_date text = Some dt
  <-> exists dd mon yy rest,
        strip text = dd ++ "-" ++ mon ++ "-" ++ yy ++ rest
        /\ all is_digit dd = true /\ (length dd = 1 \/ length dd = 2)
        /\ all is_alpha mon = true /\ length mon = 3
        /\ all is_digit yy = true /\ length yy = 2
        /\ datetime_new (int yy + 2000) (dict_get (lower mon) months 1) (int dd)
           = Some dt.
Proof.
  split; [apply parse_date_inv|].
  intros (dd & mon & yy & rest & E & Hdd & Ldd & Hmon & Lmon & Hyy & Lyy & H).
  now rewrite (parse_date_shape text dd mon yy rest).
Qed.

Lemma parse_date_reads_witness :
  parse_date "  7-dic-24 23:59" = Some {| year := 2024; month := 12; day := 7 |}.
Proof.
  apply (parse_date_reads "  7-dic-24 23:59").
  exists "7", "dic", "24", " 23:59".
  splits; first [reflexivity | left; reflexivity].
Defined.

(** X4. Every date that [parse_date] returns is a date of the calendar in
    the years 2000 to 2099: its month is between 1 and 12 and its day
    between 1 and the number of days of that month in that year. *)
Theorem parse_date_is_a_calendar_date (text : string) (dt : datetime) :
  parse_date text = Some dt -> calendar_date dt.
Proof. apply parse_date_calendar. Qed.

Lemma parse_date_is_a_calendar_date_witness :
  calendar_date {| year := 2024; month := 2; day := 29 |}.
Proof.
  apply (parse_date_is_a_calendar_date "29-Feb-24"). vm_compute. reflexivity.
Defined.

(** X5. The twelve Spanish abbreviations are read in any mix of upper and
    lower case: on DD-Mmm-YY where the lower-cased Mmm is an entry of
    [months], [parse_date] returns the day DD of that month of the year
    2000 + YY when the month has such a day, and [None] when it has not
    (the [ValueError] of [datetime] is swallowed). *)
Theorem parse_date_known_month (text dd mon yy rest : string) (m : Z) :
  strip text = dd ++ "-" ++ mon ++ "-" ++ yy ++ rest ->
  all is_digit dd = true -> length dd = 1 \/ length dd = 2 ->
  all is_alpha mon = true -> length mon = 3 ->
  all is_digit yy = true -> length yy = 2 ->
  In (lower mon, m) months ->
  parse_date text
  = if ((1 <=? int dd) && (int dd <=? days_in_month (int yy + 2000) m))%Z
    then Some {| year := int yy + 2000; month := m; day := int dd |}
    else None.
Proof.
  intros Htext Hdd Ldd Hmon Lmon Hyy Lyy Hin.
  rewrite (parse_date_shape text dd mon yy rest) by assumption.
  pose proof (month_between (lower mon)) as Hm.
  rewrite (dict_get_in _ m 1 months months_nodup Hin) in *.
  pose proof (int_two_digits yy Hyy Lyy) as Hy.
  unfold datetime_new.
  replace (1 <=? int yy + 2000)%Z with true by (symmetry; apply Z.leb_le; lia).
  replace (int yy + 2000 <=? 9999)%Z with true by (symmetry; apply Z.leb_le; lia).
  replace (1 <=? m)%Z with true by (symmetry; apply Z.leb_le; lia).
  replace (m <=? 12)%Z with true by (symmetry; apply Z.leb_le; lia).
  reflexivity.
Qed.

Lemma parse_date_known_month_witness :
  parse_date "31-ABR-25 CUOTA" = None.
Proof.
  apply (parse_date_known_month "31-ABR-25 CUOTA" "31" "ABR" "25" " CUOTA" 4);
    first [reflexivity | right; reflexivity | (cbn [months In]; tauto)].
Defined.

(* ===================================================================== *)
(** ** The header extractors without their labels *)
(* ===================================================================== *)

(** X6. A header extractor whose label does not occur on the page returns
    its default: [extract_saldo_pendiente] 0.0 and 0.0 without "SALDO
    PENDIENTE", [extract_statement_date] [(None, 0, 0)] without "ESTADO DE
    CUENTA AL:", [extract_proximo_cierre] and [extract_proximo_vencimiento]
    [None] when either word of their label is missing.  A label, or a
    word of it, is missing when the pattern reads it at no place of the
    page, in the relation of [re.IGNORECASE] between characters. *)
Theorem headers_missing_labels (text : string) :
  (find_ci "SALDO PENDIENTE" text = None ->
   extract_saldo_pendiente text = (zero, zero))
  /\ (find_ci "ESTADO DE CUENTA AL:" text = None ->
      extract_statement_date text = (None, 0, 0)%Z)
  /\ (find_ci "PROXIMO" text = None \/ find_ci "CIERRE:" text = None ->
      extract_proximo_cierre text = None)
  /\ (find_ci "PROXIMO" text = None \/ find_ci "VENCIMIENTO:" text = None ->
      extract_proximo_vencimiento text = None).
Proof.
  splits.
  - intros H. unfold extract_saldo_pendiente, saldo_pendiente_re.
    rewrite re_search_lit_ci_none; [reflexivity | exact H].
  - intros H. unfold extract_statement_date, labelled_date_re.
    rewrite re_search_lit_ci_none; [reflexivity | exact H].
  - intros H. unfold extract_proximo_cierre, labelled_date_re.
    rewrite <- !List.app_assoc.
    rewrite re_search_two_words_none; [reflexivity | exact H].
  - intros H. unfold extract_proximo_vencimiento, labelled_date_re.
    rewrite <- !List.app_assoc.
    rewrite re_search_two_words_none; [reflexivity | exact H].
Qed.

Lemma headers_missing_labels_witness :
  extract_saldo_pendiente "PROXIMO VENCIMIENTO 11-Feb-26" = (zero, zero)
  /\ extract_statement_date "PROXIMO VENCIMIENTO 11-Feb-26" = (None, 0, 0)%Z
  /\ extract_proximo_cierre "PROXIMO VENCIMIENTO 11-Feb-26" = None
  /\ extract_proximo_vencimiento "PROXIMO VENCIMIENTO 11-Feb-26" = None.
Proof.
  destruct (headers_missing_labels "PROXIMO VENCIMIENTO 11-Feb-26")
    as (A & B & C & D).
  splits; [apply A | apply B | apply C; right | apply D; right]; reflexivity.
Defined.

(* ===================================================================== *)
(** ** Trimming, again *)
(* ===================================================================== *)

Module TrimFacts.

Lemma rstrip_of_idem (p : ascii -> bool) (t : string) :
  rstrip_of p (rstrip_of p t) = rstrip_of p t.
Proof.
  induction t as [|c t IH]; [reflexivity|].
  cbn [rstrip_of].
  destruct (p c && is_empty (rstrip_of p t)) eqn:E; [reflexivity|].
  cbn [rstrip_of]. now rewrite IH, E.
Qed.

Lemma lstrip_of_head (p : ascii -> bool) (t : string) :
  head_in p (lstrip_of p t) = false.
Proof.
  induction t as [|c t IH]; [reflexivity|].
  cbn [lstrip_of]. destruct (p c) eqn:E; [exact IH | exact E].
Qed.

Lemma lstrip_of_fix (p : ascii -> bool) (t : string) :
  head_in p t = false -> lstrip_of p t = t.
Proof. destruct t as [|c t]; [reflexivity|]. cbn. now intros ->. Qed.

Lemma rstrip_of_head (p : ascii -> bool) (t : string) :
  head_in p t = false -> head_in p (rstrip_of p t) = false.
Proof.
  destruct t as [|c t]; [reflexivity|]. cbn [head_in rstrip_of]. intros E.
  rewrite E. exact E.
Qed.

Lemma strip_of_idem (p : ascii -> bool) (t : string) :
  strip_of p (strip_of p t) = strip_of p t.
Proof.
  unfold strip_of.
  rewrite (lstrip_of_fix p (rstrip_of p (lstrip_of p t)))
    by apply rstrip_of_head, lstrip_of_head.
  apply rstrip_of_idem.
Qed.

Lemma strip_idem (t : string) : strip (strip t) = strip t.
Proof. apply strip_of_idem. Qed.

Lemma is_space_lower_char (c : ascii) : is_space (lower_char c) = is_space c.
Proof.
  destruct c as [[] [] [] [] [] [] [] []]; vm_compute; reflexivity.
Qed.

Lemma lower_lstrip (t : string) :
  lower (lstrip_of is_space t) = lstrip_of is_space (lower t).
Proof.
  induction t as [|c t IH]; [reflexivity|].
  change (lower (String c t)) with (String (lower_char c) (lower t)).
  cbn [lstrip_of]. rewrite is_space_lower_char.
  destruct (is_space c); [exact IH | reflexivity].
Qed.

Lemma lower_rstrip (t : string) :
  lower (rstrip_of is_space t) = rstrip_of is_space (lower t).
Proof.
  induction t as [|c t IH]; [reflexivity|].
  change (lower (String c t)) with (String (lower_char c) (lower t)).
  cbn [rstrip_of]. rewrite is_space_lower_char, <- IH.
  destruct (rstrip_of is_space t); destruct (is_space c); reflexivity.
Qed.

Lemma lower_strip (t : string) : lower (strip t) = strip (lower t).
Proof. unfold strip, strip_of. now rewrite lower_rstrip, lower_lstrip. Qed.

(** A phrase that neither begins nor ends with white space occurs in a
    text exactly when it occurs in the trimmed text. *)
Lemma contains_lstrip (w t : string) :
  w <> EmptyString -> head_in is_space w = false ->
  contains w (lstrip_of is_space t) = contains w t.
Proof.
  intros Nw Hw. induction t as [|c t IH]; [reflexivity|].
  cbn [lstrip_of]. destruct (is_space c) eqn:E; [|reflexivity].
  rewrite IH. destruct w as [|a w]; [congruence|].
  cbn [head_in] in Hw.
  change (contains (String a w) (String c t))
    with (startswith (String a w) (String c t) || contains (String a w) t).
  cbn [startswith].
  destruct (Ascii.eqb_spec a c) as [->|]; [congruence | reflexivity].
Qed.

Lemma startswith_rstrip (w : string) :
  w <> EmptyString -> rstrip_of is_space w = w ->
  forall t, startswith w (rstrip_of is_space t) = startswith w t.
Proof.
  induction w as [|a w IH]; [congruence|]. intros _ Hw t.
  cbn [rstrip_of] in Hw.
  destruct (is_space a && is_empty (rstrip_of is_space w)) eqn:Ea; [discriminate Hw|].
  injection Hw as Hw.
  destruct t as [|c t]; [reflexivity|].
  cbn [rstrip_of].
  destruct (is_space c && is_empty (rstrip_of is_space t)) eqn:Ec.
  - apply andb_prop in Ec. destruct Ec as [Hc Ht].
    cbn [startswith]. symmetry.
    destruct (Ascii.eqb_spec a c) as [->|]; [|reflexivity].
    rewrite Hc in Ea. cbn [andb] in Ea.
    destruct w as [|b w]; [rewrite <- Hw in Ea; discriminate Ea|].
    rewrite <- (IH ltac:(discriminate) Hw t).
    destruct (rstrip_of is_space t); [reflexivity | discriminate Ht].
  - cbn [startswith]. destruct (Ascii.eqb a c); [|reflexivity]. cbn [andb].
    destruct w as [|b w]; [reflexivity|].
    apply IH; [discriminate | exact Hw].
Qed.

Lemma contains_rstrip (w t : string) :
  w <> EmptyString -> rstrip_of is_space w = w ->
  contains w (rstrip_of is_space t) = contains w t.
Proof.
  intros Nw Hw. induction t as [|c t IH]; [reflexivity|].
  change (contains w (String c t))
    with (startswith w (String c t) || contains w t).
  rewrite <- (startswith_rstrip w Nw Hw (String c t)), <- IH.
  cbn [rstrip_of].
  destruct (is_space c && is_empty (rstrip_of is_space t)) eqn:Ec.
  - apply andb_prop in Ec. destruct Ec as [_ Ht].
    destruct (rstrip_of is_space t); [|discriminate Ht].
    destruct w; [congruence | reflexivity].
  - reflexivity.
Qed.

Lemma contains_strip (w t : string) :
  w <> EmptyString -> head_in is_space w = false -> rstrip_of is_space w = w ->
  contains w (strip t) = contains w t.
Proof.
  intros Nw Hh Hw. unfold strip, strip_of.
  now rewrite contains_rstrip, contains_lstrip.
Qed.

End TrimFacts.

Import TrimFacts.

(* ===================================================================== *)
(** ** Lines and pages *)
(* ===================================================================== *)

Module LineFacts.

(** A match of the line pattern: the date, white space, and the rest of
    the line up to its end or a line feed. *)
Lemma line_re_run (src : string) (t : string) (i : nat) r :
  run src line_re t i init = Some r -> drop i src = t ->
  exists dd mon yy ws body behind,
    t = dd ++ "-" ++ mon ++ "-" ++ yy ++ ws ++ body ++ behind
    /\ all is_digit dd = true /\ (length dd = 1 \/ length dd = 2)
    /\ all is_alpha mon = true /\ length mon = 3
    /\ all is_digit yy = true /\ length yy = 2
    /\ all is_space ws = true /\ ws <> EmptyString
    /\ all dot body = true /\ body <> EmptyString
    /\ group 1 (snd r) = dd ++ "-" ++ mon ++ "-" ++ yy
    /\ group 2 (snd r) = body.
Proof.
  unfold line_re, times, plus. intros R D.
  cbn [run assoc marks groups init Nat.eqb] in R.
  apply (rep_inv_at src) in R; [|exact D].
  destruct R as (dd & t1 & E0 & Hdd & Ldd1 & Ldd2 & R & D1 & G1).
  destruct t1 as [|c1 t1]; [discriminate|].
  destruct (chr "-" c1) eqn:C1; [|discriminate]. apply chr_inv in C1. subst c1.
  pose proof (drop_S _ _ _ _ D1) as D1'.
  apply (rep_inv_at src) in R; [|exact D1'].
  destruct R as (mon & t2 & -> & Hmon & Lmon1 & Lmon2 & R & D2 & G2).
  destruct t2 as [|c2 t2]; [discriminate|].
  destruct (chr "-" c2) eqn:C2; [|discriminate]. apply chr_inv in C2. subst c2.
  pose proof (drop_S _ _ _ _ D2) as D2'.
  apply (rep_inv_at src) in R; [|exact D2'].
  destruct R as (yy & t3 & -> & Hyy & Lyy1 & Lyy2 & R & D3 & G3).
  apply (rep_inv_at src) in R; [|exact D3].
  destruct R as (ws & t4 & -> & Hws & Lws & _ & R & D4 & G4).
  apply (rep_inv_at src) in R; [|exact D4].
  destruct R as (body & t5 & -> & Hbody & Lbody & _ & R & D5 & G5).
  injection R as <-. cbn [snd].
  exists dd, mon, yy, ws, body, t5.
  unfold group. cbn [assoc groups Nat.eqb]. cbn [within] in *.
  cbn [Nat.add] in G5. rewrite G5.
  assert (G : slice i (S (S (i + length dd) + length mon) + length yy) src
              = dd ++ "-" ++ mon ++ "-" ++ yy).
  { unfold slice. rewrite D, E0.
    replace (S (S (i + length dd) + length mon) + length yy - i)
      with (length (dd ++ "-" ++ mon ++ "-" ++ yy))
      by (repeat first [rewrite length_app | progress cbn [append length]]; lia).
    replace (dd ++ String "-" (mon ++ String "-" (yy ++ ws ++ body ++ t5)))
      with ((dd ++ "-" ++ mon ++ "-" ++ yy) ++ ws ++ body ++ t5)
      by (rewrite !CutFacts.app_assoc; reflexivity).
    apply take_app_length. }
  cbn [Nat.add] in G. rewrite G.
  splits; try reflexivity; try assumption; try lia.
  - intros ->. simpl in Lws. lia.
  - intros ->. simpl in Lbody. lia.
Qed.

(** A text of that shape is matched by the pattern that picks the lines. *)
Lemma line_start_re_match (dd mon yy : string) (c : ascii) (rest : string) :
  all is_digit dd = true -> length dd = 1 \/ length dd = 2 ->
  all is_alpha mon = true -> length mon = 3 ->
  all is_digit yy = true -> length yy = 2 ->
  is_space c = true ->
  re_match line_start_re (dd ++ "-" ++ mon ++ "-" ++ yy ++ String c rest) <> None.
Proof.
  intros Hdd Ldd Hmon Lmon Hyy Lyy Hc.
  destruct mon as [|m1 [|m2 [|m3 [|? ?]]]]; try discriminate Lmon.
  destruct yy as [|y1 [|y2 [|? ?]]]; try discriminate Lyy.
  simpl in Hmon, Hyy.
  apply andb_prop in Hmon; destruct Hmon as [Hm1 Hmon].
  apply andb_prop in Hmon; destruct Hmon as [Hm2 Hmon].
  apply andb_prop in Hmon; destruct Hmon as [Hm3 _].
  apply andb_prop in Hyy; destruct Hyy as [Hy1 Hyy].
  apply andb_prop in Hyy; destruct Hyy as [Hy2 _].
  unfold re_match, match_at, line_start_re, times.
  destruct dd as [|d1 [|d2 [|? ?]]]; simpl in Ldd;
    try (exfalso; destruct Ldd; discriminate).
  - simpl in Hdd. apply andb_prop in Hdd. destruct Hdd as [Hd1 _].
    cbn. repeat rep_step. unfold s. rewrite Hc. discriminate.
  - simpl in Hdd. apply andb_prop in Hdd. destruct Hdd as [Hd1 Hdd].
    apply andb_prop in Hdd. destruct Hdd as [Hd2 _].
    cbn. repeat rep_step. unfold s. rewrite Hc. discriminate.
Qed.

Lemma line_parts_inv (line date_text rest : string) :
  line_parts line = Some (date_text, rest) ->
  exists dd mon yy ws body behind,
    strip line = dd ++ "-" ++ mon ++ "-" ++ yy ++ ws ++ body ++ behind
    /\ all is_digit dd = true /\ (length dd = 1 \/ length dd = 2)
    /\ all is_alpha mon = true /\ length mon = 3
    /\ all is_digit yy = true /\ length yy = 2
    /\ all is_space ws = true /\ ws <> EmptyString
    /\ all dot body = true /\ body <> EmptyString
    /\ date_text = dd ++ "-" ++ mon ++ "-" ++ yy
    /\ rest = strip body.
Proof.
  unfold line_parts, re_match, match_at. intros H.
  destruct (run (strip line) line_re (strip line) 0 init) as [[[t' n] st]|] eqn:R;
    [|discriminate].
  cbn [caps] in H. injection H as <- <-.
  apply line_re_run in R; [|reflexivity].
  destruct R as (dd & mon & yy & ws & body & behind & E & Hdd & Ldd & Hmon & Lmon
                 & Hyy & Lyy & Hws & Nws & Hbody & Nbody & G1 & G2).
  cbn [snd] in G1, G2. rewrite G1, G2.
  exists dd, mon, yy, ws, body, behind. splits; auto.
Qed.

Lemma is_subtotal_row_strip (line : string) :
  is_subtotal_row (strip line) = is_subtotal_row line.
Proof.
  unfold is_subtotal_row, skip_patterns. cbn [existsb].
  rewrite lower_strip.
  rewrite !contains_strip by (discriminate || reflexivity). reflexivity.
Qed.

Lemma parse_transaction_line_strip (line : string) :
  parse_transaction_line (strip line) = parse_transaction_line line.
Proof.
  unfold parse_transaction_line, line_parts.
  now rewrite is_subtotal_row_strip, strip_idem.
Qed.

Lemma scan_line_parse (line : string) :
  scan_line line
  = match parse_transaction_line line with
    | Some transaction => [transaction]
    | None => []
    end.
Proof.
  rewrite <- parse_transaction_line_strip.
  unfold scan_line.
  destruct (parse_transaction_line (strip line)) as [t|] eqn:P.
  - apply parse_transaction_line_inv in P.
    destruct P as (date_text & rest & amount_str & _ & P & _).
    apply line_parts_inv in P.
    destruct P as (dd & mon & yy & ws & body & behind & E & Hdd & Ldd & Hmon & Lmon
                   & Hyy & Lyy & Hws & Nws & _).
    rewrite strip_idem in E. rewrite E.
    destruct ws as [|c ws]; [congruence|].
    simpl in Hws. apply andb_prop in Hws. destruct Hws as [Hc _].
    pose proof (line_start_re_match dd mon yy c (ws ++ body ++ behind)
                  Hdd Ldd Hmon Lmon Hyy Lyy Hc) as M.
    cbn [append] in M.
    replace (is_empty (dd ++ "-" ++ mon ++ "-" ++ yy ++ String c ws ++ body ++ behind))
      with false.
    + destruct (re_match line_start_re _); [reflexivity | congruence].
    + destruct dd; [simpl in Ldd; destruct Ldd; discriminate | reflexivity].
  - destruct (is_empty (strip line)); [reflexivity|].
    destruct (re_match line_start_re (strip line)); reflexivity.
Qed.

Lemma scan_line_inv (line : string) (t : Transaction) :
  In t (scan_line line) -> parse_transaction_line (strip line) = Some t.
Proof.
  unfold scan_line.
  destruct (is_empty (strip line)); [intros []|].
  destruct (re_match line_start_re (strip line)); [|intros []].
  destruct (parse_transaction_line (strip line)) as [t'|]; [|intros []].
  intros [->|[]]. reflexivity.
Qed.

Lemma scan_lines_inv (text : string) (t : Transaction) :
  In t (scan_lines text) ->
  exists line, In line (split "010" text)
               /\ parse_transaction_line (strip line) = Some t.
Proof.
  unfold scan_lines. rewrite in_flat_map. intros (line & Hin & H).
  exists line. split; [exact Hin | now apply scan_line_inv].
Qed.

Lemma split_nonempty (c : ascii) (t : string) : split c t <> [].
Proof.
  destruct t as [|x t]; cbn [split]; [discriminate|].
  destruct (Ascii.eqb x c); [discriminate|].
  destruct (split c t); discriminate.
Qed.

Lemma split_app (c : ascii) (a b : string) :
  split c (a ++ String c b) = (split c a ++ split c b)%list.
Proof.
  induction a as [|x a IH].
  - cbn [append split List.app]. now rewrite Ascii.eqb_refl.
  - cbn [append split]. rewrite IH.
    destruct (Ascii.eqb x c); [reflexivity|].
    pose proof (split_nonempty c a) as N.
    destruct (split c a); [congruence | reflexivity].
Qed.

Lemma scan_lines_app (a b : string) :
  scan_lines (a ++ newline ++ b) = (scan_lines a ++ scan_lines b)%list.
Proof.
  unfold scan_lines, newline. cbn [append].
  now rewrite split_app, flat_map_app.
Qed.

Lemma full_text_acc (pages : list (option string)) (acc : string) :
  fold_left (fun acc page => acc ++ page_text page ++ newline) pages acc
  = acc ++ full_text pages.
Proof.
  unfold full_text. revert acc.
  induction pages as [|page pages IH]; intros acc; cbn [fold_left].
  - now rewrite CutFacts.app_nil_r.
  - rewrite (IH (acc ++ _)), (IH (EmptyString ++ _)).
    cbn [append]. now rewrite !CutFacts.app_assoc.
Qed.

Lemma scan_lines_full_text (pages : list (option string)) :
  scan_lines (full_text pages)
  = flat_map (fun page => scan_lines (page_text page)) pages.
Proof.
  induction pages as [|page pages IH]; [reflexivity|].
  unfold full_text. cbn [fold_left flat_map].
  rewrite full_text_acc. cbn [append].
  now rewrite CutFacts.app_assoc, scan_lines_app, IH.
Qed.

Lemma transactions_scan (sum : list float -> float) (pages : list (option string)) :
  transactions (parse_mastercard_pdf sum pages) = scan_lines (full_text pages).
Proof.
  unfold parse_mastercard_pdf. destruct pages as [|page pages].
  - reflexivity.
  - destruct (extract_saldo_actual (page_text page)) as [a1 a2].
    destruct (extract_saldo_pendiente (page_text page)) as [b1 b2].
    destruct (extract_statement_date (page_text page)) as [[d m] y].
    reflexivity.
Qed.

Lemma extract_statement_date_fields (text : string) :
  match extract_statement_date text with
  | (Some dt, m, y) => m = month dt /\ y = year dt /\ calendar_date dt
  | (None, m, y) => m = 0%Z /\ y = 0%Z
  end.
Proof.
  unfold extract_statement_date, date_of_groups.
  destruct (re_search _ text) as [[pre m]|]; [|auto].
  destruct (parse_date _) as [dt|] eqn:E; [|auto].
  splits; try reflexivity. exact (parse_date_calendar _ _ E).
Qed.

Lemma header_date_calendar (label : regex) (text : string) (dt : datetime) :
  match re_search (labelled_date_re label) text with
  | Some (_, m) => date_of_groups m
  | None => None
  end = Some dt -> calendar_date dt.
Proof.
  destruct (re_search _ text) as [[pre m]|]; [|discriminate].
  unfold date_of_groups. apply parse_date_calendar.
Qed.

End LineFacts.

Import LineFacts.

(** X7. White space around a line is of no account to
    [parse_transaction_line], and the two checks that the loop of
    [parse_mastercard_pdf] makes before it calls the line parser (the line
    is not blank; it begins with a date and white space) reject no line
    that the line parser accepts: a line contributes exactly what
    [parse_transaction_line] returns on it. *)
Theorem scan_line_is_the_line_parser (line : string) :
  parse_transaction_line (strip line) = parse_transaction_line line
  /\ scan_line line
     = match parse_transaction_line line with
       | Some transaction => [transaction]
       | None => []
       end.
Proof. split; [apply parse_transaction_line_strip | apply scan_line_parse]. Qed.

(** X8. The transactions of a document are those of its pages, page after
    page and line after line, in their order: the text of the pages is
    joined by line feeds, so no line runs over a page break, and a page
    without text gives none. *)
Theorem transactions_page_by_page (sum : list float -> float)
    (pages : list (option string)) :
  transactions (parse_mastercard_pdf sum pages)
  = flat_map (fun page =>
      flat_map (fun line => match parse_transaction_line line with
                            | Some transaction => [transaction]
                            | None => []
                            end)
               (split "010" (page_text page))) pages.
Proof.
  rewrite transactions_scan, scan_lines_full_text.
  apply flat_map_ext. intros page. unfold scan_lines.
  apply flat_map_ext. intros line. apply scan_line_parse.
Qed.

(** X9. In the result of [parse_mastercard_pdf] the fields [month] and
    [year] are those of [statement_date], a date of the calendar, when there
    is one, and both 0 when there is none: 0 is never the month or the year
    of a statement whose date was read. *)
Theorem statement_month_and_year (sum : list float -> float)
    (pages : list (option string)) :
  let r := parse_mastercard_pdf sum pages in
  match statement_date r with
  | Some dt => st_month r = month dt /\ st_year r = year dt /\ calendar_date dt
  | None => st_month r = 0%Z /\ st_year r = 0%Z
  end.
Proof.
  unfold parse_mastercard_pdf.
  destruct pages as [|page pages].
  - cbn. auto.
  - destruct (extract_saldo_actual (page_text page)) as [a1 a2].
    destruct (extract_saldo_pendiente (page_text page)) as [b1 b2].
    pose proof (extract_statement_date_fields (page_text page)) as H.
    destruct (extract_statement_date (page_text page)) as [[dt m] y].
    cbn [statement_date st_month st_year]. exact H.
Qed.

(** X10. Every date in the result of [parse_mastercard_pdf] - the date of
    the statement, of the next closing, of the next due day, and of every
    transaction - is a date of the calendar in the years 2000 to 2099. *)
Theorem every_date_is_a_calendar_date (sum : list float -> float)
    (pages : list (option string)) (dt : datetime) :
  let r := parse_mastercard_pdf sum pages in
  statement_date r = Some dt \/ proximo_cierre r = Some dt
  \/ proximo_vencimiento r = Some dt
  \/ (exists t, In t (transactions r) /\ date t = dt) ->
  calendar_date dt.
Proof.
  intros r H.
  pose proof (transactions_scan sum pages) as T. fold r in T.
  destruct H as [H|[H|[H|(t & Hin & <-)]]].
  - pose proof (extract_statement_date_fields
                  (match pages with page :: _ => page_text page | [] => EmptyString end)) as S.
    unfold r, parse_mastercard_pdf in H. destruct pages as [|page pages].
    + discriminate H.
    + destruct (extract_saldo_actual (page_text page)) as [a1 a2].
      destruct (extract_saldo_pendiente (page_text page)) as [b1 b2].
      destruct (extract_statement_date (page_text page)) as [[d m] y].
      cbn [statement_date] in H. subst d. tauto.
  - unfold r, parse_mastercard_pdf in H. destruct pages as [|page pages].
    + discriminate H.
    + destruct (extract_saldo_actual (page_text page)) as [a1 a2].
      destruct (extract_saldo_pendiente (page_text page)) as [b1 b2].
      destruct (extract_statement_date (page_text page)) as [[d m] y].
      cbn [proximo_cierre] in H. unfold extract_proximo_cierre in H.
      exact (header_date_calendar _ _ _ H).
  - unfold r, parse_mastercard_pdf in H. destruct pages as [|page pages].
    + discriminate H.
    + destruct (extract_saldo_actual (page_text page)) as [a1 a2].
      destruct (extract_saldo_pendiente (page_text page)) as [b1 b2].
      destruct (extract_statement_date (page_text page)) as [[d m] y].
      cbn [proximo_vencimiento] in H. unfold extract_proximo_vencimiento in H.
      exact (header_date_calendar _ _ _ H).
  - rewrite T in Hin. apply scan_lines_inv in Hin.
    destruct Hin as (line & _ & P). apply parse_transaction_line_inv in P.
    destruct P as (date_text & rest & amount_str & _ & _ & P & _).
    exact (parse_date_calendar _ _ P).
Qed.

Lemma every_date_is_a_calendar_date_witness :
  calendar_date {| year := 2025; month := 1; day := 1 |}.
Proof.
  apply (every_date_is_a_calendar_date sum_left statement_1500_30).
  right; right; right.
  exists {| date := {| year := 2025; month := 1; day := 1 |};
            merchant := "KIOSCO";
            coupon_number := EmptyString;
            amount_pesos := of_decimal false 50020 (-2);
            amount_dollars := zero;
            is_dollar := false |}.
  split; [|reflexivity]. vm_compute. left. reflexivity.
Defined.

(* ===================================================================== *)
(** ** Amounts: signs and separators *)
(* ===================================================================== *)

Module AmountFacts.

Lemma replace_app (c : ascii) (new a b : string) :
  replace c new (a ++ b) = replace c new a ++ replace c new b.
Proof.
  induction a as [|x a IH]; [reflexivity|].
  cbn [append replace]. rewrite IH.
  destruct (Ascii.eqb x c); [now rewrite CutFacts.app_assoc | reflexivity].
Qed.

Lemma unmarked_app (a b : string) : unmarked (a ++ b) = unmarked a ++ unmarked b.
Proof. unfold unmarked. now rewrite !replace_app. Qed.

Lemma unmarked_marks (w : string) : all is_mark w = true -> unmarked w = EmptyString.
Proof.
  induction w as [|c w IH]; [reflexivity|].
  cbn [all]. intros H. apply andb_prop in H. destruct H as [Hc Hw].
  specialize (IH Hw). unfold unmarked in *.
  unfold is_mark in Hc. cbn [mem] in Hc. rewrite orb_false_r in Hc.
  apply orb_prop in Hc. destruct Hc as [Hc|Hc];
    [|apply orb_prop in Hc; destruct Hc as [Hc|Hc]];
    apply Ascii.eqb_eq in Hc; subst c; exact IH.
Qed.

Lemma unmarked_amount (w : string) : all amount_chr w = true -> unmarked w = w.
Proof.
  intros H. unfold unmarked.
  rewrite (replace_absent "(") by (apply (all_mem_false amount_chr); [exact H | reflexivity]).
  rewrite (replace_absent ")") by (apply (all_mem_false amount_chr); [exact H | reflexivity]).
  now rewrite (replace_absent "-") by (apply (all_mem_false amount_chr); [exact H | reflexivity]).
Qed.

Lemma amount_chr_not_space (c : ascii) : amount_chr c = true -> negb (is_space c) = true.
Proof.
  unfold amount_chr. intros H. apply orb_prop in H. destruct H as [H|H].
  - apply orb_prop in H. destruct H as [H|H].
    + now rewrite digit_not_space.
    + apply Ascii.eqb_eq in H. subst c. reflexivity.
  - apply Ascii.eqb_eq in H. subst c. reflexivity.
Qed.

Lemma mark_not_space (c : ascii) : is_mark c = true -> negb (is_space c) = true.
Proof.
  unfold is_mark. cbn [mem]. rewrite orb_false_r. intros H.
  apply orb_prop in H. destruct H as [H|H];
    [|apply orb_prop in H; destruct H as [H|H]];
    apply Ascii.eqb_eq in H; subst c; reflexivity.
Qed.

Lemma digit_amount_chr (c : ascii) : is_digit c = true -> amount_chr c = true.
Proof. unfold amount_chr. now intros ->. Qed.

Lemma sep_amount_chr (c : ascii) : sep_chr c = true -> amount_chr c = true.
Proof.
  unfold sep_chr, amount_chr. intros H. apply orb_prop in H.
  destruct H as [H|H]; rewrite H; [rewrite orb_true_r|]; auto using orb_true_r.
Qed.

(** A number with one separator, comma or period, in the form that goes to
    [float]. *)
Lemma decimal_text_number (a : string) (c : ascii) (b : string) :
  all is_digit a = true -> sep_chr c = true -> all is_digit b = true ->
  decimal_text (a ++ String c b) = a ++ "." ++ b.
Proof.
  intros Ha Hc Hb.
  assert (Pa : mem "." a = false) by (apply (all_mem_false is_digit); auto).
  assert (Pb : mem "." b = false) by (apply (all_mem_false is_digit); auto).
  assert (Ca : mem "," a = false) by (apply (all_mem_false is_digit); auto).
  assert (Cb : mem "," b = false) by (apply (all_mem_false is_digit); auto).
  unfold decimal_text. rewrite !mem_app. cbn [mem]. rewrite Pa, Pb, Ca, Cb.
  unfold sep_chr in Hc. apply orb_prop in Hc.
  destruct Hc as [Hc|Hc]; apply Ascii.eqb_eq in Hc; subst c; cbn.
  - reflexivity.
  - rewrite replace_app. cbn [replace]. cbn.
    now rewrite !replace_absent by assumption.
Qed.

Lemma parse_amount_number (text before a : string) (c : ascii) (b behind : string) :
  strip text = before ++ a ++ String c b ++ behind ->
  all is_mark before = true -> all is_mark behind = true ->
  all is_digit a = true -> a <> EmptyString ->
  sep_chr c = true -> all is_digit b = true ->
  parse_amount text
  = if startswith "-" before || startswith "(" before
    then fneg (of_decimal false (int (a ++ b)) (- Z.of_nat (length b)))
    else of_decimal false (int (a ++ b)) (- Z.of_nat (length b)).
Proof.
  intros E Hbefore Hbehind Ha Na Hc Hb.
  assert (Hn : all amount_chr (a ++ String c b) = true).
  { rewrite all_app. cbn [all].
    rewrite (all_impl is_digit amount_chr a digit_amount_chr Ha).
    rewrite (all_impl is_digit amount_chr b digit_amount_chr Hb).
    now rewrite (sep_amount_chr c Hc). }
  assert (Ne : is_empty (strip text) = false).
  { rewrite E. destruct before; [|reflexivity]. destruct a; [congruence | reflexivity]. }
  rewrite (parse_amount_unfold text Ne), E.
  assert (U : unsigned_text (before ++ a ++ String c b ++ behind) = a ++ String c b).
  { unfold unsigned_text. fold (unmarked (before ++ a ++ String c b ++ behind)).
    replace (before ++ a ++ String c b ++ behind)
      with (before ++ (a ++ String c b) ++ behind)
      by (now rewrite CutFacts.app_assoc).
    rewrite (unmarked_app before), (unmarked_app (a ++ String c b)),
      (unmarked_marks before Hbefore),
      (unmarked_marks behind Hbehind), (unmarked_amount _ Hn).
    cbn [append]. rewrite CutFacts.app_nil_r.
    apply strip_no_space. exact (all_impl _ _ _ amount_chr_not_space Hn). }
  rewrite U, (decimal_text_number a c b Ha Hc Hb), float_of_str_decimal by assumption.
  destruct before as [|m before]; [|reflexivity].
  destruct a as [|a0 a]; [congruence|].
  cbn [all] in Ha. apply andb_prop in Ha. destruct Ha as [Ha0 _].
  cbn [append startswith].
  rewrite (Ascii.eqb_sym "-" a0), (Ascii.eqb_sym "(" a0).
  now rewrite (digit_neq a0 "-"), (digit_neq a0 "(") by (assumption || reflexivity).
Qed.

Lemma grouped_digits (p : string) :
  all plain p = true -> all is_digit (replace "." EmptyString p) = true.
Proof.
  induction p as [|x p IH]; [reflexivity|].
  cbn [all replace]. intros H. apply andb_prop in H. destruct H as [Hx Hp].
  destruct (Ascii.eqb x ".") eqn:E; [exact (IH Hp)|].
  unfold plain in Hx. rewrite E, orb_false_r in Hx.
  cbn [all]. now rewrite Hx, (IH Hp).
Qed.

Lemma plain_amount_chr (c : ascii) : plain c = true -> amount_chr c = true.
Proof. unfold plain, amount_chr. now intros ->. Qed.

Lemma number_shaped_amount (amount_str : string) :
  number_shaped amount_str ->
  exists sgn a c b,
    amount_str = sgn ++ a ++ String c b
    /\ (sgn = EmptyString \/ sgn = "-")
    /\ all is_digit a = true /\ a <> EmptyString
    /\ sep_chr c = true
    /\ all is_digit b = true /\ b <> EmptyString
    /\ parse_amount amount_str
       = if startswith "-" sgn
         then fneg (of_decimal false (int (a ++ b)) (- Z.of_nat (length b)))
         else of_decimal false (int (a ++ b)) (- Z.of_nat (length b)).
Proof.
  intros (sgn & a & c & b & -> & Hs & Ha & Na & Hc & Hb & Nb).
  exists sgn, a, c, b. splits; auto.
  assert (Hn : all amount_chr (a ++ String c b) = true).
  { rewrite all_app. cbn [all].
    rewrite (all_impl is_digit amount_chr a digit_amount_chr Ha).
    rewrite (all_impl is_digit amount_chr b digit_amount_chr Hb).
    now rewrite (sep_amount_chr c Hc). }
  rewrite (parse_amount_number (sgn ++ a ++ String c b) sgn a c b EmptyString);
    auto.
  - destruct Hs as [->| ->]; reflexivity.
  - rewrite CutFacts.app_nil_r. apply strip_no_space.
    rewrite all_app. rewrite (all_impl _ _ _ amount_chr_not_space Hn).
    destruct Hs as [->| ->]; reflexivity.
  - destruct Hs as [->| ->]; reflexivity.
Qed.

End AmountFacts.

Import AmountFacts.

(** X11. On digits, a comma or a period, and digits, with parentheses and
    hyphens before and after and white space around, [parse_amount] returns
    the double nearest to the decimal number whose integer part is the
    first digits and whose fraction is the second: comma and period are
    both read as the decimal point.  The number is negated exactly when the
    first character is a hyphen or an opening parenthesis; a hyphen behind
    the number, as in "12,50-", is dropped and the amount is positive. *)
Theorem parse_amount_of_a_number (text before a : string) (c : ascii)
    (b behind : string) :
  strip text = before ++ a ++ String c b ++ behind ->
  all is_mark before = true -> all is_mark behind = true ->
  all is_digit a = true -> a <> EmptyString ->
  sep_chr c = true -> all is_digit b = true ->
  parse_amount text
  = if startswith "-" before || startswith "(" before
    then fneg (of_decimal false (int (a ++ b)) (- Z.of_nat (length b)))
    else of_decimal false (int (a ++ b)) (- Z.of_nat (length b)).
Proof. apply parse_amount_number. Qed.

Lemma parse_amount_of_a_number_witness :
  parse_amount " (12,50-) " = fneg (of_decimal false 1250 (-2))
  /\ parse_amount "12.50-" = of_decimal false 1250 (-2).
Proof.
  split.
  - apply (parse_amount_of_a_number " (12,50-) " "(" "12" "," "50" "-)");
      first [reflexivity | discriminate].
  - apply (parse_amount_of_a_number "12.50-" EmptyString "12" "." "50" "-");
      first [reflexivity | discriminate].
Defined.

(** X12. The Argentine format in general: when digits and periods, a digit
    first, stand before a comma and digits, every period is dropped and
    the comma is the decimal point; "3.051.644,80" is 3051644.80. *)
Theorem parse_amount_thousands (p c : string) :
  all plain p = true -> head_in is_digit p = true -> mem "." p = true ->
  all is_digit c = true ->
  parse_amount (p ++ "," ++ c)
  = of_decimal false (int (replace "." EmptyString p ++ c)) (- Z.of_nat (length c)).
Proof.
  intros Hp Hh Hm Hc.
  assert (Hn : all amount_chr (p ++ "," ++ c) = true).
  { rewrite all_app. cbn [append all].
    rewrite (all_impl plain amount_chr p plain_amount_chr Hp).
    now rewrite (all_impl is_digit amount_chr c digit_amount_chr Hc). }
  assert (S : strip (p ++ "," ++ c) = p ++ "," ++ c)
    by (apply strip_no_space; exact (all_impl _ _ _ amount_chr_not_space Hn)).
  assert (Ne : is_empty (strip (p ++ "," ++ c)) = false).
  { rewrite S. destruct p; [discriminate Hh | reflexivity]. }
  rewrite (parse_amount_unfold _ Ne), S.
  assert (U : unsigned_text (p ++ "," ++ c) = p ++ "," ++ c).
  { unfold unsigned_text. fold (unmarked (p ++ "," ++ c)).
    now rewrite (unmarked_amount _ Hn). }
  rewrite U.
  assert (Pc : mem "." c = false) by (apply (all_mem_false is_digit); auto).
  assert (Cc : mem "," c = false) by (apply (all_mem_false is_digit); auto).
  assert (Dp := grouped_digits p Hp).
  assert (Cp : mem "," (replace "." EmptyString p) = false)
    by (apply (all_mem_false is_digit); auto).
  assert (D : decimal_text (p ++ "," ++ c) = replace "." EmptyString p ++ "." ++ c).
  { unfold decimal_text. rewrite !mem_app. cbn [append mem].
    rewrite Hm, Ascii.eqb_refl, !orb_true_r. cbn [andb].
    rewrite (replace_app "." EmptyString p). cbn [replace]. cbn.
    rewrite (replace_absent "." EmptyString c Pc).
    rewrite (replace_app "," "." (replace "." EmptyString p)). cbn [replace]. cbn.
    now rewrite (replace_absent "," "." _ Cp), (replace_absent "," "." c Cc). }
  rewrite D, float_of_str_decimal; [|exact Dp| |exact Hc].
  - destruct p as [|x p]; [discriminate Hh|].
    cbn [head_in] in Hh. cbn [append startswith].
    rewrite (Ascii.eqb_sym "-" x), (Ascii.eqb_sym "(" x).
    now rewrite (digit_neq x "-"), (digit_neq x "(") by (assumption || reflexivity).
  - destruct p as [|x p]; [discriminate Hh|].
    cbn [head_in] in Hh. cbn [replace].
    rewrite (digit_neq x ".") by (assumption || reflexivity). discriminate.
Qed.

Lemma parse_amount_thousands_witness :
  parse_amount "3.051.644,80" = of_decimal false 305164480 (-2).
Proof.
  apply (parse_amount_thousands "3.051.644" "80"); reflexivity.
Defined.

(** X13. The amount of every parsed line is the double nearest to a decimal
    number.  The last element of [re.findall] on the text after the date,
    which is the text of the amount, is made of an optional hyphen, digits,
    one comma or period, and digits; it is the last text of that form on
    the line; the amount is the number that these digits spell with that
    separator as the decimal point, negated exactly when the hyphen is
    there.  A thousands separator is therefore never read in a line: on
    "... 1.234,56" the last element is "1.234" and the amount is 1.234,
    where [parse_amount] alone would have read 1234.56. *)
Theorem line_amount_is_a_decimal (line : string) (t : Transaction) :
  parse_transaction_line line = Some t ->
  exists date_text rest earlier before sgn a c b behind,
    line_parts line = Some (date_text, rest)
    /\ re_findall number_re rest = (earlier ++ [(sgn ++ a ++ String c b)%string])%list
    /\ rest = before ++ (sgn ++ a ++ String c b) ++ behind
    /\ (sgn = EmptyString \/ sgn = "-")
    /\ all is_digit a = true /\ a <> EmptyString
    /\ sep_chr c = true
    /\ all is_digit b = true /\ b <> EmptyString
    /\ (forall x w y, behind = x ++ w ++ y -> ~ number_shaped w)
    /\ amount t
       = if startswith "-" sgn
         then fneg (of_decimal false (int (a ++ b)) (- Z.of_nat (length b)))
         else of_decimal false (int (a ++ b)) (- Z.of_nat (length b)).
Proof.
  intros H. apply parse_transaction_line_inv in H.
  destruct H as (date_text & rest & amount_str & _ & Hp & _ & Hn & _ & Ha & _).
  destruct (last_number_spec _ _ Hn) as (before & behind & E & Hshape & Hlast).
  destruct (last_number_findall _ _ Hn) as [earlier Hf].
  destruct (number_shaped_amount _ Hshape)
    as (sgn & a & c & b & -> & Hs & Hda & Na & Hc & Hb & Nb & V).
  exists date_text, rest, earlier, before, sgn, a, c, b, behind.
  splits; auto. now rewrite Ha.
Qed.

Lemma line_amount_is_a_decimal_witness :
  parse_transaction_line "30-Nov-25 PUPPIS 02842 1.234,56" = Some puppis_grouped
  /\ re_findall number_re "PUPPIS 02842 1.234,56" = ["1.234"%string]
  /\ exists date_text rest earlier before sgn a c b behind,
       line_parts "30-Nov-25 PUPPIS 02842 1.234,56" = Some (date_text, rest)
       /\ re_findall number_re rest = (earlier ++ [(sgn ++ a ++ String c b)%string])%list
       /\ rest = before ++ (sgn ++ a ++ String c b) ++ behind
       /\ (sgn = EmptyString \/ sgn = "-")
       /\ all is_digit a = true /\ a <> EmptyString
       /\ sep_chr c = true
       /\ all is_digit b = true /\ b <> EmptyString
       /\ (forall x w y, behind = x ++ w ++ y -> ~ number_shaped w)
       /\ amount puppis_grouped
          = if startswith "-" sgn
            then fneg (of_decimal false (int (a ++ b)) (- Z.of_nat (length b)))
            else of_decimal false (int (a ++ b)) (- Z.of_nat (length b)).
Proof.
  split; [vm_compute; reflexivity|].
  split; [vm_compute; reflexivity|].
  apply (line_amount_is_a_decimal "30-Nov-25 PUPPIS 02842 1.234,56" puppis_grouped).
  vm_compute. reflexivity.
Defined.

(* ===================================================================== *)
(** ** The date of a line *)
(* ===================================================================== *)

Lemma alpha_not_space (c : ascii) : is_alpha c = true -> is_space c = false.
Proof.
  unfold is_alpha, is_upper, is_lower, is_space, between. intros H.
  assert (R : 65 <= code c <= 122).
  { apply orb_prop in H. destruct H as [H|H];
      apply andb_prop in H; destruct H as [H1 H2]; apply Nat.leb_le in H1, H2; lia. }
  rewrite (proj2 (Nat.leb_gt (code c) 13)) by lia.
  rewrite (proj2 (Nat.leb_gt (code c) 32)) by lia.
  rewrite (proj2 (Nat.eqb_neq (code c) 133)) by lia.
  rewrite (proj2 (Nat.eqb_neq (code c) 160)) by lia.
  now rewrite !andb_false_r.
Qed.

Lemma date_text_strip (dd mon yy : string) :
  all is_digit dd = true -> all is_alpha mon = true -> all is_digit yy = true ->
  strip (dd ++ "-" ++ mon ++ "-" ++ yy) = dd ++ "-" ++ mon ++ "-" ++ yy.
Proof.
  intros Hdd Hmon Hyy. apply strip_no_space.
  rewrite !all_app. cbn [all].
  rewrite (all_impl is_digit _ dd (fun c H => f_equal negb (digit_not_space c H)) Hdd).
  rewrite (all_impl is_alpha _ mon (fun c H => f_equal negb (alpha_not_space c H)) Hmon).
  rewrite (all_impl is_digit _ yy (fun c H => f_equal negb (digit_not_space c H)) Hyy).
  reflexivity.
Qed.

(** X14. The date of a parsed line is the date that [parse_date] reads on
    the whole line: the line parser cuts the date off and parses it again,
    without loss. *)
Theorem line_date_is_parse_date (line : string) (t : Transaction) :
  parse_transaction_line line = Some t -> parse_date line = Some (date t).
Proof.
  intros H. apply parse_transaction_line_inv in H.
  destruct H as (date_text & rest & amount_str & _ & Hp & Hd & _).
  apply line_parts_inv in Hp.
  destruct Hp as (dd & mon & yy & ws & body & behind & E & Hdd & Ldd & Hmon & Lmon
                  & Hyy & Lyy & _ & _ & _ & _ & -> & _).
  rewrite <- Hd.
  rewrite (parse_date_shape line dd mon yy (ws ++ body ++ behind)) by assumption.
  rewrite (parse_date_shape (dd ++ "-" ++ mon ++ "-" ++ yy) dd mon yy EmptyString);
    auto.
  now rewrite date_text_strip, !CutFacts.app_nil_r by assumption.
Qed.

Lemma line_date_is_parse_date_witness :
  parse_date "30-Nov-25 PUPPIS 02842 46500,00" = Some (date puppis).
Proof.
  apply (line_date_is_parse_date "30-Nov-25 PUPPIS 02842 46500,00" puppis).
  vm_compute. reflexivity.
Defined.

(* ===================================================================== *)
(** ** [backend/main.py]: the rows of an uploaded statement *)
(* ===================================================================== *)

Module UploadFacts.

Lemma fabs_not_negative (x : float) : fltb (fabs x) zero = false.
Proof. destruct x as [s| | |s m e]; reflexivity. Qed.

Lemma rows_of_amounts (user_id : Z) (cs : list models.Category) (statement_id : Z)
    (t : Transaction) (row : models.Transaction) :
  In row (rows_of user_id cs statement_id t) ->
  models.amount row = fabs (if models.is_dollar row then amount_dollars t else amount_pesos t)
  /\ models.merchant row = merchant t
  /\ models.date row = At (date t)
  /\ models.user_id row = user_id
  /\ models.statement_id row = statement_id
  /\ models.description row = description_of (coupon_number t).
Proof.
  unfold rows_of. rewrite in_app_iff.
  destruct (nonzero (amount_pesos t)); destruct (nonzero (amount_dollars t));
    cbn [In]; intros H; repeat destruct H as [H|H]; try contradiction;
    subst row; cbn; splits; reflexivity.
Qed.

Lemma rows_of_parsed (user_id : Z) (cs : list models.Category) (statement_id : Z)
    (line : string) (t : Transaction) :
  parse_transaction_line line = Some t ->
  rows_of user_id cs statement_id t
  = if nonzero (amount t) then
      [{| models.user_id := user_id;
          models.statement_id := statement_id;
          models.category_id :=
            id_of (if is_dollar t
                   then next_or (fun c => contains "suscripcion" (lower (models.name c)))
                                cs (category_of cs t)
                   else category_of cs t);
          models.merchant := merchant t;
          models.amount := fabs (amount t);
          models.is_dollar := is_dollar t;
          models.date := At (date t);
          models.description := description_of (coupon_number t) |}]
    else [].
Proof.
  intros H. apply parse_transaction_line_inv in H.
  destruct H as (_ & _ & _ & _ & _ & _ & _ & _ & _ & _ & _ & H).
  unfold rows_of, amount in *.
  destruct (is_dollar t); rewrite H; cbn [nonzero zero app].
  - destruct (nonzero (amount_dollars t)); reflexivity.
  - destruct (nonzero (amount_pesos t)); reflexivity.
Qed.

Lemma rows_of_categories (user_id : Z) (cs : list models.Category) (statement_id : Z)
    (t : Transaction) (row : models.Transaction) :
  In row (rows_of user_id cs statement_id t) ->
  models.category_id row
  = id_of (if models.is_dollar row
           then next_or (fun c => contains "suscripcion" (lower (models.name c)))
                        cs (category_of cs t)
           else category_of cs t).
Proof.
  unfold rows_of. rewrite in_app_iff.
  destruct (nonzero (amount_pesos t)); destruct (nonzero (amount_dollars t));
    cbn [In]; intros H; repeat destruct H as [H|H]; try contradiction;
    subst row; reflexivity.
Qed.

Lemma length_flat_map_filter {A B : Type} (f : A -> list B) (p : A -> bool) (l : list A) :
  Forall (fun x => List.length (f x) = if p x then 1 else 0) l ->
  List.length (flat_map f l) = List.length (List.filter p l).
Proof.
  induction 1 as [|x l Hx _ IH]; [reflexivity|].
  cbn [flat_map List.filter]. rewrite List.length_app, Hx, IH.
  destruct (p x); reflexivity.
Qed.

Lemma find_by_name_none (q : string -> bool) (names : list string)
    (cs : list models.Category) :
  (forall n, In n (List.map models.name cs) -> In n names) ->
  List.filter q names = [] ->
  List.find (fun c => q (models.name c)) cs = None.
Proof.
  intros Hn Hq. destruct (List.find _ cs) as [c|] eqn:F; [|reflexivity].
  apply find_some in F. destruct F as [Hin Hc].
  assert (In (models.name c) (List.filter q names)).
  { apply filter_In. split; [|exact Hc]. apply Hn, in_map, Hin. }
  rewrite Hq in H. destruct H.
Qed.

Lemma find_by_name_one (q : string -> bool) (names : list string) (n0 : string)
    (cs : list models.Category) :
  (forall n, In n names -> In n (List.map models.name cs)) ->
  (forall n, In n (List.map models.name cs) -> In n names) ->
  List.filter q names = [n0] ->
  exists c, List.find (fun c => q (models.name c)) cs = Some c
            /\ In c cs /\ models.name c = n0.
Proof.
  intros Hall Hn Hq.
  assert (H0 : In n0 (List.filter q names)) by (rewrite Hq; now left).
  apply filter_In in H0. destruct H0 as [Hin0 Hq0].
  apply Hall, in_map_iff in Hin0. destruct Hin0 as (c0 & E0 & Hc0).
  destruct (List.find (fun c => q (models.name c)) cs) as [c|] eqn:F.
  - apply find_some in F. destruct F as [Hin Hc]. exists c. splits; auto.
    assert (H : In (models.name c) (List.filter q names)).
    { apply filter_In. split; [|exact Hc]. apply Hn, in_map, Hin. }
    rewrite Hq in H. destruct H as [H|[]]. now symmetry.
  - exfalso. apply (find_none _ _ F) in Hc0. cbn beta in Hc0. congruence.
Qed.

Lemma has_names_rev (names : list string) (cs : list models.Category) :
  has_names names cs -> has_names names (rev cs).
Proof.
  intros H n. rewrite <- (H n), map_rev, <- in_rev. reflexivity.
Qed.

Lemma category_of_defaults (cs : list models.Category) (t : Transaction) :
  has_names DEFAULT_CATEGORIES cs ->
  exists c, category_of cs t = Some c /\ In c cs
            /\ models.name c = default_of (get_category_for_merchant (merchant t)).
Proof.
  intros Hcs. unfold category_of, category_lookup_get.
  pose proof (has_names_rev _ _ Hcs) as Hrev.
  assert (A1 : forall n, In n DEFAULT_CATEGORIES -> In n (List.map models.name cs))
    by (intros n; apply Hcs).
  assert (A2 : forall n, In n (List.map models.name cs) -> In n DEFAULT_CATEGORIES)
    by (intros n; apply Hcs).
  assert (R1 : forall n, In n DEFAULT_CATEGORIES -> In n (List.map models.name (rev cs)))
    by (intros n; apply Hrev).
  assert (R2 : forall n, In n (List.map models.name (rev cs)) -> In n DEFAULT_CATEGORIES)
    by (intros n; apply Hrev).
  assert (Found : forall label,
    List.filter (fun n => String.eqb (lower n) (lower label)) DEFAULT_CATEGORIES = [label] ->
    exists c,
      match List.find (fun c => String.eqb (lower (models.name c)) (lower label)) (rev cs) with
      | Some category => Some category
      | None =>
          next_or (fun c => contains (lower label) (lower (models.name c))) cs
                  (next_or is_otros cs None)
      end = Some c /\ In c cs /\ models.name c = label).
  { intros label F.
    destruct (find_by_name_one (fun n => String.eqb (lower n) (lower label))
                DEFAULT_CATEGORIES label (rev cs) R1 R2 F) as (c & -> & Hin & Hc).
    exists c. splits; auto. now apply in_rev. }
  assert (Missing : forall label,
    List.filter (fun n => String.eqb (lower n) (lower label)) DEFAULT_CATEGORIES = [] ->
    List.filter (fun n => contains (lower label) (lower n)) DEFAULT_CATEGORIES = [] ->
    exists c,
      match List.find (fun c => String.eqb (lower (models.name c)) (lower label)) (rev cs) with
      | Some category => Some category
      | None =>
          next_or (fun c => contains (lower label) (lower (models.name c))) cs
                  (next_or is_otros cs None)
      end = Some c /\ In c cs /\ models.name c = "Otros").
  { intros label F1 F2.
    rewrite (find_by_name_none (fun n => String.eqb (lower n) (lower label))
               DEFAULT_CATEGORIES (rev cs) R2 F1).
    unfold next_or at 1.
    rewrite (find_by_name_none (fun n => contains (lower label) (lower n))
               DEFAULT_CATEGORIES cs A2 F2).
    unfold next_or, is_otros.
    destruct (find_by_name_one (fun n => contains "otro" (lower n))
                DEFAULT_CATEGORIES "Otros" cs A1 A2 eq_refl) as (c & -> & Hin & Hc).
    exists c. auto. }
  pose proof (first_category_label (lower (merchant t)) categories) as L.
  fold (get_category_for_merchant (merchant t)) in L.
  cbn [categories List.map fst List.app In] in L.
  repeat (destruct L as [L|L];
          [rewrite <- L;
           first [ apply Found; vm_compute; reflexivity
                 | apply Missing; vm_compute; reflexivity ] |]).
  destruct L.
Qed.

(** The first element of a list that passes a test. *)
Lemma find_first {A : Type} (p : A -> bool) (l : list A) (x : A) :
  List.find p l = Some x ->
  exists before behind,
    l = (before ++ x :: behind)%list /\ p x = true
    /\ forall y, In y before -> p y = false.
Proof.
  induction l as [|y l IH]; [discriminate|].
  cbn [List.find]. destruct (p y) eqn:P.
  - intros E. injection E as <-. exists [], l. splits; auto. intros z [].
  - intros E. destruct (IH E) as (before & behind & -> & Hx & Hb).
    exists (y :: before), behind. splits; auto.
    intros z [<-|Hz]; [exact P | now apply Hb].
Qed.

(** The loop of [auto_categorize] returns the first category that passes
    its test. *)
Lemma keyword_category_find (merchant : string) (cs : list models.Category) :
  keyword_category (lower merchant) cs = List.find (has_keyword merchant) cs.
Proof.
  induction cs as [|c cs IH]; [reflexivity|].
  cbn [keyword_category List.find]. unfold has_keyword at 1.
  destruct (keywords_of (models.name c) CATEGORY_KEYWORDS) as [keywords|]; [|exact IH].
  destruct (any_in keywords (lower merchant)); [reflexivity | exact IH].
Qed.

End UploadFacts.

Import UploadFacts.

(** X15. What [upload_statement] stores for a parsed line: nothing when the
    amount is zero, else one row, in the currency of the line, with the
    merchant and the date of the line and the absolute value of the amount,
    so that the sign of a credit is lost.  A peso line goes to the category
    of its merchant; a dollar line to the first category whose name
    contains "suscripcion", if there is one, whatever its merchant. *)
Theorem parsed_line_is_stored_once (user_id : Z) (cs : list models.Category)
    (statement_id : Z) (line : string) (t : Transaction) :
  parse_transaction_line line = Some t ->
  rows_of user_id cs statement_id t
  = if nonzero (amount t) then
      [{| models.user_id := user_id;
          models.statement_id := statement_id;
          models.category_id :=
            id_of (if is_dollar t
                   then next_or (fun c => contains "suscripcion" (lower (models.name c)))
                                cs (category_of cs t)
                   else category_of cs t);
          models.merchant := merchant t;
          models.amount := fabs (amount t);
          models.is_dollar := is_dollar t;
          models.date := At (date t);
          models.description := description_of (coupon_number t) |}]
    else [].
Proof. apply rows_of_parsed. Qed.

Lemma parsed_line_is_stored_once_witness :
  rows_of 1 default_categories 7 puppis = [puppis_row].
Proof.
  rewrite (parsed_line_is_stored_once 1 default_categories 7
             "30-Nov-25 PUPPIS 02842 46500,00" puppis);
    vm_compute; reflexivity.
Defined.

(** X16. No row that [upload_statement] adds for a statement, the row of
    the taxes included, has an amount below zero; every row carries the
    user and the statement of the upload. *)
Theorem stored_amounts_are_not_negative (user_id : Z) (cs : list models.Category)
    (statement_id : Z) (statement_data : StatementData) (row : models.Transaction) :
  In row (transactions_created user_id cs statement_id statement_data) ->
  fltb (models.amount row) zero = false
  /\ models.user_id row = user_id /\ models.statement_id row = statement_id.
Proof.
  unfold transactions_created. rewrite in_app_iff, in_flat_map.
  intros [(t & _ & H)|H].
  - apply rows_of_amounts in H. destruct H as (-> & _ & _ & -> & -> & _).
    splits; [apply fabs_not_negative | reflexivity | reflexivity].
  - unfold impuestos_rows in H.
    destruct (fltb _ _); [|destruct H].
    destruct H as [<-|[]]. cbn. splits; [apply fabs_not_negative | reflexivity | reflexivity].
Qed.

Lemma stored_amounts_are_not_negative_witness :
  In devolucion_row
     (transactions_created 1 [] 7
        (parse_mastercard_pdf sum_left [Some "05-Dic-25 DEVOLUCION -150,00"]))
  /\ fltb (models.amount devolucion_row) zero = false
  /\ models.user_id devolucion_row = 1%Z /\ models.statement_id devolucion_row = 7%Z.
Proof.
  assert (H : In devolucion_row
                (transactions_created 1 [] 7
                   (parse_mastercard_pdf sum_left [Some "05-Dic-25 DEVOLUCION -150,00"])))
    by (vm_compute; left; reflexivity).
  split; [exact H|].
  exact (stored_amounts_are_not_negative 1 [] 7 _ devolucion_row H).
Defined.

(** X17. The number of rows stored for a parsed document, which becomes
    [transaction_count]: one for each parsed line whose amount is not zero,
    and one more when the residual in pesos is above 100 in absolute
    value. *)
Theorem stored_rows_count (sum : list float -> float) (user_id : Z)
    (cs : list models.Category) (statement_id : Z) (pages : list (option string)) :
  let statement_data := parse_mastercard_pdf sum pages in
  List.length (transactions_created user_id cs statement_id statement_data)
  = List.length (List.filter (fun t => nonzero (amount t)) (transactions statement_data))
    + (if fltb (of_Z 100) (fabs (impuestos_pesos statement_data)) then 1 else 0).
Proof.
  intros sd. unfold transactions_created. rewrite List.length_app. f_equal.
  - apply length_flat_map_filter. apply Forall_forall. intros t Hin.
    unfold sd in Hin. rewrite transactions_scan in Hin.
    apply scan_lines_inv in Hin. destruct Hin as (line & _ & P).
    rewrite (rows_of_parsed _ _ _ _ _ P).
    destruct (nonzero (amount t)); reflexivity.
  - unfold impuestos_rows. destruct (fltb _ _); reflexivity.
Qed.

(** X18. The rows stored for a line without a backslash have no
    description: the coupon number that the description would show is
    never found by the line parser. *)
Theorem stored_rows_have_no_coupon (user_id : Z) (cs : list models.Category)
    (statement_id : Z) (line : string) (t : Transaction) (row : models.Transaction) :
  mem "\" line = false ->
  parse_transaction_line line = Some t ->
  In row (rows_of user_id cs statement_id t) ->
  models.description row = None.
Proof.
  intros Hline H Hin. apply rows_of_amounts in Hin.
  destruct Hin as (_ & _ & _ & _ & _ & ->).
  apply parse_transaction_line_inv in H.
  destruct H as (date_text & rest & amount_str & _ & Hp & _ & Hn & _ & _ & Hc & _).
  rewrite Hc, find_coupon_needs_backslash; [reflexivity| |].
  - destruct (last_number_spec _ _ Hn) as (_ & _ & _ & Hshape & _).
    now apply number_shaped_sep.
  - exact (line_parts_no_backslash _ _ _ Hline Hp).
Qed.

Lemma stored_rows_have_no_coupon_witness :
  models.description puppis_row = None.
Proof.
  apply (stored_rows_have_no_coupon 1 default_categories 7
           "30-Nov-25 PUPPIS 02842 46500,00" puppis puppis_row).
  - reflexivity.
  - vm_compute. reflexivity.
  - vm_compute. left. reflexivity.
Defined.

(** X19. For a user whose categories bear the names of
    [DEFAULT_CATEGORIES], every row stored for a transaction has a
    category: "Suscripciones" for a dollar row; for a peso row the label
    that [get_category_for_merchant] gives when it is one of the default
    names, and "Otros" when it is not, which is the case of the labels
    [educacion], [tecnologia], "Mascotas" and "Pagos Digitales". *)
Theorem categories_with_the_defaults (user_id : Z) (cs : list models.Category)
    (statement_id : Z) (t : Transaction) (row : models.Transaction) :
  has_names DEFAULT_CATEGORIES cs ->
  In row (rows_of user_id cs statement_id t) ->
  exists c,
    In c cs /\ models.category_id row = Some (models.id c)
    /\ models.name c
       = if models.is_dollar row then "Suscripciones"
         else default_of (get_category_for_merchant (merchant t)).
Proof.
  intros Hcs Hin. rewrite (rows_of_categories _ _ _ _ _ Hin).
  destruct (category_of_defaults cs t Hcs) as (c & E & Hc & Hn).
  destruct (models.is_dollar row).
  - assert (A1 : forall n, In n DEFAULT_CATEGORIES -> In n (List.map models.name cs))
      by (intros n; apply Hcs).
    assert (A2 : forall n, In n (List.map models.name cs) -> In n DEFAULT_CATEGORIES)
      by (intros n; apply Hcs).
    destruct (find_by_name_one (fun n => contains "suscripcion" (lower n))
                DEFAULT_CATEGORIES "Suscripciones" cs A1 A2 eq_refl)
      as (c' & F & Hin' & Hc').
    exists c'. unfold next_or. rewrite F. splits; auto.
  - exists c. rewrite E. splits; auto.
Qed.

Lemma categories_with_the_defaults_witness :
  exists c,
    In c default_categories /\ models.category_id puppis_row = Some (models.id c)
    /\ models.name c = "Otros".
Proof.
  apply (categories_with_the_defaults 1 default_categories 7 puppis puppis_row).
  - intros n. apply iff_refl.
  - vm_compute. left. reflexivity.
Defined.

(** X20. [auto_categorize] returns the id of the first category of the
    list, in the order of the list, whose name is a key of
    [CATEGORY_KEYWORDS] with a keyword occurring in the lower-cased
    merchant.  Only when no category of the list is such does it return the
    id of the first category whose name contains "otro", and [None] when
    there is none either.  A keyword thus goes before "Otros" wherever
    "Otros" stands in the list, and between two categories with a keyword
    the order of the list decides: "Uber Eats" is food when "Comida y
    Restaurantes" comes before "Transporte", and transport when the list is
    reversed. *)
Theorem auto_categorize_picks_a_category (merchant : string)
    (cs : list models.Category) :
  match auto_categorize merchant cs with
  | Some i =>
      exists before c behind,
        cs = (before ++ c :: behind)%list /\ models.id c = i
        /\ ((has_keyword merchant c = true
             /\ forall c', In c' before -> has_keyword merchant c' = false)
            \/ ((forall c', In c' cs -> has_keyword merchant c' = false)
                /\ is_otros c = true
                /\ forall c', In c' before -> is_otros c' = false))
  | None =>
      forall c, In c cs -> has_keyword merchant c = false /\ is_otros c = false
  end
  /\ auto_categorize "STARBUCKS PALERMO" (rev default_categories) = Some 1%Z
  /\ auto_categorize "Uber Eats" default_categories = Some 1%Z
  /\ auto_categorize "Uber Eats" (rev default_categories) = Some 3%Z
  /\ auto_categorize "PUPPIS" default_categories = Some 8%Z.
Proof.
  split; [|splits; vm_compute; reflexivity].
  unfold auto_categorize. rewrite keyword_category_find.
  destruct (List.find (has_keyword merchant) cs) as [cat|] eqn:K.
  - apply find_first in K. destruct K as (before & behind & E & Hc & Hb).
    exists before, cat, behind. splits; auto.
  - unfold next_or, id_of.
    destruct (List.find is_otros cs) as [c|] eqn:F; cbn [option_map].
    + apply find_first in F. destruct F as (before & behind & E & Hc & Hb).
      exists before, c, behind. splits; auto. right. splits; auto.
      intros c' Hin. exact (find_none _ _ K c' Hin).
    + intros c Hin. split.
      * exact (find_none _ _ K c Hin).
      * exact (find_none _ _ F c Hin).
Qed.

(* ===================================================================== *)
(** ** Scanning for amounts *)
(* ===================================================================== *)

Module ScanFacts.

Lemma take_length (t : string) : take (length t) t = t.
Proof. rewrite <- (CutFacts.app_nil_r t) at 2. apply take_app_length. Qed.

(** Two runs of a class, each ended by a character out of it, that begin
    the same text are the same run. *)
Lemma run_split (p : ascii -> bool) (u : string) :
  forall u' x x' r r',
    all p u = true -> all p u' = true -> p x = false -> p x' = false ->
    u ++ String x r = u' ++ String x' r' -> u = u' /\ x = x' /\ r = r'.
Proof.
  induction u as [|c u IH]; intros u' x x' r r' Hu Hu' Hx Hx' E.
  - destruct u' as [|c' u'].
    + injection E as -> ->. auto.
    + injection E as -> _. cbn [all] in Hu'. rewrite Hx in Hu'. discriminate.
  - destruct u' as [|c' u'].
    + injection E as -> _. cbn [all] in Hu. rewrite Hx' in Hu. discriminate.
    + injection E as -> E. cbn [all] in Hu, Hu'.
      apply andb_prop in Hu, Hu'. destruct Hu as [_ Hu]. destruct Hu' as [_ Hu'].
      destruct (IH _ _ _ _ _ Hu Hu' Hx Hx' E) as (-> & -> & ->). auto.
Qed.

(** The amount pattern matches the whole of a text of its shape. *)
Lemma number_re_whole (a : string) (c : ascii) (b : string) :
  all is_digit a = true -> a <> EmptyString -> sep_chr c = true ->
  all is_digit b = true -> b <> EmptyString ->
  exists m, match_at number_re (a ++ String c b) = Some m
            /\ whole m = a ++ String c b.
Proof.
  intros Ha Na Hc Hb Nb.
  unfold match_at, number_re, opt, plus.
  assert (R : forall src,
              run src [Rep (chr "-") 0 (Some 1); Rep d 1 None; Chr sep_chr; Rep d 1 None]
                  (a ++ String c b) 0 init
              = Some (EmptyString, S (0 + length a) + length b, init)).
  { intros src. cbn [run].
    assert (K : rep d 1 None
                  (fun t' i' =>
                     match t' with
                     | String c0 t'0 =>
                         if sep_chr c0
                         then rep d 1 None (fun t'1 i'0 => Some (t'1, i'0, init)) t'0 (S i')
                         else None
                     | EmptyString => None
                     end) (a ++ String c b) 0
                = Some (EmptyString, S (0 + length a) + length b, init)).
    { apply rep_greedy;
        [ exact Ha | simpl; now apply sep_not_digit | now apply length_nonempty | ].
      rewrite Hc. rewrite <- (CutFacts.app_nil_r b) at 1.
      apply rep_greedy; [exact Hb | reflexivity | now apply length_nonempty | reflexivity]. }
    destruct a as [|a0 a]; [congruence|].
    cbn [all] in Ha. apply andb_prop in Ha. destruct Ha as [Ha0 _].
    cbn [append] in *. rewrite rep_stop.
    - exact K.
    - unfold chr. now rewrite (digit_neq a0 "-") by (assumption || reflexivity). }
  rewrite R. eexists. split; [reflexivity|]. cbn [whole].
  replace (S (0 + length a) + length b) with (length (a ++ String c b))
    by (rewrite length_app; cbn [length]; lia).
  apply take_length.
Qed.

(** Where the amount pattern cannot match: after an optional hyphen and a
    run of digits comes a character that is no digit and, if there are
    digits, no separator. *)
Lemma number_re_none (sgn ds : string) (x : ascii) (r : string) :
  sgn = EmptyString \/ sgn = "-" ->
  all is_digit ds = true -> is_digit x = false ->
  (ds <> EmptyString -> sep_chr x = false) ->
  (sgn = EmptyString -> ds = EmptyString -> x <> "-"%char) ->
  match_at number_re (sgn ++ ds ++ String x r) = None.
Proof.
  intros Hsgn Hds Hx Hsep Hminus.
  destruct (match_at number_re _) as [m|] eqn:M; [|reflexivity]. exfalso.
  apply number_re_sound in M. destruct M as [(sgn' & a & c & b & W & Hsgn' & Ha & Na & Hc & Hb & Nb) E].
  rewrite W in E. clear W.
  assert (Hc' : is_digit c = false) by now apply sep_not_digit.
  assert (Core : ds ++ String x r = a ++ String c (b ++ after m) -> False).
  { intros E'. destruct (run_split is_digit _ _ _ _ _ _ Hds Ha Hx Hc' E') as (-> & -> & _).
    rewrite (Hsep Na) in Hc. discriminate. }
  destruct a as [|a0 a]; [congruence|].
  cbn [all] in Ha. apply andb_prop in Ha. destruct Ha as [Ha0 Ha].
  destruct Hsgn as [-> | ->]; destruct Hsgn' as [-> | ->];
    rewrite ?CutFacts.app_assoc in E; cbn [append] in E.
  - apply Core. exact E.
  - destruct ds as [|d0 ds].
    + cbn [append] in E. injection E as -> _. now apply (Hminus eq_refl eq_refl).
    + cbn [append] in E. injection E as -> _. cbn [all] in Hds.
      discriminate Hds.
  - injection E as <- _. discriminate Ha0.
  - injection E as E. apply Core. exact E.
Qed.

Lemma findall_skip_all (r : regex) (t : string) :
  match_at r EmptyString = None -> findall_from r t (length t) = [].
Proof.
  intros H. induction t as [|c t IH]; cbn [length findall_from]; [now rewrite H | exact IH].
Qed.

Lemma findall_whole (r : regex) (t : string) (m : mobj) :
  match_at r EmptyString = None ->
  match_at r t = Some m -> whole m = t -> t <> EmptyString ->
  findall_from r t 0 = [t].
Proof.
  intros H0 M W N. destruct t as [|c t]; [congruence|].
  cbn [findall_from]. rewrite M, W. cbn [length pred].
  now rewrite findall_skip_all.
Qed.

(** What the amount pattern matches holds no space. *)
Lemma number_match_no_space (t : string) (m : mobj) :
  match_at number_re t = Some m ->
  mem " " (whole m) = false /\ t = whole m ++ after m.
Proof.
  intros M. apply number_re_sound in M.
  destruct M as [(sgn & a & c & b & -> & Hsgn & Ha & _ & Hc & Hb & _) E].
  split; [|exact E].
  rewrite !mem_app. cbn [mem].
  rewrite (all_mem_false is_digit " " a Ha eq_refl).
  rewrite (all_mem_false is_digit " " b Hb eq_refl).
  assert (Ascii.eqb " " c = false).
  { unfold sep_chr in Hc. apply orb_prop in Hc.
    destruct Hc as [H|H]; apply Ascii.eqb_eq in H; subst c; reflexivity. }
  destruct Hsgn as [-> | ->]; cbn [mem]; now rewrite H.
Qed.

Lemma prefix_before_space (u : string) :
  forall p r r', mem " " u = false -> u ++ r = p ++ String " " r' ->
                 length u <= length p.
Proof.
  induction u as [|x u IH]; intros p r r' Hu E; [cbn; lia|].
  cbn [mem] in Hu. apply orb_false_elim in Hu. destruct Hu as [Hx Hu].
  destruct p as [|y p]; cbn [append] in E.
  - injection E as -> _. discriminate Hx.
  - injection E as _ E. apply (IH _ _ _ Hu) in E. cbn [length]. lia.
Qed.

(** The scan of a text that ends with a space and an amount finds that
    amount last, whatever stands before the space. *)
Lemma findall_last_token (a : string) (c : ascii) (b : string) :
  all is_digit a = true -> a <> EmptyString -> sep_chr c = true ->
  all is_digit b = true -> b <> EmptyString ->
  forall p skip, skip <= length p ->
    exists l, findall_from number_re (p ++ String " " (a ++ String c b)) skip
              = (l ++ [(a ++ String c b)%string])%list.
Proof.
  intros Ha Na Hc Hb Nb.
  assert (G : findall_from number_re (a ++ String c b) 0 = [a ++ String c b]).
  { destruct (number_re_whole a c b Ha Na Hc Hb Nb) as (m & M & W).
    apply (findall_whole number_re _ m); auto.
    destruct a; [congruence | discriminate]. }
  induction p as [|y p IH]; intros skip L.
  - assert (skip = 0) by (cbn in L; lia). subst skip.
    exists []. cbn [append findall_from List.app].
    pose proof (number_re_none EmptyString EmptyString " " (a ++ String c b)) as M.
    cbn [append] in M. rewrite M; auto; try discriminate. 
  - destruct skip as [|n].
    + cbn [append findall_from].
      destruct (match_at number_re (String y (p ++ String " " (a ++ String c b)))) as [m|] eqn:M.
      * apply number_match_no_space in M. destruct M as [Hm E].
        assert (Lm : length (whole m) <= length (String y p)).
        { apply (prefix_before_space (whole m) (String y p) (after m) (a ++ String c b) Hm).
          rewrite <- E. reflexivity. }
        destruct (IH (pred (length (whole m)))) as [l El]; [cbn [length] in Lm; lia|].
        exists (whole m :: l). now rewrite El.
      * exact (IH 0 ltac:(lia)).
    + cbn [append findall_from]. apply IH. cbn [length] in L. lia.
Qed.

End ScanFacts.

Import ScanFacts.

(* ===================================================================== *)
(** ** Words set apart by single spaces *)
(* ===================================================================== *)

Module SpacedFacts.

Lemma dot_not_space (c : ascii) : is_space c = false -> dot c = true.
Proof.
  unfold dot. intros H. destruct (Ascii.eqb_spec c "010"); [subst c; discriminate H | reflexivity].
Qed.

Lemma digit_dot (c : ascii) : is_digit c = true -> dot c = true.
Proof. intros H. apply dot_not_space. now apply digit_not_space. Qed.

Lemma sep_dot (c : ascii) : sep_chr c = true -> dot c = true.
Proof.
  unfold sep_chr. intros H. apply orb_prop in H.
  destruct H as [H|H]; apply Ascii.eqb_eq in H; subst c; reflexivity.
Qed.

Lemma rep_all {A : Type} (p : ascii -> bool) (k : string -> nat -> option A)
    (w : string) (lo i : nat) (r : A) :
  all p w = true -> lo <= length w -> k EmptyString (i + length w) = Some r ->
  rep p lo None k w i = Some r.
Proof.
  intros Hw Hlo Hk. rewrite <- (CutFacts.app_nil_r w).
  now apply rep_greedy.
Qed.

(** The line pattern on a line whose text after the date has no line
    feed and begins with no white space: the groups are the date and that
    text. *)
Lemma line_re_match (dd mon yy rest : string) :
  all is_digit dd = true -> length dd = 1 \/ length dd = 2 ->
  all is_alpha mon = true -> length mon = 3 ->
  all is_digit yy = true -> length yy = 2 ->
  all dot rest = true -> head_in is_space rest = false -> rest <> EmptyString ->
  exists m,
    re_match line_re (dd ++ "-" ++ mon ++ "-" ++ yy ++ " " ++ rest) = Some m
    /\ group 1 (caps m) = dd ++ "-" ++ mon ++ "-" ++ yy
    /\ group 2 (caps m) = rest.
Proof.
  intros Hdd Ldd Hmon Lmon Hyy Lyy Hrest Hhead Nrest.
  destruct mon as [|m1 [|m2 [|m3 [|? ?]]]]; try discriminate Lmon.
  destruct yy as [|y1 [|y2 [|? ?]]]; try discriminate Lyy.
  simpl in Hmon, Hyy.
  apply andb_prop in Hmon; destruct Hmon as [Hm1 Hmon].
  apply andb_prop in Hmon; destruct Hmon as [Hm2 Hmon].
  apply andb_prop in Hmon; destruct Hmon as [Hm3 _].
  apply andb_prop in Hyy; destruct Hyy as [Hy1 Hyy].
  apply andb_prop in Hyy; destruct Hyy as [Hy2 _].
  destruct rest as [|r0 rest]; [congruence|].
  cbn [head_in] in Hhead.
  assert (Hs : s r0 && more None = false) by (unfold s; now rewrite Hhead).
  unfold re_match, match_at, line_re, times, plus.
  destruct dd as [|d1 [|d2 [|? ?]]]; simpl in Ldd;
    try (exfalso; destruct Ldd; discriminate).
  - simpl in Hdd. apply andb_prop in Hdd. destruct Hdd as [Hd1 _].
    cbn. repeat rep_step.
    rewrite (rep_stop _ _ _ _ _ _ _ Hs). unfold stop.
    erewrite rep_all; [ | exact Hrest | cbn [length]; lia | reflexivity ].
    eexists. split; [reflexivity|].
    cbn [caps]. unfold group. cbn [groups assoc Nat.eqb].
    split; [reflexivity|]. unfold slice. cbn [drop].
    replace (9 + length (String r0 rest) - 9) with (length (String r0 rest)) by lia.
    apply take_length.
  - simpl in Hdd. apply andb_prop in Hdd. destruct Hdd as [Hd1 Hdd].
    apply andb_prop in Hdd. destruct Hdd as [Hd2 _].
    cbn. repeat rep_step.
    rewrite (rep_stop _ _ _ _ _ _ _ Hs). unfold stop.
    erewrite rep_all; [ | exact Hrest | cbn [length]; lia | reflexivity ].
    eexists. split; [reflexivity|].
    cbn [caps]. unfold group. cbn [groups assoc Nat.eqb].
    split; [reflexivity|]. unfold slice. cbn [drop].
    replace (10 + length (String r0 rest) - 10) with (length (String r0 rest)) by lia.
    apply take_length.
Qed.

Lemma spaced_head (t : string) : spaced true t = true -> head_in is_space t = false.
Proof.
  destruct t as [|c t]; [discriminate|]. cbn [spaced head_in].
  destruct (Ascii.eqb c " "); [discriminate|].
  intros H. apply andb_prop in H. destruct H as [H _]. now apply negb_true_iff in H.
Qed.

Lemma spaced_dot (t : string) : forall f, spaced f t = true -> all dot t = true.
Proof.
  induction t as [|c t IH]; intros f H; [reflexivity|].
  cbn [spaced] in H. cbn [all].
  destruct (Ascii.eqb_spec c " ") as [->|].
  - apply andb_prop in H. destruct H as [_ H]. now rewrite (IH _ H).
  - apply andb_prop in H. destruct H as [Hc H]. apply negb_true_iff in Hc.
    now rewrite (dot_not_space c Hc), (IH _ H).
Qed.

Lemma spaced_no_newline (t : string) :
  forall f, spaced f t = true -> mem "010" t = false.
Proof.
  intros f H. apply (all_mem_false dot); [exact (spaced_dot t f H) | reflexivity].
Qed.

Lemma spaced_digits (k : string) : all is_digit k = true -> spaced false k = true.
Proof.
  induction k as [|c k IH]; [reflexivity|].
  cbn [all spaced]. intros H. apply andb_prop in H. destruct H as [Hc Hk].
  rewrite (digit_neq c " ") by (assumption || reflexivity).
  now rewrite (digit_not_space c Hc), (IH Hk).
Qed.

Lemma spaced_token (t k : string) :
  forall f, spaced f t = true -> all is_digit k = true -> k <> EmptyString ->
            spaced f (t ++ " " ++ k) = true.
Proof.
  induction t as [|c t IH]; intros f H Hk Nk.
  - destruct f; [discriminate H|]. cbn [append spaced]. cbn.
    destruct k as [|k0 k]; [congruence|].
    cbn [all] in Hk. apply andb_prop in Hk. destruct Hk as [H0 Hk].
    cbn [spaced]. rewrite (digit_neq k0 " ") by (assumption || reflexivity).
    now rewrite (digit_not_space k0 H0), (spaced_digits k Hk).
  - cbn [append spaced] in *. destruct (Ascii.eqb c " ").
    + apply andb_prop in H. destruct H as [Hf H]. now rewrite Hf, (IH _ H Hk Nk).
    + apply andb_prop in H. destruct H as [Hc H]. now rewrite Hc, (IH _ H Hk Nk).
Qed.

Lemma rstrip_spaced (t : string) :
  forall f, spaced f t = true ->
            rstrip_of is_space t = t /\ rstrip_of is_space (t ++ " ") = t.
Proof.
  induction t as [|c t IH]; intros f H; [split; reflexivity|].
  cbn [spaced] in H. cbn [append rstrip_of].
  destruct (Ascii.eqb_spec c " ") as [->|].
  - apply andb_prop in H. destruct H as [_ H].
    destruct (IH _ H) as [-> ->].
    destruct t as [|c' t]; [discriminate H|]. split; reflexivity.
  - apply andb_prop in H. destruct H as [Hc H]. apply negb_true_iff in Hc.
    destruct (IH _ H) as [-> ->]. rewrite Hc. split; reflexivity.
Qed.

Lemma strip_spaced (t : string) :
  well_spaced t = true -> strip t = t /\ strip (t ++ " ") = t.
Proof.
  intros H. unfold strip, strip_of.
  pose proof (spaced_head t H) as Hh.
  rewrite (lstrip_of_fix is_space t Hh).
  rewrite (lstrip_of_fix is_space (t ++ " "))
    by (destruct t; [discriminate H | exact Hh]).
  exact (rstrip_spaced t true H).
Qed.

Lemma rstrip_of_tail (p : ascii -> bool) (t b : string) :
  all (fun c => negb (p c)) b = true -> b <> EmptyString ->
  rstrip_of p (t ++ b) = t ++ b.
Proof.
  intros Hb Nb. induction t as [|c t IH].
  - now apply rstrip_of_none.
  - cbn [append rstrip_of]. rewrite IH.
    destruct t; destruct b; try congruence; cbn [append is_empty];
      now rewrite andb_false_r.
Qed.

Lemma strip_ends (t b : string) :
  head_in is_space (t ++ b) = false ->
  all (fun c => negb (is_space c)) b = true -> b <> EmptyString ->
  strip (t ++ b) = t ++ b.
Proof.
  intros Hh Hb Nb. unfold strip, strip_of.
  rewrite (lstrip_of_fix is_space _ Hh). now apply rstrip_of_tail.
Qed.

Lemma sub_from_hit (r : regex) (repl : string) (c : ascii) (t : string)
    (m : mobj) (n : nat) :
  match_at r (String c t) = Some m -> length (whole m) = S n ->
  sub_from r repl (String c t) 0 = repl ++ sub_from r repl t n.
Proof. intros M L. cbn [sub_from]. now rewrite M, L. Qed.

Lemma sub_from_miss (r : regex) (repl : string) (c : ascii) (t : string) :
  match_at r (String c t) = None ->
  sub_from r repl (String c t) 0 = String c (sub_from r repl t 0).
Proof. intros M. cbn [sub_from]. now rewrite M. Qed.

(** White space is normalised already. *)
Lemma sub_spaces_spaced (t : string) :
  forall f, spaced f t = true -> re_sub spaces_re " " t = t.
Proof.
  unfold re_sub.
  induction t as [|c t IH]; intros f H; [reflexivity|].
  cbn [spaced] in H.
  destruct (Ascii.eqb_spec c " ") as [->|].
  - apply andb_prop in H. destruct H as [_ H].
    destruct t as [|c' t]; [discriminate H|].
    assert (Hc' : is_space c' = false).
    { cbn [spaced] in H. destruct (Ascii.eqb c' " "); [discriminate H|].
      apply andb_prop in H. destruct H as [H _]. now apply negb_true_iff in H. }
    assert (M : match_at spaces_re (String " " (String c' t))
                = Some {| whole := " "; after := String c' t; caps := init |}).
    { unfold match_at, spaces_re, plus. cbn [run].
      rewrite rep_take by reflexivity. cbn [pred option_map].
      rewrite rep_stop by (unfold s; now rewrite Hc'). reflexivity. }
    rewrite (sub_from_hit _ _ _ _ _ 0 M eq_refl), (IH _ H). reflexivity.
  - apply andb_prop in H. destruct H as [Hc H]. apply negb_true_iff in Hc.
    assert (M : match_at spaces_re (String c t) = None).
    { unfold match_at, spaces_re, plus. cbn [run].
      rewrite rep_stop by (unfold s; now rewrite Hc). reflexivity. }
    now rewrite (sub_from_miss _ _ _ _ M), (IH _ H).
Qed.

(** A match of the pattern of a trailing coupon: white space, five digits,
    and the end of the text or a line feed before it. *)
Lemma trailing_coupon_inv (t : string) (m : mobj) :
  match_at trailing_coupon_re t = Some m ->
  exists ws ds rem,
    t = ws ++ ds ++ rem
    /\ all is_space ws = true /\ ws <> EmptyString
    /\ all is_digit ds = true /\ length ds = 5
    /\ (rem = EmptyString \/ rem = newline).
Proof.
  unfold match_at, trailing_coupon_re, plus, times.
  destruct (run t _ t 0 init) as [[[t' n] st]|] eqn:R; [|discriminate].
  intros _. cbn [run] in R.
  apply rep_inv in R. destruct R as (ws & t1 & -> & Hws & Lws & _ & R).
  apply rep_inv in R. destruct R as (ds & t2 & -> & Hds & Lds1 & Lds2 & R).
  cbn [within] in Lds2.
  exists ws, ds, t2. splits; auto.
  - intros ->. cbn in Lws. lia.
  - lia.
  - destruct t2 as [|x [|? ?]]; [now left | | discriminate R].
    destruct (Ascii.eqb_spec x "010") as [->|]; [now right | discriminate R].
Qed.

(** In words set apart by single spaces the pattern matches nowhere but
    before five digits that end the text. *)
Lemma sub_trailing_keep (t u : string) :
  forall f, spaced f t = true ->
            ((exists k, u = " " ++ k /\ all is_digit k = true)
             \/ (u = EmptyString /\ no_trailing_token t)) ->
            sub_from trailing_coupon_re EmptyString (t ++ u) 0
            = t ++ sub_from trailing_coupon_re EmptyString u 0.
Proof.
  induction t as [|c t IH]; intros f H Hu; [reflexivity|].
  cbn [spaced] in H.
  assert (Hu' : (exists k, u = " " ++ k /\ all is_digit k = true)
                \/ (u = EmptyString /\ no_trailing_token t)).
  { destruct Hu as [Hu|[-> Hu]]; [now left | right]. split; [reflexivity|].
    intros t1 k E. apply (Hu (String c t1) k). now rewrite E. }
  assert (M : match_at trailing_coupon_re (String c (t ++ u)) = None).
  { destruct (match_at trailing_coupon_re (String c (t ++ u))) as [m|] eqn:M;
      [|reflexivity]. exfalso.
    apply trailing_coupon_inv in M.
    destruct M as (ws & ds & rem & E & Hws & Nws & Hds & Lds & Hrem).
    destruct ws as [|w0 ws]; [congruence|].
    cbn [append] in E. injection E as <- E.
    cbn [all] in Hws. apply andb_prop in Hws. destruct Hws as [Hc Hws].
    destruct (Ascii.eqb_spec c " ") as [->|Nc].
    2:{ apply andb_prop in H. destruct H as [H _]. rewrite Hc in H. discriminate H. }
    apply andb_prop in H. destruct H as [_ H].
    destruct t as [|c' t]; [discriminate H|].
    assert (Hc' : is_space c' = false).
    { cbn [spaced] in H. destruct (Ascii.eqb c' " "); [discriminate H|].
      apply andb_prop in H. destruct H as [H _]. now apply negb_true_iff in H. }
    destruct ws as [|w1 ws].
    2:{ cbn [append] in E. injection E as -> _. cbn [all] in Hws.
        rewrite Hc' in Hws. discriminate Hws. }
    cbn [append] in E.
    assert (Sp : mem " " (ds ++ rem) = false).
    { rewrite mem_app, (all_mem_false is_digit " " ds Hds eq_refl).
      destruct Hrem as [-> | ->]; reflexivity. }
    destruct Hu as [(k & -> & Hk)|[-> Hu]].
    - rewrite <- E in Sp. cbn [append mem] in Sp.
      rewrite mem_app in Sp. cbn [mem] in Sp.
      rewrite Ascii.eqb_refl, !orb_true_r in Sp. discriminate Sp.
    - rewrite CutFacts.app_nil_r in E.
      destruct Hrem as [-> | ->].
      + rewrite CutFacts.app_nil_r in E.
        apply (Hu EmptyString ds); [now rewrite E | exact Hds | exact Lds].
      + pose proof (spaced_no_newline _ _ H) as Nl.
        rewrite E, mem_app in Nl. cbn [newline mem] in Nl.
        rewrite Ascii.eqb_refl, orb_true_r in Nl. discriminate Nl. }
  cbn [append]. rewrite (sub_from_miss _ _ _ _ M). f_equal.
  destruct (Ascii.eqb c " ").
  - apply andb_prop in H. destruct H as [_ H]. exact (IH _ H Hu').
  - apply andb_prop in H. destruct H as [_ H]. exact (IH _ H Hu').
Qed.

Lemma sub_trailing_token (k : string) :
  all is_digit k = true -> length k = 5 ->
  sub_from trailing_coupon_re EmptyString (" " ++ k) 0 = EmptyString.
Proof.
  intros Hk Lk.
  destruct k as [|k1 [|k2 [|k3 [|k4 [|k5 [|? ?]]]]]]; try discriminate Lk.
  cbn [all] in Hk.
  apply andb_prop in Hk; destruct Hk as [H1 Hk].
  apply andb_prop in Hk; destruct Hk as [H2 Hk].
  apply andb_prop in Hk; destruct Hk as [H3 Hk].
  apply andb_prop in Hk; destruct Hk as [H4 Hk].
  apply andb_prop in Hk; destruct Hk as [H5 _].
  assert (M : match_at trailing_coupon_re
                (String " " (String k1 (String k2 (String k3 (String k4 (String k5 EmptyString))))))
              = Some {| whole := String " " (String k1 (String k2 (String k3 (String k4 (String k5 EmptyString)))));
                        after := EmptyString; caps := init |}).
  { unfold match_at, trailing_coupon_re, plus, times. cbn [run].
    rewrite rep_take by reflexivity. cbn [pred option_map].
    rewrite rep_stop by (unfold s; now rewrite (digit_not_space k1 H1)).
    unfold stop at 1. repeat rep_step. reflexivity. }
  cbn [append]. rewrite (sub_from_hit _ _ _ _ _ 5 M eq_refl). reflexivity.
Qed.

Lemma startswith_length (w t : string) :
  startswith w t = true -> length w <= length t.
Proof.
  revert t. induction w as [|c w IH]; intros t H; [cbn; lia|].
  destruct t as [|x t]; [discriminate H|].
  cbn [startswith] in H. apply andb_prop in H. destruct H as [_ H].
  apply IH in H. cbn [length]. lia.
Qed.

Lemma startswith_refl (w : string) : startswith w w = true.
Proof. induction w as [|c w IH]; [reflexivity|]. cbn. now rewrite Ascii.eqb_refl. Qed.

Lemma rfind_opt_short (w t : string) :
  length t < length w -> rfind_opt w t = None.
Proof.
  induction t as [|c t IH]; intros L.
  - destruct w; [cbn in L; lia | reflexivity].
  - cbn [rfind_opt]. rewrite IH by (cbn [length] in L; lia).
    destruct (startswith w (String c t)) eqn:S; [|reflexivity].
    apply startswith_length in S. lia.
Qed.

Lemma rfind_opt_self (w : string) : w <> EmptyString -> rfind_opt w w = Some 0.
Proof.
  destruct w as [|c w]; [congruence|]. intros _.
  cbn [rfind_opt]. rewrite rfind_opt_short by (cbn [length]; lia).
  now rewrite startswith_refl.
Qed.

Lemma rfind_opt_app (w p : string) :
  w <> EmptyString -> rfind_opt w (p ++ w) = Some (length p).
Proof.
  intros N. induction p as [|c p IH]; [now apply rfind_opt_self|].
  cbn [append rfind_opt length]. now rewrite IH.
Qed.

Lemma slice_to_rfind (w p : string) :
  w <> EmptyString -> slice_to (p ++ w) (rfind w (p ++ w)) = p.
Proof.
  intros N. unfold rfind. rewrite (rfind_opt_app w p N). unfold slice_to.
  replace (Z.of_nat (length p) <? 0)%Z with false by (symmetry; apply Z.ltb_ge; lia).
  rewrite Nat2Z.id. apply take_app_length.
Qed.

End SpacedFacts.

Import SpacedFacts.

(* ===================================================================== *)
(** ** A line of the documented format *)
(* ===================================================================== *)

Ltac reassoc := repeat first [rewrite CutFacts.app_assoc | progress cbn [append]].

Section WellFormedLine.
Variables dd mon yy w tok a b : string.
Variable c : ascii.
Variable dt : datetime.
Hypothesis Hdd : all is_digit dd = true.
Hypothesis Ldd : length dd = 1 \/ length dd = 2.
Hypothesis Hmon : all is_alpha mon = true.
Hypothesis Lmon : length mon = 3.
Hypothesis Hyy : all is_digit yy = true.
Hypothesis Lyy : length yy = 2.
Hypothesis Hdt :
  datetime_new (int yy + 2000) (dict_get (lower mon) months 1) (int dd) = Some dt.
Hypothesis Hw : mem "\" w = false.
Hypothesis Sw : well_spaced w = true.
Hypothesis Htok :
  (tok = EmptyString /\ no_trailing_token w)
  \/ exists k, tok = k ++ " " /\ all is_digit k = true /\ length k = 5.
Hypothesis Ha : all is_digit a = true.
Hypothesis Na : a <> EmptyString.
Hypothesis Hc : sep_chr c = true.
Hypothesis Hb : all is_digit b = true.
Hypothesis Nb : b <> EmptyString.

Let amount_str : string := a ++ String c b.
Let rest : string := w ++ " " ++ tok ++ amount_str.
Let line : string := dd ++ "-" ++ mon ++ "-" ++ yy ++ " " ++ rest.

Lemma wf_tok_digits : all (fun x => is_digit x || Ascii.eqb x " ") tok = true.
Proof.
  destruct Htok as [[-> _]|(k & -> & Hk & _)]; [reflexivity|].
  rewrite all_app. cbn [all].
  rewrite (all_impl is_digit _ k (fun x H => eq_trans (f_equal (fun v => v || Ascii.eqb x " ") H) eq_refl) Hk).
  reflexivity.
Qed.

Lemma wf_amount_str : all amount_chr amount_str = true.
Proof.
  unfold amount_str. rewrite all_app. cbn [all].
  rewrite (all_impl is_digit amount_chr a digit_amount_chr Ha).
  rewrite (all_impl is_digit amount_chr b digit_amount_chr Hb).
  now rewrite (sep_amount_chr c Hc).
Qed.

Lemma wf_rest_dot : all dot rest = true.
Proof.
  unfold rest, amount_str. rewrite !all_app. cbn [all].
  rewrite (spaced_dot w true Sw).
  rewrite (all_impl is_digit dot a digit_dot Ha), (all_impl is_digit dot b digit_dot Hb).
  rewrite (sep_dot c Hc).
  destruct Htok as [[-> _]|(k & -> & Hk & _)]; [reflexivity|].
  rewrite all_app. cbn [all]. now rewrite (all_impl is_digit dot k digit_dot Hk).
Qed.

Lemma wf_rest_head : head_in is_space rest = false.
Proof.
  unfold rest. pose proof (spaced_head w Sw) as H.
  destruct w; [discriminate Sw | exact H].
Qed.

Lemma wf_rest_ends : exists t, rest = t ++ b.
Proof.
  exists (w ++ " " ++ tok ++ a ++ String c EmptyString).
  unfold rest, amount_str. reassoc. reflexivity.
Qed.

Lemma wf_b_not_space : all (fun x => negb (is_space x)) b = true.
Proof. exact (all_impl is_digit _ b (fun x H => f_equal negb (digit_not_space x H)) Hb). Qed.

Lemma wf_strip_rest : strip rest = rest.
Proof.
  destruct wf_rest_ends as [t E]. pose proof wf_rest_head as H.
  rewrite E in *. apply strip_ends; auto using wf_b_not_space.
Qed.

Lemma wf_strip_line : strip line = line.
Proof.
  destruct wf_rest_ends as [t E].
  assert (L : line = (dd ++ "-" ++ mon ++ "-" ++ yy ++ " " ++ t) ++ b).
  { unfold line. rewrite E. reassoc. reflexivity. }
  rewrite L. apply strip_ends; auto using wf_b_not_space.
  rewrite <- L. unfold line.
  destruct dd as [|d0 dd']; [cbn in Ldd; destruct Ldd; discriminate|].
  cbn [all] in Hdd. apply andb_prop in Hdd. destruct Hdd as [H0 _].
  cbn [append head_in]. now apply digit_not_space.
Qed.

Lemma wf_line_parts :
  line_parts line = Some (dd ++ "-" ++ mon ++ "-" ++ yy, rest).
Proof.
  unfold line_parts. rewrite wf_strip_line. unfold line.
  destruct (line_re_match dd mon yy rest Hdd Ldd Hmon Lmon Hyy Lyy
              wf_rest_dot wf_rest_head) as (m & -> & -> & ->).
  - unfold rest. destruct w; [discriminate Sw | discriminate].
  - now rewrite wf_strip_rest.
Qed.

Lemma wf_parse_date : parse_date (dd ++ "-" ++ mon ++ "-" ++ yy) = Some dt.
Proof.
  rewrite (parse_date_shape _ dd mon yy EmptyString); auto.
  now rewrite date_text_strip, !CutFacts.app_nil_r by assumption.
Qed.

Lemma wf_last_number : last_number rest = Some amount_str.
Proof.
  unfold last_number, re_findall.
  assert (F : exists l, findall_from number_re rest 0 = (l ++ [amount_str])%list).
  { unfold rest, amount_str.
    destruct Htok as [[-> _]|(k & -> & Hk & _)].
    - apply (findall_last_token a c b Ha Na Hc Hb Nb w 0). lia.
    - replace (w ++ " " ++ (k ++ " ") ++ a ++ String c b)
        with ((w ++ " " ++ k) ++ String " " (a ++ String c b))
        by (reassoc; reflexivity).
      apply (findall_last_token a c b Ha Na Hc Hb Nb (w ++ " " ++ k) 0). lia. }
  destruct F as [l ->]. now rewrite rev_unit.
Qed.

Lemma wf_no_backslash : mem "\" rest = false.
Proof.
  unfold rest. rewrite !mem_app. cbn [mem].
  rewrite Hw.
  rewrite (all_mem_false _ "\" tok wf_tok_digits eq_refl).
  now rewrite (all_mem_false amount_chr "\" amount_str wf_amount_str eq_refl).
Qed.

Lemma wf_find_coupon : find_coupon rest amount_str = EmptyString.
Proof.
  apply find_coupon_needs_backslash; [|exact wf_no_backslash].
  unfold amount_str. rewrite !mem_app. cbn [mem].
  unfold sep_chr in Hc. apply orb_prop in Hc.
  destruct Hc as [H|H]; apply Ascii.eqb_eq in H; rewrite H;
    rewrite ?Ascii.eqb_refl; cbn; now rewrite ?orb_true_r.
Qed.

Lemma wf_find_merchant : find_merchant rest amount_str EmptyString = w.
Proof.
  unfold find_merchant. cbn [is_empty negb].
  assert (N : amount_str <> EmptyString)
    by (unfold amount_str; destruct a; [congruence | discriminate]).
  unfold rest.
  replace (w ++ " " ++ tok ++ amount_str) with ((w ++ " " ++ tok) ++ amount_str)
    by (reassoc; reflexivity).
  rewrite (slice_to_rfind amount_str (w ++ " " ++ tok) N).
  destruct Htok as [[-> Hn]|(k & -> & Hk & Lk)].
  - cbn [append]. rewrite (proj2 (strip_spaced w Sw)).
    rewrite (sub_spaces_spaced w true Sw), (proj1 (strip_spaced w Sw)).
    unfold re_sub. rewrite <- (CutFacts.app_nil_r w) at 1.
    rewrite (sub_trailing_keep w EmptyString true Sw) by (right; auto).
    apply CutFacts.app_nil_r.
  - assert (Nk : k <> EmptyString) by (intros ->; discriminate Lk).
    pose proof (spaced_token w k true Sw Hk Nk) as S.
    replace (w ++ " " ++ k ++ " ") with ((w ++ " " ++ k) ++ " ")
      by (reassoc; reflexivity).
    rewrite (proj2 (strip_spaced _ S)).
    rewrite (sub_spaces_spaced _ true S), (proj1 (strip_spaced _ S)).
    unfold re_sub.
    rewrite (sub_trailing_keep w (" " ++ k) true Sw) by (left; eauto).
    rewrite (sub_trailing_token k Hk Lk). apply CutFacts.app_nil_r.
Qed.

Lemma wf_parse_amount :
  parse_amount amount_str = of_decimal false (int (a ++ b)) (- Z.of_nat (length b)).
Proof.
  rewrite (parse_amount_number amount_str EmptyString a c b EmptyString); auto.
  rewrite CutFacts.app_nil_r. apply strip_no_space.
  exact (all_impl _ _ _ amount_chr_not_space wf_amount_str).
Qed.

Lemma wf_line :
  is_subtotal_row line = false ->
  parse_transaction_line line
  = Some {| date := dt;
            merchant := w;
            coupon_number := EmptyString;
            amount_pesos :=
              if contains "USA," (upper rest) then zero
              else of_decimal false (int (a ++ b)) (- Z.of_nat (length b));
            amount_dollars :=
              if contains "USA," (upper rest)
              then of_decimal false (int (a ++ b)) (- Z.of_nat (length b))
              else zero;
            is_dollar := contains "USA," (upper rest) |}.
Proof.
  intros Hsub. unfold parse_transaction_line.
  rewrite Hsub, wf_line_parts, wf_parse_date, wf_last_number, wf_find_coupon,
    wf_find_merchant, wf_parse_amount.
  destruct (contains "USA," (upper rest)); reflexivity.
Qed.

End WellFormedLine.

(** X21. A line of the documented format is parsed, and to what: a date
    DD-Mmm-YY that exists, a space, a merchant made of words set apart by
    single spaces and free of backslashes, a space, optionally a coupon of
    five digits and a space, and an amount made of digits, a comma or a
    period, and digits.  When the line is not a subtotal row,
    [parse_transaction_line] returns a transaction with that date, with the
    merchant as written (digits, punctuation and all, the coupon taken
    off), with the amount as the decimal number it spells, put in the
    dollar field exactly when "USA," occurs in the upper-cased text after
    the date, and with an empty coupon number.  Without a coupon the
    merchant must not itself end with a space and five digits, which would
    be taken off. *)
Theorem well_formed_line_is_parsed (dd mon yy w tok a b : string) (c : ascii)
    (dt : datetime) :
  all is_digit dd = true -> length dd = 1 \/ length dd = 2 ->
  all is_alpha mon = true -> length mon = 3 ->
  all is_digit yy = true -> length yy = 2 ->
  datetime_new (int yy + 2000) (dict_get (lower mon) months 1) (int dd) = Some dt ->
  mem "\" w = false -> well_spaced w = true ->
  (tok = EmptyString /\ no_trailing_token w)
  \/ (exists k, tok = k ++ " " /\ all is_digit k = true /\ length k = 5) ->
  all is_digit a = true -> a <> EmptyString -> sep_chr c = true ->
  all is_digit b = true -> b <> EmptyString ->
  is_subtotal_row
    (dd ++ "-" ++ mon ++ "-" ++ yy ++ " " ++ w ++ " " ++ tok ++ a ++ String c b)
  = false ->
  parse_transaction_line
    (dd ++ "-" ++ mon ++ "-" ++ yy ++ " " ++ w ++ " " ++ tok ++ a ++ String c b)
  = Some {| date := dt;
            merchant := w;
            coupon_number := EmptyString;
            amount_pesos :=
              if contains "USA," (upper (w ++ " " ++ tok ++ a ++ String c b)) then zero
              else of_decimal false (int (a ++ b)) (- Z.of_nat (length b));
            amount_dollars :=
              if contains "USA," (upper (w ++ " " ++ tok ++ a ++ String c b))
              then of_decimal false (int (a ++ b)) (- Z.of_nat (length b))
              else zero;
            is_dollar :=
              contains "USA," (upper (w ++ " " ++ tok ++ a ++ String c b)) |}.
Proof.
  intros. now apply wf_line.
Qed.

Lemma well_formed_line_is_parsed_witness :
  parse_transaction_line
    ("26" ++ "-" ++ "Nov" ++ "-" ++ "25" ++ " "
     ++ "GOOGLE *YouTube (USA,ARS, 600,00)" ++ " " ++ "00761 " ++ "0" ++ String "," "41")
  = Some {| date := {| year := 2025; month := 11; day := 26 |};
            merchant := "GOOGLE *YouTube (USA,ARS, 600,00)";
            coupon_number := EmptyString;
            amount_pesos :=
              if contains "USA,"
                   (upper ("GOOGLE *YouTube (USA,ARS, 600,00)" ++ " " ++ "00761 "
                           ++ "0" ++ String "," "41"))
              then zero
              else of_decimal false (int ("0" ++ "41")) (- Z.of_nat (length "41"));
            amount_dollars :=
              if contains "USA,"
                   (upper ("GOOGLE *YouTube (USA,ARS, 600,00)" ++ " " ++ "00761 "
                           ++ "0" ++ String "," "41"))
              then of_decimal false (int ("0" ++ "41")) (- Z.of_nat (length "41"))
              else zero;
            is_dollar :=
              contains "USA,"
                (upper ("GOOGLE *YouTube (USA,ARS, 600,00)" ++ " " ++ "00761 "
                        ++ "0" ++ String "," "41")) |}.
Proof.
  apply (well_formed_line_is_parsed "26" "Nov" "25"
           "GOOGLE *YouTube (USA,ARS, 600,00)" "00761 " "0" "41" ","
           {| year := 2025; month := 11; day := 26 |});
    first [ reflexivity | discriminate | right; reflexivity
          | (right; exists "00761"; splits; reflexivity) ].
Defined.

(* ===================================================================== *)
(** ** The header, read where its labels stand *)
(* ===================================================================== *)

#[local] Arguments slice : simpl never.

Module HeaderFacts.

(** The search stops at the first place where the label of the pattern
    is read, if the pattern matches there. *)
Lemma re_search_at (w : string) (r : regex) (pre t : string) (m : mobj) :
  find_ci w (pre ++ t) = Some (length pre) ->
  match_at (lit_ci w ++ r)%list t = Some m ->
  re_search (lit_ci w ++ r)%list (pre ++ t) = Some (pre, m).
Proof.
  intros F M. induction pre as [|c pre IH].
  - cbn [append]. destruct t; cbn [re_search]; now rewrite M.
  - cbn [append] in *. cbn [find_ci length] in F.
    destruct (reads_ci w (String c (pre ++ t))) eqn:S; [discriminate F|].
    destruct (find_ci w (pre ++ t)) as [n|] eqn:Fn; [|discriminate F].
    cbn [option_map] in F. injection F as ->.
    cbn [re_search]. rewrite match_at_lit_ci_none by exact S.
    now rewrite (IH eq_refl).
Qed.

Lemma lit_ci_matches (w lbl : string) :
  spelt_ci w lbl = true -> matches_label (lit_ci w) lbl.
Proof.
  revert lbl. induction w as [|c w IH]; intros lbl E src r t i st x H.
  - destruct lbl; [|discriminate E]. cbn [length append] in *.
    now rewrite Nat.add_0_r in H.
  - destruct lbl as [|a lbl]; [discriminate E|].
    cbn [spelt_ci] in E. apply andb_prop in E. destruct E as [Ec E].
    cbn [lit_ci List.app append run]. rewrite Ec.
    apply (IH lbl E). cbn [length] in H. now rewrite Nat.add_succ_r in H.
Qed.

(** What is read for a character that is no white space is no white space. *)
Lemma spelt_head_not_space (w u : string) :
  spelt_ci w u = true -> head_in is_space w = false -> w <> EmptyString ->
  head_in is_space u = false /\ u <> EmptyString.
Proof.
  intros E H N. destruct w as [|c w]; [congruence|].
  destruct u as [|x u]; [discriminate E|]. split; [|discriminate].
  cbn [spelt_ci] in E. apply andb_prop in E. destruct E as [Ec _].
  unfold chr_ci in Ec. apply Ascii.eqb_eq in Ec.
  cbn [head_in] in *.
  now rewrite <- (is_space_lower_char x), Ec, is_space_lower_char.
Qed.

Lemma two_words_match (w1 w2 u1 ws u2 : string) :
  spelt_ci w1 u1 = true -> all is_space ws = true ->
  spelt_ci w2 u2 = true -> head_in is_space u2 = false -> u2 <> EmptyString ->
  matches_label (lit_ci w1 ++ [star s] ++ lit_ci w2)%list (u1 ++ ws ++ u2).
Proof.
  intros E1 Hws E2 Hh N2 src r t i st x H.
  rewrite <- !List.app_assoc, !CutFacts.app_assoc.
  apply (lit_ci_matches w1 u1 E1). cbn [List.app run star].
  apply rep_greedy; [exact Hws | | lia | ].
  - destruct u2; [congruence | exact Hh].
  - apply (lit_ci_matches w2 u2 E2).
    rewrite !length_app in H. now rewrite <- !Nat.add_assoc.
Qed.

Lemma slice_rel (src : string) (j a n : nat) (t : string) :
  drop j src = t -> slice (a + j) (n + (a + j)) src = take n (drop a t).
Proof.
  intros D. unfold slice.
  replace (n + (a + j) - (a + j)) with n by lia.
  now rewrite (Nat.add_comm a j), drop_add, D.
Qed.

(** The date after a label: white space, then the three fields, which the
    groups hold. *)
Lemma labelled_date_tail (src ws dd mon yy post : string) (i : nat) (st : state) :
  drop i src = ws ++ dd ++ "-" ++ mon ++ "-" ++ yy ++ post ->
  all is_space ws = true ->
  all is_digit dd = true -> length dd = 1 \/ length dd = 2 ->
  all is_alpha mon = true -> length mon = 3 ->
  all is_digit yy = true -> length yy = 2 ->
  exists x,
    run src [star s; Open 1; Rep d 1 (Some 2); Close 1; Chr (chr_ci "-");
             Open 2; times alpha 3; Close 2; Chr (chr_ci "-");
             Open 3; times d 2; Close 3]
        (ws ++ dd ++ "-" ++ mon ++ "-" ++ yy ++ post) i st = Some x
    /\ group 1 (snd x) = dd /\ group 2 (snd x) = mon /\ group 3 (snd x) = yy.
Proof.
  intros D Hws Hdd Ldd Hmon Lmon Hyy Lyy.
  pose proof (drop_next _ _ _ _ D) as D1.
  set (j := i + length ws) in *.
  destruct mon as [|m1 [|m2 [|m3 [|? ?]]]]; try discriminate Lmon.
  destruct yy as [|y1 [|y2 [|? ?]]]; try discriminate Lyy.
  simpl in Hmon, Hyy.
  apply andb_prop in Hmon; destruct Hmon as [Hm1 Hmon].
  apply andb_prop in Hmon; destruct Hmon as [Hm2 Hmon].
  apply andb_prop in Hmon; destruct Hmon as [Hm3 _].
  apply andb_prop in Hyy; destruct Hyy as [Hy1 Hyy].
  apply andb_prop in Hyy; destruct Hyy as [Hy2 _].
  unfold star, times. cbn [run].
  destruct dd as [|d1 [|d2 [|? ?]]]; simpl in Ldd;
    try (exfalso; destruct Ldd; discriminate).
  - simpl in Hdd. apply andb_prop in Hdd. destruct Hdd as [Hd1 _].
    eexists. split.
    + apply rep_greedy; [exact Hws | cbn; now apply digit_not_space | lia | ].
      fold j. cbn. repeat rep_step. reflexivity.
    + cbn [snd]. unfold group. cbn [groups assoc Nat.eqb].
      pose proof (slice_rel src j 0 1 _ D1) as G1.
      pose proof (slice_rel src j 2 3 _ D1) as G2.
      pose proof (slice_rel src j 6 2 _ D1) as G3.
      cbn [Nat.add take drop append] in G1, G2, G3.
      rewrite G1, G2, G3. splits; reflexivity.
  - simpl in Hdd. apply andb_prop in Hdd. destruct Hdd as [Hd1 Hdd].
    apply andb_prop in Hdd. destruct Hdd as [Hd2 _].
    eexists. split.
    + apply rep_greedy; [exact Hws | cbn; now apply digit_not_space | lia | ].
      fold j. cbn. repeat rep_step. reflexivity.
    + cbn [snd]. unfold group. cbn [groups assoc Nat.eqb].
      pose proof (slice_rel src j 0 2 _ D1) as G1.
      pose proof (slice_rel src j 3 3 _ D1) as G2.
      pose proof (slice_rel src j 7 2 _ D1) as G3.
      cbn [Nat.add take drop append] in G1, G2, G3.
      rewrite G1, G2, G3. splits; reflexivity.
Qed.

Lemma labelled_date_match (label : regex) (lbl ws dd mon yy post : string) :
  matches_label label lbl ->
  all is_space ws = true ->
  all is_digit dd = true -> length dd = 1 \/ length dd = 2 ->
  all is_alpha mon = true -> length mon = 3 ->
  all is_digit yy = true -> length yy = 2 ->
  exists m,
    match_at (labelled_date_re label)
             (lbl ++ ws ++ dd ++ "-" ++ mon ++ "-" ++ yy ++ post) = Some m
    /\ date_of_groups m
       = datetime_new (int yy + 2000) (dict_get (lower mon) months 1) (int dd).
Proof.
  intros Hl Hws Hdd Ldd Hmon Lmon Hyy Lyy.
  unfold match_at, labelled_date_re.
  set (src := lbl ++ ws ++ dd ++ "-" ++ mon ++ "-" ++ yy ++ post).
  assert (D : drop (0 + length lbl) src = ws ++ dd ++ "-" ++ mon ++ "-" ++ yy ++ post)
    by apply drop_app_length.
  destruct (labelled_date_tail src ws dd mon yy post (0 + length lbl) init
              D Hws Hdd Ldd Hmon Lmon Hyy Lyy) as (x & R & G1 & G2 & G3).
  apply Hl in R. unfold src at 2. rewrite R. destruct x as [[t' n] st'].
  eexists. split; [reflexivity|].
  unfold date_of_groups. cbn [caps]. cbn [snd] in G1, G2, G3.
  rewrite G1, G2, G3.
  rewrite (parse_date_shape _ dd mon yy EmptyString); auto.
  now rewrite date_text_strip, !CutFacts.app_nil_r by assumption.
Qed.

Lemma space_not_amount (c : ascii) : is_space c = true -> amount_chr c = false.
Proof.
  intros H. destruct (amount_chr c) eqn:A; [|reflexivity].
  apply amount_chr_not_space in A. rewrite H in A. discriminate A.
Qed.

(** White space, then a text that begins with none. *)
Lemma run_spaces (src : string) (lo : nat) (r : regex) (ws t : string) (i : nat)
    (st : state) x :
  all is_space ws = true -> lo <= length ws -> head_in is_space t = false ->
  run src r t (i + length ws) st = Some x ->
  run src (Rep s lo None :: r) (ws ++ t) i st = Some x.
Proof.
  intros Hws Hlo Ht H. cbn [run]. now apply rep_greedy.
Qed.

(** A group of the characters of an amount, up to a character that is
    none. *)
Lemma run_amount_group (src : string) (g : nat) (r : regex) (w t : string) (i : nat)
    (st : state) x :
  drop i src = w ++ t ->
  all amount_chr w = true -> w <> EmptyString -> head_in amount_chr t = false ->
  run src r t (i + length w)
      {| marks := (g, i) :: marks st; groups := (g, w) :: groups st |} = Some x ->
  run src (Open g :: plus amount_chr :: Close g :: r) (w ++ t) i st = Some x.
Proof.
  intros D Hw Nw Ht H. unfold plus. cbn [run].
  apply rep_greedy; [exact Hw | exact Ht | now apply length_nonempty | ].
  cbn [run marks groups assoc]. rewrite Nat.eqb_refl.
  now rewrite (slice_at src i w t D).
Qed.

Lemma head_amount_not_space (g t : string) :
  all amount_chr g = true -> g <> EmptyString -> head_in is_space (g ++ t) = false.
Proof.
  destruct g as [|c g]; [congruence|]. cbn [all append head_in]. intros H _.
  apply andb_prop in H. destruct H as [H _].
  apply amount_chr_not_space in H. now apply negb_true_iff in H.
Qed.

Lemma head_space_not_amount (ws t : string) :
  all is_space ws = true -> ws <> EmptyString -> head_in amount_chr (ws ++ t) = false.
Proof.
  destruct ws as [|c ws]; [congruence|]. cbn [all append head_in]. intros H _.
  apply andb_prop in H. destruct H as [H _]. now apply space_not_amount.
Qed.

Lemma run_opt_take (src : string) (p : ascii -> bool) (r : regex) (c : ascii)
    (t : string) (i : nat) (st : state) x :
  p c = true -> run src r t (S i) st = Some x ->
  run src (opt p :: r) (String c t) i st = Some x.
Proof.
  intros Hc H. unfold opt. cbn [run].
  rewrite rep_take by (assumption || reflexivity). cbn [pred option_map].
  rewrite rep_bound. unfold stop at 1. now rewrite H.
Qed.

Lemma run_opt_skip (src : string) (p : ascii -> bool) (r : regex)
    (t : string) (i : nat) (st : state) x :
  head_in p t = false -> run src r t i st = Some x ->
  run src (opt p :: r) t i st = Some x.
Proof.
  intros Ht H. unfold opt. cbn [run].
  destruct t as [|c t]; [exact H|].
  cbn [head_in] in Ht. rewrite rep_stop by (now rewrite Ht). exact H.
Qed.

Lemma letter_u (x : ascii) :
  lower_char x = "u"%char -> amount_chr x = false /\ is_space x = false.
Proof.
  destruct x as [[] [] [] [] [] [] [] []]; vm_compute; intros H;
    first [split; reflexivity | discriminate H].
Qed.

Lemma amount_not_dollar (x : ascii) : amount_chr x = true -> chr_ci "$" x = false.
Proof.
  destruct x as [[] [] [] [] [] [] [] []]; vm_compute; intros H;
    first [reflexivity | discriminate H].
Qed.

Lemma saldo_pendiente_match (lbl ws1 g1 ws2 g2 post : string) :
  spelt_ci "SALDO PENDIENTE" lbl = true ->
  all is_space ws1 = true -> ws1 <> EmptyString ->
  all amount_chr g1 = true -> g1 <> EmptyString ->
  all is_space ws2 = true -> ws2 <> EmptyString ->
  all amount_chr g2 = true -> g2 <> EmptyString ->
  head_in amount_chr post = false ->
  exists m,
    match_at saldo_pendiente_re (lbl ++ ws1 ++ g1 ++ ws2 ++ g2 ++ post) = Some m
    /\ group 1 (caps m) = g1 /\ group 2 (caps m) = g2.
Proof.
  intros El H1 N1 Hg1 Ng1 H2 N2 Hg2 Ng2 Hpost.
  unfold match_at, saldo_pendiente_re.
  set (src := lbl ++ ws1 ++ g1 ++ ws2 ++ g2 ++ post).
  assert (D0 : drop (0 + length lbl) src = ws1 ++ g1 ++ ws2 ++ g2 ++ post)
    by apply drop_app_length.
  pose proof (drop_next _ _ _ _ D0) as D1.
  pose proof (drop_next _ _ _ _ D1) as D2.
  pose proof (drop_next _ _ _ _ D2) as D3.
  match goal with
  | |- context [run src ?r src 0 init] =>
      eassert (R : run src r src 0 init = Some _)
  end.
  { unfold src at 2.
    apply (lit_ci_matches "SALDO PENDIENTE" lbl El).
    cbn [List.app]. unfold plus at 1.
    apply run_spaces; [exact H1 | now apply length_nonempty
                      | now apply head_amount_not_space | ].
    apply (run_amount_group src 1 _ g1 _ _ _ _ D1 Hg1 Ng1);
      [now apply head_space_not_amount|].
    unfold plus at 1.
    apply run_spaces; [exact H2 | now apply length_nonempty
                      | now apply head_amount_not_space | ].
    apply (run_amount_group src 2 _ g2 _ _ _ _ D3 Hg2 Ng2); [exact Hpost|].
    cbn [run]. reflexivity. }
  rewrite R. eexists. split; [reflexivity|]. split; reflexivity.
Qed.

Lemma saldo_actual_match (lbl ws1 cur ws2 g1 ws3 us ws4 g2 post : string) :
  spelt_ci "SALDO ACTUAL" lbl = true ->
  all is_space ws1 = true ->
  (cur = "$" \/ (cur = EmptyString /\ ws2 = EmptyString)) ->
  all is_space ws2 = true ->
  all amount_chr g1 = true -> g1 <> EmptyString ->
  all is_space ws3 = true ->
  spelt_ci "U$S" us = true ->
  all is_space ws4 = true ->
  all amount_chr g2 = true -> g2 <> EmptyString ->
  head_in amount_chr post = false ->
  exists m,
    match_at saldo_actual_re
      (lbl ++ ws1 ++ cur ++ ws2 ++ g1 ++ ws3 ++ us ++ ws4 ++ g2 ++ post) = Some m
    /\ group 1 (caps m) = g1 /\ group 2 (caps m) = g2.
Proof.
  intros El H1 Hcur H2 Hg1 Ng1 H3 Eu H4 Hg2 Ng2 Hpost.
  destruct us as [|u0 us']; [discriminate Eu|].
  assert (Hu0 : lower_char u0 = "u"%char).
  { cbn [spelt_ci] in Eu. apply andb_prop in Eu. destruct Eu as [Eu _].
    unfold chr_ci in Eu. now apply Ascii.eqb_eq in Eu. }
  destruct (letter_u u0 Hu0) as [Ua Us].
  set (us := String u0 us') in *.
  assert (Hus : forall t, head_in is_space (us ++ t) = false) by (intros; exact Us).
  assert (Hua : forall t, head_in amount_chr (us ++ t) = false) by (intros; exact Ua).
  clearbody us.
  assert (Hg3 : head_in amount_chr (ws3 ++ us ++ ws4 ++ g2 ++ post) = false).
  { destruct ws3 as [|c3 ws3']; [apply Hua|].
    cbn [all] in H3. apply andb_prop in H3. destruct H3 as [H3 _].
    cbn [append head_in]. now apply space_not_amount. }
  unfold match_at, saldo_actual_re.
  destruct Hcur as [-> | [-> ->]].
  - set (src := lbl ++ ws1 ++ "$" ++ ws2 ++ g1 ++ ws3 ++ us ++ ws4 ++ g2 ++ post).
    assert (D0 : drop (0 + length lbl) src
                 = ws1 ++ "$" ++ ws2 ++ g1 ++ ws3 ++ us ++ ws4 ++ g2 ++ post)
      by apply drop_app_length.
    pose proof (drop_next _ _ _ _ D0) as D1.
    pose proof (drop_S _ _ _ _ D1) as D2.
    pose proof (drop_next _ _ _ _ D2) as D3.
    pose proof (drop_next _ _ _ _ D3) as D4.
    pose proof (drop_next _ _ _ _ D4) as D5.
    pose proof (drop_next _ _ _ _ D5) as D6.
    pose proof (drop_next _ _ _ _ D6) as D7.
    match goal with
    | |- context [run src ?r src 0 init] =>
        eassert (R : run src r src 0 init = Some _)
    end.
    { unfold src at 2.
      apply (lit_ci_matches "SALDO ACTUAL" lbl El).
      cbn [List.app]. unfold star at 1.
      apply run_spaces; [exact H1 | lia | reflexivity | ].
      apply run_opt_take; [reflexivity|].
      unfold star at 1.
      apply run_spaces; [exact H2 | lia | now apply head_amount_not_space | ].
      apply (run_amount_group src 1 _ g1 _ _ _ _ D3 Hg1 Ng1); [exact Hg3|].
      unfold star at 1.
      apply run_spaces; [exact H3 | lia | apply Hus | ].
      apply (lit_ci_matches "U$S" us Eu).
      unfold star at 1.
      apply run_spaces; [exact H4 | lia | now apply head_amount_not_space | ].
      apply (run_amount_group src 2 _ g2 _ _ _ _ D7 Hg2 Ng2); [exact Hpost|].
      cbn [run]. reflexivity. }
    rewrite R. eexists. split; [reflexivity|]. split; reflexivity.
  - cbn [append].
    set (src := lbl ++ ws1 ++ g1 ++ ws3 ++ us ++ ws4 ++ g2 ++ post).
    assert (D0 : drop (0 + length lbl) src
                 = ws1 ++ g1 ++ ws3 ++ us ++ ws4 ++ g2 ++ post)
      by apply drop_app_length.
    pose proof (drop_next _ _ _ _ D0) as D1.
    pose proof (drop_next _ _ EmptyString _ D1) as D3.
    pose proof (drop_next _ _ _ _ D3) as D4.
    pose proof (drop_next _ _ _ _ D4) as D5.
    pose proof (drop_next _ _ _ _ D5) as D6.
    pose proof (drop_next _ _ _ _ D6) as D7.
    match goal with
    | |- context [run src ?r src 0 init] =>
        eassert (R : run src r src 0 init = Some _)
    end.
    { unfold src at 2.
      apply (lit_ci_matches "SALDO ACTUAL" lbl El).
      cbn [List.app]. unfold star at 1.
      apply run_spaces; [exact H1 | lia | now apply head_amount_not_space | ].
      apply run_opt_skip.
      { destruct g1 as [|c1 g1']; [congruence|].
        cbn [all] in Hg1. apply andb_prop in Hg1. destruct Hg1 as [Hc1 _].
        cbn [append head_in]. now apply amount_not_dollar. }
      unfold star at 1.
      apply (run_spaces src 0 _ EmptyString);
        [reflexivity | lia | now apply head_amount_not_space | ].
      apply (run_amount_group src 1 _ g1 _ _ _ _ D3 Hg1 Ng1); [exact Hg3|].
      unfold star at 1.
      apply run_spaces; [exact H3 | lia | apply Hus | ].
      apply (lit_ci_matches "U$S" us Eu).
      unfold star at 1.
      apply run_spaces; [exact H4 | lia | now apply head_amount_not_space | ].
      apply (run_amount_group src 2 _ g2 _ _ _ _ D7 Hg2 Ng2); [exact Hpost|].
      cbn [run]. reflexivity. }
    rewrite R. eexists. split; [reflexivity|]. split; reflexivity.
Qed.

End HeaderFacts.

Import HeaderFacts.

(** X22. The date of the statement is read where its label stands first:
    when the first place of the page where the pattern reads "ESTADO DE
    CUENTA AL:" (in the relation of [re.IGNORECASE] between characters) is
    followed by white space (or none) and DD-Mmm-YY,
    [extract_statement_date] returns the date that [datetime] builds from
    these fields, with its month and its year, and [(None, 0, 0)] when
    there is no such day. *)
Theorem statement_date_is_read (pre lbl ws dd mon yy post : string) :
  spelt_ci "ESTADO DE CUENTA AL:" lbl = true ->
  find_ci "ESTADO DE CUENTA AL:"
          (pre ++ lbl ++ ws ++ dd ++ "-" ++ mon ++ "-" ++ yy ++ post)
  = Some (length pre) ->
  all is_space ws = true ->
  all is_digit dd = true -> length dd = 1 \/ length dd = 2 ->
  all is_alpha mon = true -> length mon = 3 ->
  all is_digit yy = true -> length yy = 2 ->
  extract_statement_date (pre ++ lbl ++ ws ++ dd ++ "-" ++ mon ++ "-" ++ yy ++ post)
  = match datetime_new (int yy + 2000) (dict_get (lower mon) months 1) (int dd) with
    | Some date_obj => (Some date_obj, month date_obj, year date_obj)
    | None => (None, 0, 0)%Z
    end.
Proof.
  intros El F Hws Hdd Ldd Hmon Lmon Hyy Lyy.
  destruct (labelled_date_match (lit_ci "ESTADO DE CUENTA AL:") lbl ws dd mon yy post)
    as (m & M & G); auto.
  { apply lit_ci_matches. exact El. }
  unfold extract_statement_date.
  unfold labelled_date_re in *.
  rewrite (re_search_at "ESTADO DE CUENTA AL:" _ pre _ m F M), G.
  reflexivity.
Qed.

Lemma statement_date_is_read_witness :
  extract_statement_date
    ("RESUMEN" ++ "Estado de Cuenta al:" ++ " " ++ "31" ++ "-" ++ "Dic" ++ "-" ++ "25"
     ++ " PROXIMO CIERRE: 29-Ene-26")
  = (Some {| year := 2025; month := 12; day := 31 |}, 12, 2025)%Z.
Proof.
  rewrite (statement_date_is_read "RESUMEN" "Estado de Cuenta al:" " " "31" "Dic" "25"
             " PROXIMO CIERRE: 29-Ene-26");
    first [reflexivity | right; reflexivity].
Defined.

(** X23. Likewise for the next closing and the next due day: when
    "PROXIMO", white space or none and "CIERRE:" (or "VENCIMIENTO:"), as
    the pattern reads them under [re.IGNORECASE], stand at the first place
    of the page where the pattern reads "PROXIMO", followed by white space
    or none and DD-Mmm-YY, [extract_proximo_cierre] (or
    [extract_proximo_vencimiento]) returns the date of these fields, or
    [None] when there is no such day. *)
Theorem next_dates_are_read (pre u1 ws0 u2 ws dd mon yy post : string) :
  spelt_ci "PROXIMO" u1 = true -> all is_space ws0 = true ->
  find_ci "PROXIMO"
          (pre ++ (u1 ++ ws0 ++ u2) ++ ws ++ dd ++ "-" ++ mon ++ "-" ++ yy ++ post)
  = Some (length pre) ->
  all is_space ws = true ->
  all is_digit dd = true -> length dd = 1 \/ length dd = 2 ->
  all is_alpha mon = true -> length mon = 3 ->
  all is_digit yy = true -> length yy = 2 ->
  (spelt_ci "CIERRE:" u2 = true ->
   extract_proximo_cierre
     (pre ++ (u1 ++ ws0 ++ u2) ++ ws ++ dd ++ "-" ++ mon ++ "-" ++ yy ++ post)
   = datetime_new (int yy + 2000) (dict_get (lower mon) months 1) (int dd))
  /\ (spelt_ci "VENCIMIENTO:" u2 = true ->
      extract_proximo_vencimiento
        (pre ++ (u1 ++ ws0 ++ u2) ++ ws ++ dd ++ "-" ++ mon ++ "-" ++ yy ++ post)
      = datetime_new (int yy + 2000) (dict_get (lower mon) months 1) (int dd)).
Proof.
  intros E1 Hws0 F Hws Hdd Ldd Hmon Lmon Hyy Lyy.
  split; intros E2.
  - destruct (spelt_head_not_space "CIERRE:" u2 E2 eq_refl ltac:(discriminate))
      as [Hh N2].
    destruct (labelled_date_match
                (lit_ci "PROXIMO" ++ [star s] ++ lit_ci "CIERRE:")%list
                (u1 ++ ws0 ++ u2) ws dd mon yy post) as (m & M & G); auto.
    { now apply two_words_match. }
    unfold extract_proximo_cierre. unfold labelled_date_re in *.
    rewrite <- !List.app_assoc in *.
    now rewrite (re_search_at "PROXIMO" _ pre _ m F M), G.
  - destruct (spelt_head_not_space "VENCIMIENTO:" u2 E2 eq_refl ltac:(discriminate))
      as [Hh N2].
    destruct (labelled_date_match
                (lit_ci "PROXIMO" ++ [star s] ++ lit_ci "VENCIMIENTO:")%list
                (u1 ++ ws0 ++ u2) ws dd mon yy post) as (m & M & G); auto.
    { now apply two_words_match. }
    unfold extract_proximo_vencimiento. unfold labelled_date_re in *.
    rewrite <- !List.app_assoc in *.
    now rewrite (re_search_at "PROXIMO" _ pre _ m F M), G.
Qed.

Lemma next_dates_are_read_witness :
  extract_proximo_cierre
    ("AL: 31-Dic-25 " ++ ("Proximo" ++ "  " ++ "CIERRE:") ++ " " ++ "29" ++ "-" ++ "Ene"
     ++ "-" ++ "26" ++ " PROXIMO VENCIMIENTO: 11-Feb-26")
  = Some {| year := 2026; month := 1; day := 29 |}.
Proof.
  refine (proj1 (next_dates_are_read "AL: 31-Dic-25 " "Proximo" "  " "CIERRE:" " "
                   "29" "Ene" "26" " PROXIMO VENCIMIENTO: 11-Feb-26"
                   _ _ _ _ _ _ _ _ _ _) _);
    first [reflexivity | right; reflexivity].
Defined.

(** X24. The current balances are read where their label stands first:
    after the first place of the page where the pattern reads "SALDO
    ACTUAL" (in the relation of [re.IGNORECASE] between characters), white
    space, an optional "$", white space, a run of digits, periods and
    commas, white space, "U$S" as the pattern reads it, white space and a
    second such run, [extract_saldo_actual] returns [parse_amount] of the
    first run and of the second. *)
Theorem saldo_actual_is_read (pre lbl ws1 cur ws2 g1 ws3 us ws4 g2 post : string) :
  spelt_ci "SALDO ACTUAL" lbl = true ->
  find_ci "SALDO ACTUAL"
          (pre ++ lbl ++ ws1 ++ cur ++ ws2 ++ g1 ++ ws3 ++ us ++ ws4 ++ g2 ++ post)
  = Some (length pre) ->
  all is_space ws1 = true ->
  (cur = "$" \/ (cur = EmptyString /\ ws2 = EmptyString)) ->
  all is_space ws2 = true ->
  all amount_chr g1 = true -> g1 <> EmptyString ->
  all is_space ws3 = true ->
  spelt_ci "U$S" us = true ->
  all is_space ws4 = true ->
  all amount_chr g2 = true -> g2 <> EmptyString ->
  head_in amount_chr post = false ->
  extract_saldo_actual
    (pre ++ lbl ++ ws1 ++ cur ++ ws2 ++ g1 ++ ws3 ++ us ++ ws4 ++ g2 ++ post)
  = (parse_amount g1, parse_amount g2).
Proof.
  intros El F H1 Hcur H2 Hg1 Ng1 H3 Eu H4 Hg2 Ng2 Hpost.
  destruct (saldo_actual_match lbl ws1 cur ws2 g1 ws3 us ws4 g2 post)
    as (m & M & G1 & G2); auto.
  unfold extract_saldo_actual. unfold saldo_actual_re in *.
  now rewrite (re_search_at "SALDO ACTUAL" _ pre _ m F M), G1, G2.
Qed.

Lemma saldo_actual_is_read_witness :
  extract_saldo_actual
    ("RESUMEN " ++ "Saldo Actual" ++ " " ++ "$" ++ " " ++ "3.051.644,80" ++ " "
     ++ "U$S" ++ " " ++ "488,62" ++ " PAGO MINIMO")
  = (parse_amount "3.051.644,80", parse_amount "488,62").
Proof.
  apply (saldo_actual_is_read "RESUMEN " "Saldo Actual" " " "$" " " "3.051.644,80"
           " " "U$S" " " "488,62" " PAGO MINIMO");
    first [reflexivity | discriminate | left; reflexivity].
Defined.

(** X25. The balances of the month before are read where their label
    stands first: after the first place of the page where the pattern
    reads "SALDO PENDIENTE" (in the relation of [re.IGNORECASE] between
    characters), white space, a run of digits, periods and commas, white
    space and a second such run, [extract_saldo_pendiente] returns
    [parse_amount] of the first run and of the second. *)
Theorem saldo_pendiente_is_read (pre lbl ws1 g1 ws2 g2 post : string) :
  spelt_ci "SALDO PENDIENTE" lbl = true ->
  find_ci "SALDO PENDIENTE" (pre ++ lbl ++ ws1 ++ g1 ++ ws2 ++ g2 ++ post)
  = Some (length pre) ->
  all is_space ws1 = true -> ws1 <> EmptyString ->
  all amount_chr g1 = true -> g1 <> EmptyString ->
  all is_space ws2 = true -> ws2 <> EmptyString ->
  all amount_chr g2 = true -> g2 <> EmptyString ->
  head_in amount_chr post = false ->
  extract_saldo_pendiente (pre ++ lbl ++ ws1 ++ g1 ++ ws2 ++ g2 ++ post)
  = (parse_amount g1, parse_amount g2).
Proof.
  intros El F H1 N1 Hg1 Ng1 H2 N2 Hg2 Ng2 Hpost.
  destruct (saldo_pendiente_match lbl ws1 g1 ws2 g2 post) as (m & M & G1 & G2); auto.
  unfold extract_saldo_pendiente. unfold saldo_pendiente_re in *.
  now rewrite (re_search_at "SALDO PENDIENTE" _ pre _ m F M), G1, G2.
Qed.

Lemma saldo_pendiente_is_read_witness :
  extract_saldo_pendiente
    ("DETALLE " ++ "SALDO PENDIENTE" ++ "     " ++ "160594,67" ++ "      " ++ "0,00"
     ++ EmptyString)
  = (parse_amount "160594,67", parse_amount "0,00").
Proof.
  apply (saldo_pendiente_is_read "DETALLE " "SALDO PENDIENTE" "     " "160594,67"
           "      " "0,00" EmptyString);
    first [reflexivity | discriminate].
Defined.

(** X26. The month and the year under which [upload_statement] stores a
    parsed document are those of the date of the statement when one was
    read, and those of the time of the upload when none was: the 0 that
    the parser returns for a missing date is what [or] replaces, and no
    date that was read has month or year 0. *)
Theorem statement_period_of_a_document (sum : list float -> float)
    (pages : list (option string)) (utcnow : datetime) :
  statement_period (parse_mastercard_pdf sum pages) utcnow
  = match statement_date (parse_mastercard_pdf sum pages) with
    | Some date_obj => (month date_obj, year date_obj)
    | None => (month utcnow, year utcnow)
    end.
Proof.
  unfold statement_period, parse_mastercard_pdf.
  destruct pages as [|page pages]; [reflexivity|].
  destruct (extract_saldo_actual (page_text page)) as [a1 a2].
  destruct (extract_saldo_pendiente (page_text page)) as [b1 b2].
  pose proof (extract_statement_date_fields (page_text page)) as H.
  destruct (extract_statement_date (page_text page)) as [[[dt|] m] y];
    cbn [statement_date st_month st_year].
  - destruct H as (-> & -> & Hy & Hm & _). unfold int_or.
    replace (month dt =? 0)%Z with false by (symmetry; apply Z.eqb_neq; lia).
    replace (year dt =? 0)%Z with false by (symmetry; apply Z.eqb_neq; lia).
    reflexivity.
  - destruct H as [-> ->]. reflexivity.
Qed.
